(** * CHEATS_APP: system-audio capture and real-time transcription sessions

    A shallow embedding of [public/windowsAudioCapture.js] and
    [public/meetingsRenderer.js].  Asynchronous functions are run to
    completion one after the other (the renderer is single threaded and
    every call below is awaited), so an [async function] becomes a
    computation in a state-and-exception monad: the state is what the
    function can change, an exception is a rejected promise or a [throw].
    Console output is not part of the model. *)

From Stdlib Require Import ZArith QArith Qround List String Ascii Bool Lia DecimalString.
Import ListNotations.
Open Scope string_scope.
Open Scope Z_scope.

(** ** JavaScript values and errors *)

(** What [new Error(msg)] and a DOMException carry that the code reads. *)
Record JsError : Type := mkJsError { name : string; message : string }.

Definition newError (msg : string) : JsError := mkJsError "Error" msg.
Definition newTypeError (msg : string) : JsError := mkJsError "TypeError" msg.

(** The fragment of values whose truthiness the code tests. *)
Inductive JsValue : Type :=
| VUndefined
| VNull
| VBool (b : bool)
| VString (s : string).

Definition truthy (v : JsValue) : bool :=
  match v with
  | VUndefined | VNull => false
  | VBool b => b
  | VString s => negb (String.eqb s "")
  end.

(** [s.includes(needle)] *)
Fixpoint includes (needle s : string) : bool :=
  if String.prefix needle s then true
  else match s with
       | EmptyString => false
       | String _ rest => includes needle rest
       end.

Definition lowerAscii (c : ascii) : ascii :=
  let n := nat_of_ascii c in
  if (Nat.leb 65 n && Nat.leb n 90)%bool then ascii_of_nat (n + 32) else c.

(** [s.toLowerCase()] on ASCII text. *)
Fixpoint toLowerCase (s : string) : string :=
  match s with
  | EmptyString => EmptyString
  | String c rest => String (lowerAscii c) (toLowerCase rest)
  end.

(** Template-literal rendering of an integer. *)
Definition showZ (n : Z) : string := NilZero.string_of_int (Z.to_int n).

Definition nl : string := String (ascii_of_nat 10) EmptyString.

(** [lastError?.message || 'Unknown error'] *)
Definition messageOrUnknown (lastError : option JsError) : string :=
  match lastError with
  | None => "Unknown error"
  | Some e => if String.eqb (message e) "" then "Unknown error" else message e
  end.

(** ** State and exception monad *)

Inductive Outcome (A : Type) : Type :=
| Return (a : A)
| Throw (e : JsError).
Arguments Return {A} a.
Arguments Throw {A} e.

Definition M (S A : Type) : Type := S -> Outcome A * S.

Definition ret {S A} (a : A) : M S A := fun s => (Return a, s).
Definition throw {S A} (e : JsError) : M S A := fun s => (Throw e, s).
Definition bind {S A B} (m : M S A) (k : A -> M S B) : M S B :=
  fun s => match m s with
           | (Return a, s') => k a s'
           | (Throw e, s') => (Throw e, s')
           end.
(** [try { body } catch (error) { handler }] *)
Definition tryCatch {S A} (body : M S A) (handler : JsError -> M S A) : M S A :=
  fun s => match body s with
           | (Return a, s') => (Return a, s')
           | (Throw e, s') => handler e s'
           end.
(** [let x = null; try { x = await first; rest(x) } catch (error) { handler }]
    where the handler reads [x]: it sees [None] when [first] threw. *)
Definition tryAssignCatch {S A B} (first : M S A) (rest : A -> M S B)
    (handler : option A -> JsError -> M S B) : M S B :=
  fun s => match first s with
           | (Throw e, s') => handler None e s'
           | (Return a, s') => tryCatch (rest a) (handler (Some a)) s'
           end.
Definition get {S} : M S S := fun s => (Return s, s).
Definition modify {S} (f : S -> S) : M S unit := fun s => (Return tt, f s).
Definition when {S} (c : bool) (m : M S unit) : M S unit := if c then m else ret tt.

Declare Scope js_scope.
Delimit Scope js_scope with js.
Notation "x <- m ;; k" := (bind m (fun x => k))
  (at level 100, m at next level, right associativity) : js_scope.
Notation "m ;;; k" := (bind m (fun _ => k))
  (at level 100, right associativity) : js_scope.
Open Scope js_scope.

(** A [for (attempt = 1; attempt <= max; attempt++)] body either leaves the
    function with [return] or falls through to the next round having
    recorded [lastError]. *)
Inductive Round (A : Type) : Type :=
| Returned (a : A)
| NextRound (lastError : JsError).
Arguments Returned {A} a.
Arguments NextRound {A} lastError.

Inductive LoopExit (A : Type) : Type :=
| LoopReturned (a : A)
| LoopExhausted (lastError : option JsError).
Arguments LoopReturned {A} a.
Arguments LoopExhausted {A} lastError.

(** ** Media streams *)

Inductive TrackKind : Type := AudioTrack | VideoTrack.
Inductive ReadyState : Type := Live | Ended.

Record Track : Type := mkTrack {
  track_id : nat;
  kind : TrackKind;
  readyState : ReadyState;
  enabled : bool
}.

(** A MediaStream is the list of its tracks; a track object is identified
    by [track_id]. *)
Definition MediaStream : Type := list Track.

Definition isVideo (t : Track) : bool :=
  match kind t with VideoTrack => true | AudioTrack => false end.
Definition isAudio (t : Track) : bool := negb (isVideo t).

Definition getTracks (ms : MediaStream) : list Track := ms.
Definition getVideoTracks (ms : MediaStream) : list Track := filter isVideo ms.
Definition getAudioTracks (ms : MediaStream) : list Track := filter isAudio ms.

(** [track.stop()] acts on the track object, which the stream still holds;
    the method returns [undefined]. *)
Definition stopTrack (id : nat) (ms : MediaStream) : MediaStream :=
  map (fun t => if Nat.eqb (track_id t) id
                then mkTrack (track_id t) (kind t) Ended (enabled t) else t) ms.
Definition stopResult : JsValue := VUndefined.

(** [stream.removeTrack(track)] *)
Definition removeTrack (id : nat) (ms : MediaStream) : MediaStream :=
  filter (fun t => negb (Nat.eqb (track_id t) id)) ms.

(** ** The host environment of the capture code *)

(** What a call of [window.electronAPI.enableLoopbackAudio()] or
    [disableLoopbackAudio()] does: the promise resolves to [{error?}] or
    rejects. *)
Inductive ApiReply : Type :=
| Resolves (error : option string)
| Rejects (e : JsError).

Record AudioConstraints : Type := mkAudio {
  echoCancellation : bool;
  noiseSuppression : bool;
  autoGainControl : bool
}.

(** The [options] argument: the keys the code spreads. *)
Record CaptureOptions : Type := mkOptions {
  opt_audio : option AudioConstraints;
  opt_video : option bool
}.

Record DisplayMediaOptions : Type := mkDisplayOptions {
  dm_audio : AudioConstraints;
  dm_video : bool
}.

(** A field is [None] when the property is undefined.  The replies are
    indexed by how many calls of the same function came before. *)
Record Host : Type := mkHost {
  navigator_platform : option string;
  enableLoopbackAudio : option (nat -> ApiReply);
  disableLoopbackAudio : option (nat -> ApiReply);
  getDisplayMedia : option (nat -> JsError + MediaStream);
  helperLoaded : bool
}.

(** What the capture code does to the outside world, most recent first. *)
Inductive Event : Type :=
| EnableCall
| DisableCall
| DisableSafeCall
| GetDisplayMediaCall (opts : DisplayMediaOptions)
| Sleep (ms : Z)
| TrackStopped (id : nat).

Definition Log : Type := list Event.

Definition isEnable (e : Event) : bool := match e with EnableCall => true | _ => false end.
Definition isDisable (e : Event) : bool := match e with DisableCall => true | _ => false end.
Definition isDisableSafe (e : Event) : bool :=
  match e with DisableSafeCall => true | _ => false end.
Definition isCapture (e : Event) : bool :=
  match e with GetDisplayMediaCall _ => true | _ => false end.

Definition countOf (p : Event -> bool) (l : Log) : nat := List.length (filter p l).

(** The waits of a run in the order they happened. *)
Definition sleeps (l : Log) : list Z :=
  flat_map (fun e => match e with Sleep ms => [ms] | _ => [] end) (rev l).

Definition emit (e : Event) : M Log unit := modify (cons e).

(** [await new Promise(resolve => setTimeout(resolve, ms))] *)
Definition sleep (ms : Z) : M Log unit := emit (Sleep ms).

(** [await window.electronAPI.enableLoopbackAudio()] where the property is
    known to be a function. *)
Definition callEnable (reply : nat -> ApiReply) : M Log (option string) :=
  l <- get ;;
  emit EnableCall ;;;
  match reply (countOf isEnable l) with
  | Resolves err => ret err
  | Rejects e => throw e
  end.

Definition callDisable (reply : nat -> ApiReply) : M Log (option string) :=
  l <- get ;;
  emit DisableCall ;;;
  match reply (countOf isDisable l) with
  | Resolves err => ret err
  | Rejects e => throw e
  end.

Definition callGetDisplayMedia (gdm : nat -> JsError + MediaStream)
    (opts : DisplayMediaOptions) : M Log MediaStream :=
  l <- get ;;
  emit (GetDisplayMediaCall opts) ;;;
  match gdm (countOf isCapture l) with
  | inr stream => ret stream
  | inl e => throw e
  end.

(** ** public/windowsAudioCapture.js *)

Module WindowsAudioCapture.

Definition isWindows (h : Host) : bool :=
  match navigator_platform h with
  | Some p => if String.eqb p "" then false else includes "win" (toLowerCase p)
  | None => false
  end.

Definition validateLoopbackAudio (h : Host) : M Log bool :=
  match enableLoopbackAudio h with
  | None => ret false
  | Some _ => ret true
  end.

(** One round of the loop of [enableLoopbackAudioWithRetry]. *)
Definition enableRound (h : Host) (maxRetries retryDelay attempt : Z) : M Log (Round unit) :=
  tryCatch
    (ok <- validateLoopbackAudio h ;;
     (if negb ok then throw (newError "Loopback audio API not available") else ret tt) ;;;
     match enableLoopbackAudio h with
     | Some reply => _ <- callEnable reply ;; ret tt
     | None => throw (newTypeError "window.electronAPI.enableLoopbackAudio is not a function")
     end ;;;
     sleep retryDelay ;;;
     ret (Returned tt))
    (fun error =>
       when (attempt <? maxRetries) (sleep retryDelay) ;;;
       ret (NextRound error)).

Fixpoint enableRounds (h : Host) (maxRetries retryDelay : Z) (rounds : nat) (attempt : Z)
    (lastError : option JsError) : M Log (LoopExit unit) :=
  match rounds with
  | O => ret (LoopExhausted lastError)
  | S rounds' =>
      r <- enableRound h maxRetries retryDelay attempt ;;
      match r with
      | Returned a => ret (LoopReturned a)
      | NextRound error =>
          enableRounds h maxRetries retryDelay rounds' (attempt + 1) (Some error)
      end
  end.

(** The loop runs for [attempt = 1 .. maxRetries], that is
    [Z.to_nat maxRetries] rounds. *)
Definition enableLoopbackAudioWithRetry (h : Host) (maxRetries retryDelay : Z) : M Log unit :=
  r <- enableRounds h maxRetries retryDelay (Z.to_nat maxRetries) 1 None ;;
  match r with
  | LoopReturned _ => ret tt
  | LoopExhausted lastError =>
      throw (newError ("Failed to enable loopback audio after " ++ showZ maxRetries
                       ++ " attempts: " ++ messageOrUnknown lastError))
  end.

(** [{ audio: {defaults, ...options.audio}, video: true, ...options }]: the
    final spread lets the caller's [audio] and [video] keys win. *)
Definition displayMediaOptions (options : CaptureOptions) : DisplayMediaOptions :=
  mkDisplayOptions
    (match opt_audio options with
     | Some a => a
     | None => mkAudio false false false
     end)
    (match opt_video options with
     | Some v => v
     | None => true
     end).

(** The test of the catch block:
    [error.name === 'NotSupportedError' || error.message?.includes('Not supported')] *)
Definition isNotSupported (error : JsError) : bool :=
  String.eqb (name error) "NotSupportedError" || includes "Not supported" (message error).

(** The catch block of the capture loop. *)
Definition onCaptureError (maxRetries retryDelay attempt : Z) (error : JsError) : M Log unit :=
  if isNotSupported error
  then when (attempt <? maxRetries) (sleep (retryDelay * 2))
  else when (attempt <? maxRetries) (sleep retryDelay).

Definition captureRound (h : Host) (gdm : nat -> JsError + MediaStream)
    (options : CaptureOptions) (maxRetries retryDelay attempt : Z) : M Log (Round MediaStream) :=
  tryCatch
    (enableLoopbackAudioWithRetry h 2 retryDelay ;;;
     displayStream <- callGetDisplayMedia gdm (displayMediaOptions options) ;;
     ret (Returned displayStream))
    (fun error =>
       onCaptureError maxRetries retryDelay attempt error ;;;
       ret (NextRound error)).

Fixpoint captureRounds (h : Host) (gdm : nat -> JsError + MediaStream)
    (options : CaptureOptions) (maxRetries retryDelay : Z) (rounds : nat) (attempt : Z)
    (lastError : option JsError) : M Log (LoopExit MediaStream) :=
  match rounds with
  | O => ret (LoopExhausted lastError)
  | S rounds' =>
      r <- captureRound h gdm options maxRetries retryDelay attempt ;;
      match r with
      | Returned stream => ret (LoopReturned stream)
      | NextRound error =>
          captureRounds h gdm options maxRetries retryDelay rounds' (attempt + 1) (Some error)
      end
  end.

Definition notSupportedHelp : string :=
  "System audio capture is not supported. Please ensure:" ++ nl ++
  "1. Windows audio permissions are granted" ++ nl ++
  "2. Audio drivers support loopback capture" ++ nl ++
  "3. electron-audio-loopback is properly initialized".

(** The message built after the loop; the test here is on the name alone:
    [lastError?.name === 'NotSupportedError']. *)
Definition exhaustedMessage (maxRetries : Z) (lastError : option JsError) : string :=
  if match lastError with
     | Some e => String.eqb (name e) "NotSupportedError"
     | None => false
     end
  then notSupportedHelp
  else "Failed to capture system audio after " ++ showZ maxRetries ++ " attempts: "
       ++ messageOrUnknown lastError.

Definition captureSystemAudioWindows (h : Host) (options : CaptureOptions)
    (maxRetries retryDelay : Z) : M Log MediaStream :=
  match getDisplayMedia h with
  | None => throw (newError "getDisplayMedia API is not supported in this browser/environment")
  | Some gdm =>
      r <- captureRounds h gdm options maxRetries retryDelay (Z.to_nat maxRetries) 1 None ;;
      match r with
      | LoopReturned stream => ret stream
      | LoopExhausted lastError => throw (newError (exhaustedMessage maxRetries lastError))
      end
  end.

Definition disableLoopbackAudioSafe (h : Host) : M Log unit :=
  emit DisableSafeCall ;;;
  tryCatch
    (match disableLoopbackAudio h with
     | Some reply => _ <- callDisable reply ;; ret tt
     | None => ret tt
     end)
    (fun _ => ret tt).

(** [videoTracks.forEach(track => { track.stop(); displayStream.removeTrack(track); })] *)
Fixpoint stopAndRemove (videoTracks : list Track) (displayStream : MediaStream)
    : M Log MediaStream :=
  match videoTracks with
  | [] => ret displayStream
  | track :: rest =>
      emit (TrackStopped (track_id track)) ;;;
      stopAndRemove rest (removeTrack (track_id track) (stopTrack (track_id track) displayStream))
  end.

(** [displayStream.getTracks().forEach(track => track.stop())] *)
Fixpoint stopAll (tracks : list Track) : M Log unit :=
  match tracks with
  | [] => ret tt
  | track :: rest => emit (TrackStopped (track_id track)) ;;; stopAll rest
  end.

(** The catch block of [captureWindowsSystemAudio]. *)
Definition cleanupAndRethrow (h : Host) (displayStream : option MediaStream) (error : JsError)
    : M Log MediaStream :=
  match displayStream with
  | Some stream => stopAll (getTracks stream)
  | None => ret tt
  end ;;;
  disableLoopbackAudioSafe h ;;;
  throw error.

(** [captureSystemAudioWindows(options)] is called with its default
    [maxRetries = 3] and [retryDelay = 500]. *)
Definition captureWindowsSystemAudio (h : Host) (options : CaptureOptions) : M Log MediaStream :=
  if negb (isWindows h) then throw (newError "This function is only for Windows platform")
  else
    tryAssignCatch
      (captureSystemAudioWindows h options 3 500)
      (fun displayStream => stopAndRemove (getVideoTracks displayStream) displayStream)
      (cleanupAndRethrow h).

End WindowsAudioCapture.

(** ** The earlier revision of windowsAudioCapture.js

    The source tree holds older copies of the helper.  Their capture loop
    has the same shape; the catch block computes its waits differently, and
    that block is what is modelled here. *)

Module WindowsAudioCaptureEarlier.

Definition isNotSupported (error : JsError) : bool :=
  String.eqb (name error) "NotSupportedError" || includes "Not supported" (message error).

(** [const waitTime = attempt * 1000] for the not-supported class,
    [retryDelay] otherwise, both only while [attempt < maxRetries]. *)
Definition onCaptureError (maxRetries retryDelay attempt : Z) (error : JsError) : M Log unit :=
  if isNotSupported error
  then when (attempt <? maxRetries) (sleep (attempt * 1000))
  else when (attempt <? maxRetries) (sleep retryDelay).

End WindowsAudioCaptureEarlier.

(** ** public/meetingsRenderer.js: platform dispatch of the capture *)

Module MeetingsRenderer.

Definition detectPlatform (h : Host) : string :=
  match navigator_platform h with
  | Some p =>
      if String.eqb p "" then "linux"
      else let platform := toLowerCase p in
           if includes "win" platform then "windows"
           else if includes "mac" platform then "mac"
           else "linux"
  | None => "linux"
  end.

(** [videoTracks.forEach(t => t.stop() && displayStream.removeTrack(t))]:
    the right operand of [&&] is evaluated only when [t.stop()] is truthy. *)
Fixpoint stopAndThenRemove (videoTracks : list Track) (displayStream : MediaStream)
    : M Log MediaStream :=
  match videoTracks with
  | [] => ret displayStream
  | t :: rest =>
      emit (TrackStopped (track_id t)) ;;;
      let stopped := stopTrack (track_id t) displayStream in
      stopAndThenRemove rest
        (if truthy stopResult then removeTrack (track_id t) stopped else stopped)
  end.

Definition captureSystemAudioMacOS (h : Host) : M Log MediaStream :=
  match enableLoopbackAudio h with
  | Some reply => _ <- callEnable reply ;; ret tt
  | None => throw (newTypeError "window.electronAPI.enableLoopbackAudio is not a function")
  end ;;;
  displayStream <-
    match getDisplayMedia h with
    | Some gdm => callGetDisplayMedia gdm (mkDisplayOptions (mkAudio false false false) true)
    | None => throw (newTypeError "navigator.mediaDevices.getDisplayMedia is not a function")
    end ;;
  match disableLoopbackAudio h with
  | Some reply => _ <- callDisable reply ;; ret tt
  | None => throw (newTypeError "window.electronAPI.disableLoopbackAudio is not a function")
  end ;;;
  stopAndThenRemove (filter isVideo (getTracks displayStream)) displayStream.

Definition captureSystemAudioWindows (h : Host) : M Log MediaStream :=
  if negb (helperLoaded h)
  then throw (newError "Windows audio capture helper not loaded. Please ensure windowsAudioCapture.js is loaded before meetingsRenderer.js")
  else
    tryCatch
      (WindowsAudioCapture.captureWindowsSystemAudio h
         (mkOptions (Some (mkAudio false false false)) None))
      (fun error =>
         when (helperLoaded h) (WindowsAudioCapture.disableLoopbackAudioSafe h) ;;;
         throw error).

Definition captureSystemAudio (h : Host) : M Log MediaStream :=
  let platform := detectPlatform h in
  if String.eqb platform "windows"
  then captureSystemAudioWindows h
  else captureSystemAudioMacOS h.

(** *** class Session *)

Module Session.

(** The peer connection as the session uses it: the ids of the tracks its
    senders carry. *)
Record PeerConnection : Type := mkPeerConnection { senders : list nat }.

(** The fields the constructor sets; [None] is [null]. *)
Record Session : Type := mkSession {
  apiKey : string;
  streamType : string;
  useSessionToken : bool;
  ms : option MediaStream;
  pc : option PeerConnection;
  dc : option unit;
  muted : bool
}.

Definition constructor (apiKey streamType : string) : Session :=
  mkSession apiKey streamType true None None None false.

(** What the session does to objects it does not own alone. *)
Inductive Effect : Type :=
| DataChannelClosed
| PeerConnectionClosed
| StreamTrackStopped (id : nat)
| FetchCall (url : string).

(** [this] together with the effects so far, most recent first. *)
Record State : Type := mkState { this : Session; effects : list Effect }.

Definition effect (e : Effect) : M State unit :=
  modify (fun st => mkState (this st) (e :: effects st)).
Definition update (f : Session -> Session) : M State unit :=
  modify (fun st => mkState (f (this st)) (effects st)).

Definition set_ms (v : option MediaStream) (s : Session) : Session :=
  mkSession (apiKey s) (streamType s) (useSessionToken s) v (pc s) (dc s) (muted s).
Definition set_pc (v : option PeerConnection) (s : Session) : Session :=
  mkSession (apiKey s) (streamType s) (useSessionToken s) (ms s) v (dc s) (muted s).
Definition set_dc (v : option unit) (s : Session) : Session :=
  mkSession (apiKey s) (streamType s) (useSessionToken s) (ms s) (pc s) v (muted s).
Definition set_muted (v : bool) (s : Session) : Session :=
  mkSession (apiKey s) (streamType s) (useSessionToken s) (ms s) (pc s) (dc s) v.

(** [getTracks().forEach(t => t.stop())] on the borrowed stream. *)
Fixpoint stopEvery (tracks : list Track) : M State unit :=
  match tracks with
  | [] => ret tt
  | t :: rest => effect (StreamTrackStopped (track_id t)) ;;; stopEvery rest
  end.

(** Every step guards its handle with [?.]. *)
Definition stop : M State unit :=
  st <- get ;;
  match dc (this st) with Some _ => effect DataChannelClosed | None => ret tt end ;;;
  update (set_dc None) ;;;
  match pc (this st) with Some _ => effect PeerConnectionClosed | None => ret tt end ;;;
  update (set_pc None) ;;;
  match ms (this st) with Some stream => stopEvery (getTracks stream) | None => ret tt end ;;;
  update (set_ms None) ;;;
  update (set_muted false).

Definition setEnabled (ids : list nat) (v : bool) (stream : MediaStream) : MediaStream :=
  map (fun t => if existsb (Nat.eqb (track_id t)) ids
                then mkTrack (track_id t) (kind t) (readyState t) v else t) stream.

(** [this.pc.getSenders()] is reached without a guard. *)
Definition mute (flag : bool) : M State unit :=
  update (set_muted flag) ;;;
  st <- get ;;
  match pc (this st) with
  | None => throw (newTypeError "Cannot read properties of null (reading 'getSenders')")
  | Some conn =>
      update (fun s => set_ms (option_map (setEnabled (senders conn) (negb flag)) (ms s)) s)
  end.

(** The browser and the network as one negotiation meets them: [None]
    means the step succeeds.  [sessionConfig] only travels in the request
    bodies and is left out. *)
Record SessionData : Type := mkSessionData { client_secret : option string }.

Record Response : Type := mkResponse {
  ok : bool;
  json : JsError + SessionData;
  text : JsError + string
}.

Record Rtc : Type := mkRtc {
  newRTCPeerConnection : option JsError;
  addTrack : option JsError;
  createDataChannel : option JsError;
  createOffer : JsError + string;
  setLocalDescription : option JsError;
  fetchSession : JsError + Response;
  fetchRealtime : JsError + Response;
  setRemoteDescription : option JsError
}.

Record Answer : Type := mkAnswer { answer_type : string; sdp : string }.

Definition failing {S} (step : option JsError) : M S unit :=
  match step with
  | Some e => throw e
  | None => ret tt
  end.

Definition awaiting {S A} (step : JsError + A) : M S A :=
  match step with
  | inl e => throw e
  | inr a => ret a
  end.

Definition urlRoot : string := "https://api.openai.com".
Definition realtimeUrl : string := urlRoot ++ "/v1/realtime".

Definition signal (rtc : Rtc) (offer : string) (tokenEndpoint : string) : M State Answer :=
  st <- get ;;
  if useSessionToken (this st) then
    effect (FetchCall (urlRoot ++ tokenEndpoint)) ;;;
    sessionResponse <- awaiting (fetchSession rtc) ;;
    (if negb (ok sessionResponse)
     then throw (newError "Failed to request session token") else ret tt) ;;;
    sessionData <- awaiting (json sessionResponse) ;;
    clientSecret <-
      match client_secret sessionData with
      | Some v => ret v
      | None => throw (newTypeError "Cannot read properties of undefined (reading 'value')")
      end ;;
    effect (FetchCall realtimeUrl) ;;;
    sdpResponse <- awaiting (fetchRealtime rtc) ;;
    (if negb (ok sdpResponse) then throw (newError "Failed to signal") else ret tt) ;;;
    body <- awaiting (text sdpResponse) ;;
    ret (mkAnswer "answer" body)
  else
    effect (FetchCall realtimeUrl) ;;;
    sdpResponse <- awaiting (fetchRealtime rtc) ;;
    (if negb (ok sdpResponse) then throw (newError "Failed to signal") else ret tt) ;;;
    body <- awaiting (text sdpResponse) ;;
    ret (mkAnswer "answer" body).

(** The statements of [startInternal] before its [try]. *)
Definition prepareOffer (rtc : Rtc) (stream : MediaStream) : M State string :=
  update (set_ms (Some stream)) ;;;
  failing (newRTCPeerConnection rtc) ;;;
  update (set_pc (Some (mkPeerConnection []))) ;;;
  match getTracks stream with
  | [] => throw (newTypeError "Failed to execute 'addTrack' on 'RTCPeerConnection': parameter 1 is not of type 'MediaStreamTrack'.")
  | t :: _ =>
      failing (addTrack rtc) ;;;
      update (set_pc (Some (mkPeerConnection [track_id t])))
  end ;;;
  failing (createDataChannel rtc) ;;;
  update (set_dc (Some tt)) ;;;
  offer <- awaiting (createOffer rtc) ;;
  failing (setLocalDescription rtc) ;;;
  ret offer.

(** The body of the [try]. *)
Definition negotiate (rtc : Rtc) (offer tokenEndpoint : string) : M State unit :=
  answer <- signal rtc offer tokenEndpoint ;;
  failing (setRemoteDescription rtc).

(** [this.onerror?.(e)]: [onerror] is [None] when no callback was assigned. *)
Definition startInternal (rtc : Rtc) (onerror : option (JsError -> M State unit))
    (stream : MediaStream) (tokenEndpoint : string) : M State unit :=
  offer <- prepareOffer rtc stream ;;
  tryCatch
    (negotiate rtc offer tokenEndpoint)
    (fun e => match onerror with
              | Some callback => callback e
              | None => ret tt
              end).

Definition start (rtc : Rtc) (onerror : option (JsError -> M State unit))
    (stream : MediaStream) : M State unit :=
  startInternal rtc onerror stream "/v1/realtime/sessions".

Definition startTranscription (rtc : Rtc) (onerror : option (JsError -> M State unit))
    (stream : MediaStream) : M State unit :=
  startInternal rtc onerror stream "/v1/realtime/transcription_sessions".

End Session.

(** *** Inbound data-channel messages

    [performance.now()] yields a double; the handlers only subtract and
    format, so the number type, its subtraction and [toFixed(0)] are kept
    abstract. *)

Section Messages.

Context {num : Type}.
Variable zero : num.
Variable sub : num -> num -> num.
Variable toFixed0 : num -> string.

Record TurnDetection : Type := mkTurnDetection { silence_duration_ms : num }.

Record SessionConfig : Type := mkSessionConfig {
  id : string;
  turn_detection : option TurnDetection
}.

(** A parsed message: [session] and [transcript] are [None] when the
    property is missing. *)
Record Message : Type := mkMessage {
  type : string;
  session : option SessionConfig;
  msg_transcript : option string
}.

Record Transcript : Type := mkTranscript {
  transcript : option string;
  partial : bool;
  latencyMs : option string
}.

(** The top-level variables of the renderer the handlers touch, and per
    role the transcripts handed on for rendering, most recent first. *)
Record Globals : Type := mkGlobals {
  microphoneSessionConfig : option SessionConfig;
  systemAudioSessionConfig : option SessionConfig;
  microphoneVadTime : num;
  systemAudioVadTime : num;
  micResults : list Transcript;
  speakerResults : list Transcript
}.

Definition initialGlobals : Globals := mkGlobals None None zero zero [] [].

Definition hasText (t : Transcript) : bool :=
  match transcript t with
  | Some s => negb (String.eqb s "")
  | None => false
  end.

(** [if (!text) return;] then the line is appended to the results element,
    which is taken to exist. *)
Definition handleMicrophoneTranscript (t : Transcript) : M Globals unit :=
  if hasText t
  then modify (fun g => mkGlobals (microphoneSessionConfig g) (systemAudioSessionConfig g)
                          (microphoneVadTime g) (systemAudioVadTime g)
                          (t :: micResults g) (speakerResults g))
  else ret tt.

Definition handleSystemAudioTranscript (t : Transcript) : M Globals unit :=
  if hasText t
  then modify (fun g => mkGlobals (microphoneSessionConfig g) (systemAudioSessionConfig g)
                          (microphoneVadTime g) (systemAudioVadTime g)
                          (micResults g) (t :: speakerResults g))
  else ret tt.

Definition nullTurnDetection : JsError :=
  newTypeError "Cannot read properties of null (reading 'turn_detection')".

(** [now] is what [performance.now()] returns during this call. *)
Definition handleMicrophoneMessage (now : num) (parsed : Message) : M Globals unit :=
  if String.eqb (type parsed) "transcription_session.created" then
    modify (fun g => mkGlobals (session parsed) (systemAudioSessionConfig g)
                       (microphoneVadTime g) (systemAudioVadTime g)
                       (micResults g) (speakerResults g)) ;;;
    match session parsed with
    | Some _ => ret tt
    | None => throw (newTypeError "Cannot read properties of undefined (reading 'id')")
    end
  else if String.eqb (type parsed) "input_audio_buffer.speech_started" then
    handleMicrophoneTranscript (mkTranscript (Some "...") true None)
  else if String.eqb (type parsed) "input_audio_buffer.speech_stopped" then
    handleMicrophoneTranscript (mkTranscript (Some "...") true None) ;;;
    g <- get ;;
    match microphoneSessionConfig g with
    | None => throw nullTurnDetection
    | Some config =>
        match turn_detection config with
        | None => throw (newTypeError "Cannot read properties of undefined (reading 'silence_duration_ms')")
        | Some td =>
            modify (fun g => mkGlobals (microphoneSessionConfig g) (systemAudioSessionConfig g)
                               (sub now (silence_duration_ms td)) (systemAudioVadTime g)
                               (micResults g) (speakerResults g))
        end
    end
  else if String.eqb (type parsed) "conversation.item.input_audio_transcription.completed" then
    g <- get ;;
    let elapsed := sub now (microphoneVadTime g) in
    handleMicrophoneTranscript (mkTranscript (msg_transcript parsed) false (Some (toFixed0 elapsed)))
  else ret tt.

Definition handleSystemAudioMessage (now : num) (parsed : Message) : M Globals unit :=
  if String.eqb (type parsed) "transcription_session.created" then
    modify (fun g => mkGlobals (microphoneSessionConfig g) (session parsed)
                       (microphoneVadTime g) (systemAudioVadTime g)
                       (micResults g) (speakerResults g)) ;;;
    match session parsed with
    | Some _ => ret tt
    | None => throw (newTypeError "Cannot read properties of undefined (reading 'id')")
    end
  else if String.eqb (type parsed) "input_audio_buffer.speech_started" then
    handleSystemAudioTranscript (mkTranscript (Some "...") true None)
  else if String.eqb (type parsed) "input_audio_buffer.speech_stopped" then
    handleSystemAudioTranscript (mkTranscript (Some "...") true None) ;;;
    g <- get ;;
    match systemAudioSessionConfig g with
    | None => throw nullTurnDetection
    | Some config =>
        match turn_detection config with
        | None => throw (newTypeError "Cannot read properties of undefined (reading 'silence_duration_ms')")
        | Some td =>
            modify (fun g => mkGlobals (microphoneSessionConfig g) (systemAudioSessionConfig g)
                               (microphoneVadTime g) (sub now (silence_duration_ms td))
                               (micResults g) (speakerResults g))
        end
    end
  else if String.eqb (type parsed) "conversation.item.input_audio_transcription.completed" then
    g <- get ;;
    let elapsed := sub now (systemAudioVadTime g) in
    handleSystemAudioTranscript (mkTranscript (msg_transcript parsed) false (Some (toFixed0 elapsed)))
  else ret tt.

(** [start] wires [microphoneSession.onmessage = handleMicrophoneMessage]
    and [systemAudioSession.onmessage = handleSystemAudioMessage]. *)
Inductive Role : Type := Microphone | SystemAudio.

Record Inbound : Type := mkInbound { role : Role; clock : num; payload : Message }.

Definition dispatch (ev : Inbound) : M Globals unit :=
  match role ev with
  | Microphone => handleMicrophoneMessage (clock ev) (payload ev)
  | SystemAudio => handleSystemAudioMessage (clock ev) (payload ev)
  end.

(** Each message is handled in a task of its own: a handler that throws
    ends that task and the globals stay as it left them. *)
Definition deliver (g : Globals) (ev : Inbound) : Globals := snd (dispatch ev g).

Definition deliverAll (evs : list Inbound) (g : Globals) : Globals :=
  fold_left deliver evs g.

Definition isMicrophone (ev : Inbound) : bool :=
  match role ev with Microphone => true | SystemAudio => false end.
Definition isSystemAudio (ev : Inbound) : bool := negb (isMicrophone ev).

(** What belongs to one role. *)
Definition microphoneView (g : Globals) : option SessionConfig * num * list Transcript :=
  (microphoneSessionConfig g, microphoneVadTime g, micResults g).
Definition systemAudioView (g : Globals) : option SessionConfig * num * list Transcript :=
  (systemAudioSessionConfig g, systemAudioVadTime g, speakerResults g).

End Messages.

(** *** class WavRecorder: [audioBufferToWav]

    The DataView over the freshly allocated ArrayBuffer is the list of its
    bytes.  Samples come out of a Float32Array, so their product with
    [0x7FFF] is exact in double precision and rationals model it; the
    non-finite values are kept apart.  [sampleRate] is taken to be an
    integer. *)

Module WavRecorder.

Inductive Sample : Type :=
| Finite (q : Q)
| NotANumber
| PlusInfinity
| MinusInfinity.

(** [buffer.length], [buffer.sampleRate] and the arrays
    [buffer.getChannelData(0)], [buffer.getChannelData(1)], ...;
    [buffer.numberOfChannels] is how many there are. *)
Record AudioBuffer : Type := mkAudioBuffer {
  frames : nat;
  sampleRate : Z;
  channelData : list (list Sample)
}.

Definition numberOfChannels (buffer : AudioBuffer) : nat := List.length (channelData buffer).

(** [Math.min(1, x)] *)
Definition min1 (x : Sample) : Sample :=
  match x with
  | Finite q => Finite (if Qle_bool q 1 then q else 1%Q)
  | NotANumber => NotANumber
  | PlusInfinity => Finite 1%Q
  | MinusInfinity => MinusInfinity
  end.

(** [Math.max(-1, x)] *)
Definition maxMinus1 (x : Sample) : Sample :=
  match x with
  | Finite q => Finite (if Qle_bool (-1)%Q q then q else (-1)%Q)
  | NotANumber => NotANumber
  | PlusInfinity => PlusInfinity
  | MinusInfinity => Finite (-1)%Q
  end.

(** [x * 0x7FFF] *)
Definition times0x7FFF (x : Sample) : Sample :=
  match x with
  | Finite q => Finite (q * inject_Z 32767)%Q
  | NotANumber => NotANumber
  | PlusInfinity => PlusInfinity
  | MinusInfinity => MinusInfinity
  end.

(** The integer a DataView setter makes of its argument: zero for NaN and
    the infinities, the value truncated toward zero otherwise. *)
Definition toInteger (x : Sample) : Z :=
  match x with
  | Finite q => if Qle_bool 0%Q q then Qfloor q else Qceiling q
  | _ => 0
  end.

(** Little-endian bytes of the low 16 and 32 bits, two's complement. *)
Definition littleEndian16 (v : Z) : list Z := [v mod 256; (v / 256) mod 256].
Definition littleEndian32 (v : Z) : list Z :=
  [v mod 256; (v / 256) mod 256; (v / 65536) mod 256; (v / 16777216) mod 256].

Definition View : Type := list Z.

Definition rangeError : JsError :=
  mkJsError "RangeError" "Offset is outside the bounds of the DataView".

(** A write of [bytes] at [byteOffset]: a RangeError when it does not fit. *)
Definition setBytes (byteOffset : Z) (bytes : list Z) : M View unit :=
  fun view =>
    if (0 <=? byteOffset)
       && (byteOffset + Z.of_nat (List.length bytes) <=? Z.of_nat (List.length view))
    then (Return tt,
          (firstn (Z.to_nat byteOffset) view ++ bytes
           ++ skipn (Z.to_nat byteOffset + List.length bytes) view)%list)
    else (Throw rangeError, view).

Definition setUint8 (byteOffset v : Z) : M View unit := setBytes byteOffset [v mod 256].
(** The setters below are the calls with [littleEndian = true]. *)
Definition setUint16 (byteOffset v : Z) : M View unit :=
  setBytes byteOffset (littleEndian16 v).
Definition setUint32 (byteOffset v : Z) : M View unit :=
  setBytes byteOffset (littleEndian32 v).
Definition setInt16 (byteOffset : Z) (x : Sample) : M View unit :=
  setBytes byteOffset (littleEndian16 (toInteger x)).

(** [for (i = 0; i < string.length; i++) view.setUint8(offset + i, string.charCodeAt(i))] *)
Fixpoint writeString (offset : Z) (string : string) : M View unit :=
  match string with
  | EmptyString => ret tt
  | String c rest =>
      setUint8 offset (Z.of_nat (nat_of_ascii c)) ;;;
      writeString (offset + 1) rest
  end.

(** [buffer.getChannelData(channel)[i]]; an index past the array reads
    [undefined], which [Math.min] turns into NaN. *)
Definition sampleAt (buffer : AudioBuffer) (channel i : nat) : Sample :=
  nth i (nth channel (channelData buffer) []) NotANumber.

(** The inner loop over [channel] for one [i], from [channel] on. *)
Fixpoint writeChannels (buffer : AudioBuffer) (i channel remaining : nat) (offset : Z)
    : M View Z :=
  match remaining with
  | O => ret offset
  | S remaining' =>
      let sample := maxMinus1 (min1 (sampleAt buffer channel i)) in
      setInt16 offset (times0x7FFF sample) ;;;
      writeChannels buffer i (S channel) remaining' (offset + 2)
  end.

(** The outer loop over [i], from [i] on. *)
Fixpoint writeFrames (buffer : AudioBuffer) (i remaining : nat) (offset : Z) : M View Z :=
  match remaining with
  | O => ret offset
  | S remaining' =>
      offset' <- writeChannels buffer i 0 (numberOfChannels buffer) offset ;;
      writeFrames buffer (S i) remaining' offset'
  end.

(** The result is the content of the Blob of type [audio/wav]. *)
Definition audioBufferToWav (buffer : AudioBuffer) : Outcome View :=
  let length := Z.of_nat (frames buffer) in
  let channels := Z.of_nat (numberOfChannels buffer) in
  let arrayBuffer : View :=
    repeat 0 (44 + frames buffer * numberOfChannels buffer * 2) in
  match
    (writeString 0 "RIFF" ;;;
     setUint32 4 (36 + length * channels * 2) ;;;
     writeString 8 "WAVE" ;;;
     writeString 12 "fmt " ;;;
     setUint32 16 16 ;;;
     setUint16 20 1 ;;;
     setUint16 22 channels ;;;
     setUint32 24 (sampleRate buffer) ;;;
     setUint32 28 (sampleRate buffer * channels * 2) ;;;
     setUint16 32 (channels * 2) ;;;
     setUint16 34 16 ;;;
     writeString 36 "data" ;;;
     setUint32 40 (length * channels * 2) ;;;
     writeFrames buffer 0 (frames buffer) 44) arrayBuffer
  with
  | (Return _, view) => Return view
  | (Throw e, _) => Throw e
  end.

End WavRecorder.

End MeetingsRenderer.

(** ** Definitions used by the statements *)

(** [adds p n m]: whatever the log before, running [m] only puts events in
    front of it, at most [n] of them satisfying [p]. *)
Definition adds {A} (p : Event -> bool) (n : nat) (m : M Log A) : Prop :=
  forall l, exists added,
    snd (m l) = (added ++ l)%list /\ (countOf p added <= n)%nat.

(** A Windows renderer in which everything works: the capture yields one
    audio and one video track. *)
Definition screenAndSound : MediaStream :=
  [mkTrack 1 AudioTrack Live true; mkTrack 2 VideoTrack Live true].

Definition workingWindows : Host :=
  mkHost (Some "Win32")
         (Some (fun _ => Resolves None)) (Some (fun _ => Resolves None))
         (Some (fun _ => inr screenAndSound)) true.

Definition workingMac : Host :=
  mkHost (Some "MacIntel")
         (Some (fun _ => Resolves None)) (Some (fun _ => Resolves None))
         (Some (fun _ => inr screenAndSound)) true.

(** A Windows renderer whose preload script exposes no
    [enableLoopbackAudio]. *)
Definition windowsWithoutLoopback : Host :=
  mkHost (Some "Win32") None (Some (fun _ => Resolves None))
         (Some (fun _ => inr screenAndSound)) true.

(** A Windows renderer whose capture always fails with [error]. *)
Definition windowsFailingWith (error : JsError) : Host :=
  mkHost (Some "Win32")
         (Some (fun _ => Resolves None)) (Some (fun _ => Resolves None))
         (Some (fun _ => inl error)) true.

Definition defaultOptions : CaptureOptions :=
  mkOptions (Some (mkAudio false false false)) None.

(** What the capture call throws when the enable function is missing. *)
Definition loopbackMissingMessage : string :=
  "Failed to capture system audio after 3 attempts: Failed to enable loopback audio after 2 attempts: Loopback audio API not available".

(** "Fails at once": an error, no capture call and no wait. *)
Definition failsAtOnce (h : Host) (options : CaptureOptions) : Prop :=
  exists e l,
    WindowsAudioCapture.captureWindowsSystemAudio h options [] = (Throw e, l)
    /\ countOf isCapture l = 0%nat /\ sleeps l = [].

(** "The wait before the next attempt is [attempt * baseDelayMs], or
    [attempt * 1000] for the not-supported class", for a catch block
    [onError] and its classifier. *)
Definition linearBackoff (classify : JsError -> bool)
    (onError : Z -> Z -> Z -> JsError -> M Log unit) : Prop :=
  forall maxRetries retryDelay attempt error,
    1 <= attempt < maxRetries ->
    sleeps (snd (onError maxRetries retryDelay attempt error []))
    = [if classify error then attempt * 1000 else attempt * retryDelay].

(** What a failed capture attempt that starts with the log [before] has
    observed: the error [enableLoopbackAudioWithRetry(2, retryDelay)]
    threw, or, once that returned, the rejection of the [getDisplayMedia]
    call that followed; [after] is the log right after that step. *)
Definition attemptFailsWith (h : Host) (gdm : nat -> JsError + MediaStream)
    (options : CaptureOptions) (retryDelay : Z) (before : Log) (error : JsError)
    (after : Log) : Prop :=
  WindowsAudioCapture.enableLoopbackAudioWithRetry h 2 retryDelay before = (Throw error, after)
  \/ exists enabled,
       WindowsAudioCapture.enableLoopbackAudioWithRetry h 2 retryDelay before
         = (Return tt, enabled)
       /\ gdm (countOf isCapture enabled) = inl error
       /\ after = GetDisplayMediaCall (WindowsAudioCapture.displayMediaOptions options)
                    :: enabled.

(** "On exhaustion the content of the error follows the class of the last
    error", for a classifier [classify]: when every capture call fails
    with [error], the troubleshooting text if [classify error], the
    generic text otherwise. *)
Definition messageFollowsClass (classify : JsError -> bool) : Prop :=
  forall error : JsError,
    fst (WindowsAudioCapture.captureSystemAudioWindows (windowsFailingWith error)
           defaultOptions 3 500 [])
    = Throw (newError
               (if classify error then WindowsAudioCapture.notSupportedHelp
                else "Failed to capture system audio after 3 attempts: "
                     ++ messageOrUnknown (Some error))).

(** A failure of one of the statements of [startInternal] that come
    before its [try]: the constructor, [addTrack] (also when the stream has
    no track to add), [createDataChannel], [createOffer],
    [setLocalDescription]. *)
Inductive failsBeforeSignaling (rtc : MeetingsRenderer.Session.Rtc) (stream : MediaStream)
    (e : JsError) : Prop :=
| ConstructorFails :
    MeetingsRenderer.Session.newRTCPeerConnection rtc = Some e ->
    failsBeforeSignaling rtc stream e
| AddTrackFails :
    MeetingsRenderer.Session.newRTCPeerConnection rtc = None ->
    stream <> [] ->
    MeetingsRenderer.Session.addTrack rtc = Some e ->
    failsBeforeSignaling rtc stream e
| CreateOfferFails :
    MeetingsRenderer.Session.newRTCPeerConnection rtc = None ->
    stream <> [] ->
    MeetingsRenderer.Session.addTrack rtc = None ->
    MeetingsRenderer.Session.createDataChannel rtc = None ->
    MeetingsRenderer.Session.createOffer rtc = inl e ->
    failsBeforeSignaling rtc stream e
| SetLocalDescriptionFails :
    forall offer,
    MeetingsRenderer.Session.newRTCPeerConnection rtc = None ->
    stream <> [] ->
    MeetingsRenderer.Session.addTrack rtc = None ->
    MeetingsRenderer.Session.createDataChannel rtc = None ->
    MeetingsRenderer.Session.createOffer rtc = inr offer ->
    MeetingsRenderer.Session.setLocalDescription rtc = Some e ->
    failsBeforeSignaling rtc stream e.

(** A browser and network in which every step works, and variants in
    which one step does not. *)
Definition goodResponse : MeetingsRenderer.Session.Response :=
  MeetingsRenderer.Session.mkResponse true
    (inr (MeetingsRenderer.Session.mkSessionData (Some "ek_123"))) (inr "v=0 answer").

Definition workingRtc : MeetingsRenderer.Session.Rtc :=
  MeetingsRenderer.Session.mkRtc None None None (inr "v=0 offer") None
    (inr goodResponse) (inr goodResponse) None.

Definition tokenRefusedRtc : MeetingsRenderer.Session.Rtc :=
  MeetingsRenderer.Session.mkRtc None None None (inr "v=0 offer") None
    (inr (MeetingsRenderer.Session.mkResponse false (inl (newError "no body")) (inl (newError "no body"))))
    (inr goodResponse) None.

Definition offerFailsRtc : MeetingsRenderer.Session.Rtc :=
  MeetingsRenderer.Session.mkRtc None None None
    (inl (mkJsError "InvalidStateError" "closed")) None
    (inr goodResponse) (inr goodResponse) None.

Definition freshMicrophone : MeetingsRenderer.Session.State :=
  MeetingsRenderer.Session.mkState
    (MeetingsRenderer.Session.constructor "sk-key" "microphone") [].

(** The renderer's error callback ends in [stop()]. *)
Definition stopOnError (e : JsError) : M MeetingsRenderer.Session.State unit :=
  MeetingsRenderer.Session.stop.

(** Inbound messages with integer clock readings, for the examples. *)
Definition vadConfig (name : string) : MeetingsRenderer.SessionConfig :=
  MeetingsRenderer.mkSessionConfig name (Some (MeetingsRenderer.mkTurnDetection 10)).

Definition created (r : MeetingsRenderer.Role) (at_ms : Z) (name : string)
    : MeetingsRenderer.Inbound :=
  MeetingsRenderer.mkInbound r at_ms
    (MeetingsRenderer.mkMessage "transcription_session.created" (Some (vadConfig name)) None).

Definition speechStarted (r : MeetingsRenderer.Role) (at_ms : Z) : MeetingsRenderer.Inbound :=
  MeetingsRenderer.mkInbound r at_ms
    (MeetingsRenderer.mkMessage "input_audio_buffer.speech_started" None None).

Definition speechStopped (r : MeetingsRenderer.Role) (at_ms : Z) : MeetingsRenderer.Inbound :=
  MeetingsRenderer.mkInbound r at_ms
    (MeetingsRenderer.mkMessage "input_audio_buffer.speech_stopped" None None).

Definition completed (r : MeetingsRenderer.Role) (at_ms : Z) (text : string)
    : MeetingsRenderer.Inbound :=
  MeetingsRenderer.mkInbound r at_ms
    (MeetingsRenderer.mkMessage "conversation.item.input_audio_transcription.completed"
       None (Some text)).

(** What [n] enable rounds that reach the enable call leave in the log:
    the call, then the wait of [retryDelay]. *)
Fixpoint enableTrail (n : nat) (retryDelay : Z) : Log :=
  match n with
  | O => []
  | S n' => Sleep retryDelay :: EnableCall :: enableTrail n' retryDelay
  end.

(** What one failed capture round leaves in the log when the enable
    succeeds at once and another round follows, most recent first. *)
Definition failedRound (opts : DisplayMediaOptions) (retryDelay : Z) (error : JsError) : Log :=
  [Sleep (if WindowsAudioCapture.isNotSupported error then retryDelay * 2 else retryDelay);
   GetDisplayMediaCall opts; Sleep retryDelay; EnableCall].

(** The failed rounds for the errors [errors], first error first in time. *)
Fixpoint captureTrail (opts : DisplayMediaOptions) (retryDelay : Z) (errors : list JsError)
    : Log :=
  match errors with
  | [] => []
  | error :: rest => (captureTrail opts retryDelay rest ++ failedRound opts retryDelay error)%list
  end.

Definition notSupportedError : JsError := mkJsError "NotSupportedError" "Not supported".

(** A Windows renderer whose capture fails twice with [NotSupportedError]
    and then yields a stream. *)
Definition thirdTimeLucky : Host :=
  mkHost (Some "Win32")
         (Some (fun _ => Resolves None)) (Some (fun _ => Resolves None))
         (Some (fun n => if Nat.ltb n 2 then inl notSupportedError else inr screenAndSound))
         true.

(** A Windows renderer whose enable call is rejected once and then
    resolves. *)
Definition enableSecondTime : Host :=
  mkHost (Some "Win32")
         (Some (fun n => if Nat.eqb n 0 then Rejects (newError "busy") else Resolves None))
         (Some (fun _ => Resolves None))
         (Some (fun _ => inr screenAndSound)) true.

(** A Mac on which the screen capture is refused. *)
Definition macCaptureRefused : Host :=
  mkHost (Some "MacIntel")
         (Some (fun _ => Resolves None)) (Some (fun _ => Resolves None))
         (Some (fun _ => inl (mkJsError "NotAllowedError" "Permission denied"))) true.

(** The constraints [captureSystemAudioMacOS] passes to [getDisplayMedia]. *)
Definition macOptions : DisplayMediaOptions := mkDisplayOptions (mkAudio false false false) true.

(** The token request of the token-brokered mode came back with a
    success status and a body holding [client_secret.value]. *)
Definition tokenUsable (rtc : MeetingsRenderer.Session.Rtc) : bool :=
  match MeetingsRenderer.Session.fetchSession rtc with
  | inr response =>
      MeetingsRenderer.Session.ok response
      && match MeetingsRenderer.Session.json response with
         | inr data =>
             match MeetingsRenderer.Session.client_secret data with
             | Some _ => true
             | None => false
             end
         | inl _ => false
         end
  | inl _ => false
  end.

(** The effects of [stop()] on a session that holds [stream], a peer
    connection and a data channel, most recent first. *)
Definition releaseEffects (stream : MediaStream) : list MeetingsRenderer.Session.Effect :=
  (rev (map (fun t => MeetingsRenderer.Session.StreamTrackStopped (track_id t)) stream)
   ++ [MeetingsRenderer.Session.PeerConnectionClosed;
       MeetingsRenderer.Session.DataChannelClosed])%list.

(** A session switched to the direct mode ([useSessionToken = false]). *)
Definition directMicrophone : MeetingsRenderer.Session.State :=
  MeetingsRenderer.Session.mkState
    (MeetingsRenderer.Session.mkSession "sk-key" "microphone" false None None None false) [].

(** The per-role variables, by role. *)
Definition configOf {num : Type} (r : MeetingsRenderer.Role)
    (g : @MeetingsRenderer.Globals num) : option (@MeetingsRenderer.SessionConfig num) :=
  match r with
  | MeetingsRenderer.Microphone => MeetingsRenderer.microphoneSessionConfig g
  | MeetingsRenderer.SystemAudio => MeetingsRenderer.systemAudioSessionConfig g
  end.

Definition resultsOf {num : Type} (r : MeetingsRenderer.Role)
    (g : @MeetingsRenderer.Globals num) : list MeetingsRenderer.Transcript :=
  match r with
  | MeetingsRenderer.Microphone => MeetingsRenderer.micResults g
  | MeetingsRenderer.SystemAudio => MeetingsRenderer.speakerResults g
  end.

Definition vadTimeOf {num : Type} (r : MeetingsRenderer.Role)
    (g : @MeetingsRenderer.Globals num) : num :=
  match r with
  | MeetingsRenderer.Microphone => MeetingsRenderer.microphoneVadTime g
  | MeetingsRenderer.SystemAudio => MeetingsRenderer.systemAudioVadTime g
  end.

Definition sameRole (a b : MeetingsRenderer.Role) : bool :=
  match a, b with
  | MeetingsRenderer.Microphone, MeetingsRenderer.Microphone => true
  | MeetingsRenderer.SystemAudio, MeetingsRenderer.SystemAudio => true
  | _, _ => false
  end.

(** The two shapes of transcript the handlers build: the "..." placeholder
    without a latency, and a final text with one. *)
Definition placeholderOrFinal (t : MeetingsRenderer.Transcript) : Prop :=
  MeetingsRenderer.hasText t = true
  /\ ((MeetingsRenderer.partial t = true
       /\ MeetingsRenderer.transcript t = Some "..."
       /\ MeetingsRenderer.latencyMs t = None)
      \/ (MeetingsRenderer.partial t = false
          /\ MeetingsRenderer.latencyMs t <> None)).

(** The four message types the handlers have a case for. *)
Definition handledType (s : string) : bool :=
  String.eqb s "transcription_session.created"
  || String.eqb s "input_audio_buffer.speech_started"
  || String.eqb s "input_audio_buffer.speech_stopped"
  || String.eqb s "conversation.item.input_audio_transcription.completed".

(** What [audioBufferToWav] stores for a sample. *)
Definition quantize (x : MeetingsRenderer.WavRecorder.Sample) : Z :=
  MeetingsRenderer.WavRecorder.toInteger
    (MeetingsRenderer.WavRecorder.times0x7FFF
       (MeetingsRenderer.WavRecorder.maxMinus1 (MeetingsRenderer.WavRecorder.min1 x))).

Definition charCodes (s : string) : list Z :=
  map (fun c => Z.of_nat (nat_of_ascii c) mod 256) (list_ascii_of_string s).

(** The 44 bytes of the header, field after field. *)
Definition wavHeader (buffer : MeetingsRenderer.WavRecorder.AudioBuffer) : list Z :=
  let length := Z.of_nat (MeetingsRenderer.WavRecorder.frames buffer) in
  let channels := Z.of_nat (MeetingsRenderer.WavRecorder.numberOfChannels buffer) in
  let rate := MeetingsRenderer.WavRecorder.sampleRate buffer in
  (charCodes "RIFF"
   ++ MeetingsRenderer.WavRecorder.littleEndian32 (36 + length * channels * 2)
   ++ charCodes "WAVE"
   ++ charCodes "fmt "
   ++ MeetingsRenderer.WavRecorder.littleEndian32 16
   ++ MeetingsRenderer.WavRecorder.littleEndian16 1
   ++ MeetingsRenderer.WavRecorder.littleEndian16 channels
   ++ MeetingsRenderer.WavRecorder.littleEndian32 rate
   ++ MeetingsRenderer.WavRecorder.littleEndian32 (rate * channels * 2)
   ++ MeetingsRenderer.WavRecorder.littleEndian16 (channels * 2)
   ++ MeetingsRenderer.WavRecorder.littleEndian16 16
   ++ charCodes "data"
   ++ MeetingsRenderer.WavRecorder.littleEndian32 (length * channels * 2))%list.

(** The bytes of frame [i]: one 16-bit sample per channel, from
    [channel] on. *)
Definition frameBytes (buffer : MeetingsRenderer.WavRecorder.AudioBuffer)
    (channel count i : nat) : list Z :=
  flat_map
    (fun c => MeetingsRenderer.WavRecorder.littleEndian16
                (quantize (MeetingsRenderer.WavRecorder.sampleAt buffer c i)))
    (seq channel count).

Definition wavSamples (buffer : MeetingsRenderer.WavRecorder.AudioBuffer)
    (i count : nat) : list Z :=
  flat_map
    (frameBytes buffer 0 (MeetingsRenderer.WavRecorder.numberOfChannels buffer))
    (seq i count).

(** Reading the file back, as a DataView with [littleEndian = true] does. *)
Definition getUint8 (view : list Z) (byteOffset : nat) : Z := nth byteOffset view 0.
Definition getUint16 (view : list Z) (byteOffset : nat) : Z :=
  getUint8 view byteOffset + 256 * getUint8 view (byteOffset + 1).
Definition getUint32 (view : list Z) (byteOffset : nat) : Z :=
  getUint16 view byteOffset + 65536 * getUint16 view (byteOffset + 2).
Definition getInt16 (view : list Z) (byteOffset : nat) : Z :=
  let u := getUint16 view byteOffset in
  if u <? 32768 then u else u - 65536.

Definition isByte (b : Z) : Prop := 0 <= b < 256.

(** Two frames of stereo with a full-scale, a half-scale, a NaN and an
    infinite sample. *)
Definition twoFrames : MeetingsRenderer.WavRecorder.AudioBuffer :=
  MeetingsRenderer.WavRecorder.mkAudioBuffer 2 48000
    [[MeetingsRenderer.WavRecorder.Finite 1%Q;
      MeetingsRenderer.WavRecorder.Finite (-1 # 2)%Q];
     [MeetingsRenderer.WavRecorder.NotANumber;
      MeetingsRenderer.WavRecorder.PlusInfinity]].

(** ** The log only grows *)

Lemma countOf_app (p : Event -> bool) (a b : Log) :
  countOf p (a ++ b)%list = (countOf p a + countOf p b)%nat.
Proof. unfold countOf. now rewrite filter_app, length_app. Qed.

Section Adds.

Variable p : Event -> bool.

Lemma adds_ret {A} (a : A) : adds p 0 (ret a).
Proof. intro l. exists []. split; [reflexivity | apply Nat.le_refl]. Qed.

Lemma adds_throw {A} (e : JsError) : adds p 0 (@throw Log A e).
Proof. intro l. exists []. split; [reflexivity | apply Nat.le_refl]. Qed.

Lemma adds_le {A} (m : M Log A) (n n' : nat) :
  adds p n m -> (n <= n')%nat -> adds p n' m.
Proof.
  intros H Hle l. destruct (H l) as [added [E C]].
  exists added. split; [exact E | lia].
Qed.

Lemma adds_emit (e : Event) : adds p (if p e then 1 else 0) (emit e).
Proof.
  intro l. exists [e]. split; [reflexivity |].
  unfold countOf. simpl. destruct (p e); simpl; lia.
Qed.

Lemma adds_bind {A B} (m : M Log A) (k : A -> M Log B) (n1 n2 : nat) :
  adds p n1 m -> (forall a, adds p n2 (k a)) -> adds p (n1 + n2) (bind m k).
Proof.
  intros Hm Hk l. unfold bind.
  destruct (Hm l) as [a1 [E1 C1]].
  destruct (m l) as [[a | e] l1]; simpl in E1; subst l1.
  - destruct (Hk a (a1 ++ l)%list) as [a2 [E2 C2]].
    exists (a2 ++ a1)%list. split.
    + now rewrite E2, app_assoc.
    + rewrite countOf_app. lia.
  - exists a1. split; [reflexivity | lia].
Qed.

Lemma adds_tryCatch {A} (body : M Log A) (handler : JsError -> M Log A) (n1 n2 : nat) :
  adds p n1 body -> (forall e, adds p n2 (handler e)) ->
  adds p (n1 + n2) (tryCatch body handler).
Proof.
  intros Hm Hk l. unfold tryCatch.
  destruct (Hm l) as [a1 [E1 C1]].
  destruct (body l) as [[a | e] l1]; simpl in E1; subst l1.
  - exists a1. split; [reflexivity | lia].
  - destruct (Hk e (a1 ++ l)%list) as [a2 [E2 C2]].
    exists (a2 ++ a1)%list. split.
    + now rewrite E2, app_assoc.
    + rewrite countOf_app. lia.
Qed.

Lemma adds_get_bind {A} (k : Log -> M Log A) (n : nat) :
  (forall l, adds p n (k l)) -> adds p n (bind get k).
Proof. intros H l. unfold bind, get. apply H. Qed.

Lemma adds_when (c : bool) (m : M Log unit) (n : nat) :
  adds p n m -> adds p n (when c m).
Proof.
  intro H. destruct c; simpl; [exact H |].
  apply adds_le with (n := 0%nat); [apply adds_ret | lia].
Qed.

Lemma adds_count {A} (m : M Log A) (n : nat) (l : Log) :
  adds p n m ->
  (countOf p l <= countOf p (snd (m l)) <= countOf p l + n)%nat.
Proof.
  intro H. destruct (H l) as [added [E C]]. rewrite E, countOf_app. lia.
Qed.

(** *** The enable sub-step *)

Hypothesis sleeps_apart : forall ms, p (Sleep ms) = false.
Hypothesis enables_apart : p EnableCall = false.

Lemma adds_sleep (ms : Z) : adds p 0 (sleep ms).
Proof.
  unfold sleep. generalize (adds_emit (Sleep ms)). now rewrite sleeps_apart.
Qed.

Lemma adds_callEnable (reply : nat -> ApiReply) : adds p 0 (callEnable reply).
Proof.
  unfold callEnable. apply adds_get_bind. intro l0.
  apply (adds_bind _ _ 0 0).
  - generalize (adds_emit EnableCall). now rewrite enables_apart.
  - intros _. destruct (reply _); [apply adds_ret | apply adds_throw].
Qed.

Lemma adds_enableRound (h : Host) (maxRetries retryDelay attempt : Z) :
  adds p 0 (WindowsAudioCapture.enableRound h maxRetries retryDelay attempt).
Proof.
  unfold WindowsAudioCapture.enableRound, WindowsAudioCapture.validateLoopbackAudio.
  apply (adds_tryCatch _ _ 0 0).
  - destruct (enableLoopbackAudio h) as [reply |].
    + apply (adds_bind _ _ 0 0); [apply adds_ret | intros ok].
      apply (adds_bind _ _ 0 0);
        [destruct (negb ok); [apply adds_throw | apply adds_ret] | intros _].
      apply (adds_bind _ _ 0 0).
      * apply (adds_bind _ _ 0 0); [apply adds_callEnable | intros; apply adds_ret].
      * intros _. apply (adds_bind _ _ 0 0); [apply adds_sleep | intros; apply adds_ret].
    + apply (adds_bind _ _ 0 0); [apply adds_ret | intros ok].
      apply (adds_bind _ _ 0 0);
        [destruct (negb ok); [apply adds_throw | apply adds_ret] | intros _].
      apply (adds_bind _ _ 0 0); [apply adds_throw | intros _].
      apply (adds_bind _ _ 0 0); [apply adds_sleep | intros; apply adds_ret].
  - intro e. apply (adds_bind _ _ 0 0).
    + apply adds_when, adds_sleep.
    + intros; apply adds_ret.
Qed.

Lemma adds_enableRounds (h : Host) (maxRetries retryDelay : Z) (rounds : nat) :
  forall attempt lastError,
    adds p 0 (WindowsAudioCapture.enableRounds h maxRetries retryDelay rounds attempt lastError).
Proof.
  induction rounds as [| rounds IH]; intros attempt lastError; simpl.
  - apply adds_ret.
  - apply (adds_bind _ _ 0 0); [apply adds_enableRound |].
    intros [a | error]; [apply adds_ret | apply IH].
Qed.

Lemma adds_enableLoopbackAudioWithRetry (h : Host) (maxRetries retryDelay : Z) :
  adds p 0 (WindowsAudioCapture.enableLoopbackAudioWithRetry h maxRetries retryDelay).
Proof.
  unfold WindowsAudioCapture.enableLoopbackAudioWithRetry.
  apply (adds_bind _ _ 0 0); [apply adds_enableRounds |].
  intros [a | lastError]; [apply adds_ret | apply adds_throw].
Qed.

(** *** The capture loop: each round adds at most one capture call *)

Variable perCapture : nat.
Hypothesis capture_weight :
  forall opts, ((if p (GetDisplayMediaCall opts) then 1 else 0) <= perCapture)%nat.

Lemma adds_callGetDisplayMedia gdm opts : adds p perCapture (callGetDisplayMedia gdm opts).
Proof.
  unfold callGetDisplayMedia. apply adds_get_bind. intro l0.
  apply adds_le with (n := (perCapture + 0)%nat); [| lia].
  apply adds_bind.
  - eapply adds_le; [apply adds_emit | apply capture_weight].
  - intros _. destruct (gdm _); [apply adds_throw | apply adds_ret].
Qed.

Lemma adds_onCaptureError (maxRetries retryDelay attempt : Z) (error : JsError) :
  adds p 0 (WindowsAudioCapture.onCaptureError maxRetries retryDelay attempt error).
Proof.
  unfold WindowsAudioCapture.onCaptureError.
  destruct (WindowsAudioCapture.isNotSupported error); apply adds_when, adds_sleep.
Qed.

Lemma adds_captureRound h gdm options (maxRetries retryDelay attempt : Z) :
  adds p perCapture
       (WindowsAudioCapture.captureRound h gdm options maxRetries retryDelay attempt).
Proof.
  unfold WindowsAudioCapture.captureRound.
  apply adds_le with (n := (perCapture + 0)%nat); [| lia].
  apply adds_tryCatch.
  - apply (adds_bind _ _ 0 perCapture); [apply adds_enableLoopbackAudioWithRetry | intros _].
    apply adds_le with (n := (perCapture + 0)%nat); [| lia].
    apply adds_bind; [apply adds_callGetDisplayMedia | intros; apply adds_ret].
  - intro e. apply (adds_bind _ _ 0 0); [apply adds_onCaptureError | intros; apply adds_ret].
Qed.

Lemma adds_captureRounds h gdm options (maxRetries retryDelay : Z) (rounds : nat) :
  forall attempt lastError,
    adds p (rounds * perCapture)
         (WindowsAudioCapture.captureRounds h gdm options maxRetries retryDelay
            rounds attempt lastError).
Proof.
  induction rounds as [| rounds IH]; intros attempt lastError; simpl.
  - apply adds_ret.
  - apply adds_bind; [apply adds_captureRound |].
    intros [a | error]; [eapply adds_le; [apply adds_ret | lia] | apply IH].
Qed.

Lemma adds_captureSystemAudioWindows h options (maxRetries retryDelay : Z) :
  adds p (Z.to_nat maxRetries * perCapture)
       (WindowsAudioCapture.captureSystemAudioWindows h options maxRetries retryDelay).
Proof.
  unfold WindowsAudioCapture.captureSystemAudioWindows.
  destruct (getDisplayMedia h) as [gdm |].
  - apply adds_le with (n := (Z.to_nat maxRetries * perCapture + 0)%nat); [| lia].
    apply adds_bind; [apply adds_captureRounds |].
    intros [a | lastError]; [apply adds_ret | apply adds_throw].
  - eapply adds_le; [apply adds_throw | lia].
Qed.

End Adds.

(** ** The capture loop *)

Lemma callEnable_run (reply : nat -> ApiReply) (l : Log) :
  callEnable reply l
  = (match reply (countOf isEnable l) with
     | Resolves err => Return err
     | Rejects e => Throw e
     end, EnableCall :: l).
Proof.
  unfold callEnable, bind, get, emit, modify, ret, throw. now destruct (reply _).
Qed.

Lemma callDisable_run (reply : nat -> ApiReply) (l : Log) :
  callDisable reply l
  = (match reply (countOf isDisable l) with
     | Resolves err => Return err
     | Rejects e => Throw e
     end, DisableCall :: l).
Proof.
  unfold callDisable, bind, get, emit, modify, ret, throw. now destruct (reply _).
Qed.

Lemma callGetDisplayMedia_run gdm opts (l : Log) :
  callGetDisplayMedia gdm opts l
  = (match gdm (countOf isCapture l) with
     | inr stream => Return stream
     | inl e => Throw e
     end, GetDisplayMediaCall opts :: l).
Proof.
  unfold callGetDisplayMedia, bind, get, emit, modify, ret, throw. now destruct (gdm _).
Qed.

Lemma adds_stopAndRemove (p : Event -> bool) :
  (forall id, p (TrackStopped id) = false) ->
  forall videoTracks displayStream,
    adds p 0 (WindowsAudioCapture.stopAndRemove videoTracks displayStream).
Proof.
  intros Hp videoTracks.
  induction videoTracks as [| t rest IH]; intro displayStream; simpl.
  - apply adds_ret.
  - apply (adds_bind _ _ _ 0 0); [| intros _; apply IH].
    generalize (adds_emit p (TrackStopped (track_id t))). now rewrite Hp.
Qed.

Lemma disableLoopbackAudioSafe_run (h : Host) (l : Log) :
  WindowsAudioCapture.disableLoopbackAudioSafe h l
  = (Return tt, match disableLoopbackAudio h with
                | Some _ => DisableCall :: DisableSafeCall :: l
                | None => DisableSafeCall :: l
                end).
Proof.
  unfold WindowsAudioCapture.disableLoopbackAudioSafe, callDisable, tryCatch, bind, emit,
    modify, get, ret, throw.
  destruct (disableLoopbackAudio h) as [reply |]; [| reflexivity].
  now destruct (reply _).
Qed.

Lemma captureRound_returns h gdm options (maxRetries retryDelay attempt : Z) (l : Log) :
  exists r, fst (WindowsAudioCapture.captureRound h gdm options maxRetries retryDelay attempt l)
            = Return r.
Proof.
  unfold WindowsAudioCapture.captureRound, tryCatch.
  match goal with |- context [bind ?m ?k l] => destruct (bind m k l) as [[r | e] l1] end.
  - now exists r.
  - exists (NextRound e).
    unfold WindowsAudioCapture.onCaptureError, when, bind, sleep, emit, modify, ret.
    destruct (WindowsAudioCapture.isNotSupported e), (attempt <? maxRetries); reflexivity.
Qed.

Lemma captureRounds_returns h gdm options (maxRetries retryDelay : Z) (rounds : nat) :
  forall attempt lastError l,
    exists r, fst (WindowsAudioCapture.captureRounds h gdm options maxRetries retryDelay
                     rounds attempt lastError l) = Return r.
Proof.
  induction rounds as [| rounds IH]; intros attempt lastError l; simpl.
  - now eexists.
  - unfold bind at 1.
    destruct (captureRound_returns h gdm options maxRetries retryDelay attempt l) as [r Hr].
    destruct (WindowsAudioCapture.captureRound _ _ _ _ _ _ l) as [o l1].
    simpl in Hr; subst o.
    destruct r as [stream | error]; [now eexists | apply IH].
Qed.

(** When the loop runs out, the error it remembers is the one its last
    round ended with, and nothing happened after that round. *)
Lemma captureRounds_exhausted h gdm options (maxRetries retryDelay : Z) (rounds : nat) :
  forall attempt lastError l remembered l',
    WindowsAudioCapture.captureRounds h gdm options maxRetries retryDelay
      rounds attempt lastError l = (Return (LoopExhausted remembered), l') ->
    (rounds = O /\ remembered = lastError /\ l' = l)
    \/ exists n error before,
         rounds = S n
         /\ WindowsAudioCapture.captureRound h gdm options maxRetries retryDelay
              (attempt + Z.of_nat n) before = (Return (NextRound error), l')
         /\ remembered = Some error.
Proof.
  induction rounds as [| rounds IH]; intros attempt lastError l remembered l' H; simpl in H.
  - left. unfold ret in H. inversion H. auto.
  - right. unfold bind at 1 in H.
    destruct (WindowsAudioCapture.captureRound h gdm options maxRetries retryDelay attempt l)
      as [[[stream | error] | e] l1] eqn:R; try discriminate H.
    destruct (IH _ _ _ _ _ H) as [[E0 [Er El]] | [n [error' [before [En [Hr Er]]]]]].
    + subst. exists O, error, l. rewrite Z.add_0_r. auto.
    + subst. exists (S n), error', before. repeat split; auto.
      replace (attempt + Z.of_nat (S n)) with (attempt + 1 + Z.of_nat n) by lia.
      exact Hr.
Qed.

(** A round that returns a stream got it from [getDisplayMedia]. *)
Lemma captureRound_returned h gdm options (maxRetries retryDelay attempt : Z) (l l' : Log)
    (stream : MediaStream) :
  WindowsAudioCapture.captureRound h gdm options maxRetries retryDelay attempt l
    = (Return (Returned stream), l') ->
  exists n, gdm n = inr stream.
Proof.
  unfold WindowsAudioCapture.captureRound, tryCatch, bind at 1.
  destruct (WindowsAudioCapture.enableLoopbackAudioWithRetry h 2 retryDelay l) as [[u | e] l1].
  - unfold bind. rewrite callGetDisplayMedia_run.
    destruct (gdm (countOf isCapture l1)) as [e | s] eqn:G.
    + destruct (WindowsAudioCapture.onCaptureError maxRetries retryDelay attempt e _)
        as [[u' | e'] l2]; intro H; discriminate H.
    + unfold ret. intro H. inversion H; subst. now exists (countOf isCapture l1).
  - unfold bind.
    destruct (WindowsAudioCapture.onCaptureError maxRetries retryDelay attempt e l1)
      as [[u' | e'] l2]; intro H; discriminate H.
Qed.

Lemma captureRounds_returned h gdm options (maxRetries retryDelay : Z) (rounds : nat) :
  forall attempt lastError l stream l',
    WindowsAudioCapture.captureRounds h gdm options maxRetries retryDelay
      rounds attempt lastError l = (Return (LoopReturned stream), l') ->
    exists n, gdm n = inr stream.
Proof.
  induction rounds as [| rounds IH]; intros attempt lastError l stream l' H; simpl in H.
  - discriminate H.
  - unfold bind at 1 in H.
    destruct (WindowsAudioCapture.captureRound h gdm options maxRetries retryDelay attempt l)
      as [[[s | error] | e] l1] eqn:R; try discriminate H.
    + unfold ret in H. inversion H; subst. now apply captureRound_returned in R.
    + now apply IH in H.
Qed.

(** A round of the last attempt that ends in the catch block has observed
    the error it hands on, and does nothing after observing it. *)
Lemma captureRound_last_failure h gdm options (maxRetries retryDelay : Z) (before after : Log)
    (error : JsError) :
  WindowsAudioCapture.captureRound h gdm options maxRetries retryDelay maxRetries before
    = (Return (NextRound error), after) ->
  attemptFailsWith h gdm options retryDelay before error after.
Proof.
  unfold WindowsAudioCapture.captureRound, tryCatch, bind at 1, attemptFailsWith.
  destruct (WindowsAudioCapture.enableLoopbackAudioWithRetry h 2 retryDelay before)
    as [[[] | e] enabled].
  - unfold bind at 1. rewrite callGetDisplayMedia_run.
    destruct (gdm (countOf isCapture enabled)) as [e | stream] eqn:G.
    + unfold WindowsAudioCapture.onCaptureError, when, bind, ret.
      rewrite Z.ltb_irrefl.
      destruct (WindowsAudioCapture.isNotSupported e); intro H; inversion H; subst;
        right; exists enabled; auto.
    + unfold ret. intro H. discriminate H.
  - unfold WindowsAudioCapture.onCaptureError, when, bind, ret.
    rewrite Z.ltb_irrefl.
    destruct (WindowsAudioCapture.isNotSupported e); intro H; inversion H; subst;
      now left.
Qed.

(** C5 -- One run of [captureSystemAudioWindows] adds at most [maxRetries]
    calls of [getDisplayMedia].  It returns a stream only if some
    [getDisplayMedia] call produced it, so when every call fails it throws.
    When it throws after the loop, the last attempt observed an error
    [lastError] (thrown by the enable sub-step, or the rejection of that
    attempt's [getDisplayMedia] call), nothing happened after it, and the
    error thrown is a single [Error] built from [lastError]: the
    troubleshooting text when the name of [lastError] is
    [NotSupportedError], the generic "Failed to capture system audio after
    N attempts: <message>" otherwise. *)
Theorem capture_attempts_bounded_and_exhaustion_reported :
  forall h gdm options (maxRetries retryDelay : Z) (l : Log),
    getDisplayMedia h = Some gdm ->
    1 <= maxRetries ->
    let run := WindowsAudioCapture.captureSystemAudioWindows h options maxRetries retryDelay l in
    (countOf isCapture (snd run) <= countOf isCapture l + Z.to_nat maxRetries)%nat
    /\ (forall e, fst run = Throw e ->
         exists lastError before,
           attemptFailsWith h gdm options retryDelay before lastError (snd run)
           /\ e = newError
                    (if String.eqb (name lastError) "NotSupportedError"
                     then WindowsAudioCapture.notSupportedHelp
                     else "Failed to capture system audio after " ++ showZ maxRetries
                          ++ " attempts: " ++ messageOrUnknown (Some lastError)))
    /\ (forall stream, fst run = Return stream -> exists n, gdm n = inr stream)
    /\ ((forall n stream, gdm n <> inr stream) -> exists e, fst run = Throw e).
Proof.
  intros h gdm options maxRetries retryDelay l Hgdm Hmax run.
  assert (Hreturned : forall stream, fst run = Return stream -> exists n, gdm n = inr stream).
  { intros stream Hs. subst run.
    unfold WindowsAudioCapture.captureSystemAudioWindows in Hs.
    rewrite Hgdm in Hs. unfold bind in Hs.
    destruct (WindowsAudioCapture.captureRounds h gdm options maxRetries retryDelay
                (Z.to_nat maxRetries) 1 None l) as [[[s | remembered] | e] l1] eqn:Rounds;
      try discriminate Hs.
    simpl in Hs. inversion Hs; subst.
    now apply captureRounds_returned in Rounds. }
  split; [| split; [| split]].
  - generalize (adds_count isCapture
                  (WindowsAudioCapture.captureSystemAudioWindows h options maxRetries retryDelay)
                  (Z.to_nat maxRetries * 1) l).
    intro H. subst run.
    assert (Hadds : adds isCapture (Z.to_nat maxRetries * 1)
              (WindowsAudioCapture.captureSystemAudioWindows h options maxRetries retryDelay)).
    { apply adds_captureSystemAudioWindows; try reflexivity. }
    specialize (H Hadds). lia.
  - intros e He. subst run.
    unfold WindowsAudioCapture.captureSystemAudioWindows in *.
    rewrite Hgdm in *. unfold bind in *.
    destruct (captureRounds_returns h gdm options maxRetries retryDelay
                (Z.to_nat maxRetries) 1 None l) as [r Hr].
    destruct (WindowsAudioCapture.captureRounds h gdm options maxRetries retryDelay
                (Z.to_nat maxRetries) 1 None l) as [o l1] eqn:Rounds.
    simpl in Hr; subst o.
    destruct r as [stream | remembered]; simpl in He; [discriminate He |].
    destruct (captureRounds_exhausted _ _ _ _ _ _ _ _ _ _ _ Rounds)
      as [[E0 _] | [n [error [before [En [Hround Er]]]]]]; [lia |].
    exists error, before. simpl. split.
    + assert (Elast : 1 + Z.of_nat n = maxRetries) by lia.
      rewrite Elast in Hround. now apply captureRound_last_failure in Hround.
    + inversion He. subst remembered.
      unfold WindowsAudioCapture.exhaustedMessage. reflexivity.
  - exact Hreturned.
  - intro Hnever. destruct (fst run) as [stream | e] eqn:R; [| now exists e].
    destruct (Hreturned stream eq_refl) as [n Hn]. now destruct (Hnever n stream).
Qed.

Lemma capture_attempts_bounded_and_exhaustion_reported_witness :
  let error := mkJsError "NotSupportedError" "Not supported" in
  let run := WindowsAudioCapture.captureSystemAudioWindows
               (windowsFailingWith error) defaultOptions 3 500 [] in
  (countOf isCapture (snd run) <= countOf isCapture [] + Z.to_nat 3)%nat
  /\ (forall e, fst run = Throw e ->
       exists lastError before,
         attemptFailsWith (windowsFailingWith error) (fun _ => inl error) defaultOptions 500
           before lastError (snd run)
         /\ e = newError
                  (if String.eqb (name lastError) "NotSupportedError"
                   then WindowsAudioCapture.notSupportedHelp
                   else "Failed to capture system audio after " ++ showZ 3
                        ++ " attempts: " ++ messageOrUnknown (Some lastError)))
  /\ (forall stream, fst run = Return stream ->
       exists n, (fun _ : nat => @inl JsError MediaStream error) n = inr stream)
  /\ ((forall n stream, (fun _ : nat => @inl JsError MediaStream error) n <> inr stream) ->
      exists e, fst run = Throw e).
Proof.
  intros error run.
  apply (capture_attempts_bounded_and_exhaustion_reported
           (windowsFailingWith error) (fun _ => inl error) defaultOptions 3 500 []).
  - reflexivity.
  - lia.
Defined.

(** The claim as written fails for the class the catch block tests (the
    name, or a message that contains "Not supported"): an error that is
    in that class through its message alone gets the longer wait of the
    class and the generic text. *)
Lemma exhaustion_message_ignores_message_class :
  WindowsAudioCapture.isNotSupported (newError "Not supported") = true
  /\ sleeps (snd (WindowsAudioCapture.captureSystemAudioWindows
                    (windowsFailingWith (newError "Not supported")) defaultOptions 3 500 []))
     = [500; 1000; 500; 1000; 500]
  /\ fst (WindowsAudioCapture.captureSystemAudioWindows
            (windowsFailingWith (newError "Not supported")) defaultOptions 3 500 [])
     = Throw (newError "Failed to capture system audio after 3 attempts: Not supported")
  /\ ~ messageFollowsClass WindowsAudioCapture.isNotSupported.
Proof.
  split; [reflexivity |]. split; [vm_compute; reflexivity |].
  split; [vm_compute; reflexivity |].
  intro H. specialize (H (newError "Not supported")).
  vm_compute in H. discriminate H.
Qed.

(** With the test the code makes after the loop, the name alone, the same
    statement holds. *)
Lemma exhaustion_message_follows_name :
  messageFollowsClass (fun error => String.eqb (name error) "NotSupportedError").
Proof.
  intro error.
  unfold WindowsAudioCapture.captureSystemAudioWindows. 
  change (getDisplayMedia (windowsFailingWith error)) with (Some (fun _ : nat => @inl JsError MediaStream error)).
  cbv iota beta.
  unfold bind at 1.
  assert (R : forall attempt l, exists l', WindowsAudioCapture.captureRound (windowsFailingWith error) (fun _ => inl error) defaultOptions 3 500 attempt l = (Return (NextRound error), l')).
  { intros attempt l. unfold WindowsAudioCapture.captureRound, tryCatch, bind at 1.
    unfold WindowsAudioCapture.enableLoopbackAudioWithRetry. 
    unfold bind at 1. simpl WindowsAudioCapture.enableRounds.
    unfold bind at 1. unfold WindowsAudioCapture.enableRound at 1. 
    unfold WindowsAudioCapture.validateLoopbackAudio. simpl.
    unfold callEnable, callGetDisplayMedia, sleep, emit, modify, get, when, tryCatch, bind, ret, throw. simpl.
    unfold WindowsAudioCapture.onCaptureError, when, bind, sleep, emit, modify, ret.
    destruct (WindowsAudioCapture.isNotSupported error), (attempt <? 3); eexists; reflexivity. }
  change (Z.to_nat 3) with 3%nat. cbn [WindowsAudioCapture.captureRounds].
  unfold bind at 1. destruct (R 1 []) as [l1 E1]. rewrite E1.
  unfold bind at 1. destruct (R (1+1) l1) as [l2 E2]. rewrite E2.
  unfold bind at 1. destruct (R (1+1+1) l2) as [l3 E3]. rewrite E3.
  unfold ret, throw. cbn [fst]. unfold WindowsAudioCapture.exhaustedMessage.
  destruct (String.eqb (name error) "NotSupportedError"); reflexivity.
Qed.

(** ** Where the intercept is switched off *)

Lemma adds_capture_default (p : Event -> bool) h options :
  (forall ms, p (Sleep ms) = false) -> p EnableCall = false ->
  (forall opts, p (GetDisplayMediaCall opts) = false) ->
  adds p 0 (WindowsAudioCapture.captureSystemAudioWindows h options 3 500).
Proof.
  intros Hs He Hc.
  apply adds_le with (n := (Z.to_nat 3 * 0)%nat); [| simpl; lia].
  apply adds_captureSystemAudioWindows; auto.
  intro opts. now rewrite Hc.
Qed.

Lemma stopAndRemove_returns (videoTracks : list Track) :
  forall displayStream l,
    exists stream l',
      WindowsAudioCapture.stopAndRemove videoTracks displayStream l = (Return stream, l').
Proof.
  induction videoTracks as [| t rest IH]; intros displayStream l; simpl.
  - now exists displayStream, l.
  - unfold bind, emit, modify. simpl. apply IH.
Qed.

Lemma stopAll_returns (tracks : list Track) :
  forall l, exists l', WindowsAudioCapture.stopAll tracks l = (Return tt, l').
Proof.
  induction tracks as [| t rest IH]; intro l; simpl.
  - now exists l.
  - unfold bind, emit, modify. simpl. apply IH.
Qed.

Lemma cleanupAndRethrow_throws h displayStream error (l : Log) :
  exists l', WindowsAudioCapture.cleanupAndRethrow h displayStream error l = (Throw error, l').
Proof.
  unfold WindowsAudioCapture.cleanupAndRethrow, bind.
  destruct displayStream as [stream |].
  - destruct (stopAll_returns (getTracks stream) l) as [l1 E]. rewrite E.
    rewrite disableLoopbackAudioSafe_run. eexists. reflexivity.
  - unfold ret. rewrite disableLoopbackAudioSafe_run. eexists. reflexivity.
Qed.

(** A run that hands back a stream has not called
    [disableLoopbackAudioSafe] at all. *)
Lemma capture_success_leaves_intercept_on :
  forall h options l stream l',
    WindowsAudioCapture.captureWindowsSystemAudio h options l = (Return stream, l') ->
    countOf isDisableSafe l' = countOf isDisableSafe l
    /\ countOf isDisable l' = countOf isDisable l.
Proof.
  intros h options l stream l' H.
  unfold WindowsAudioCapture.captureWindowsSystemAudio in H.
  destruct (negb (WindowsAudioCapture.isWindows h)); [discriminate H |].
  unfold tryAssignCatch, tryCatch in H.
  pose proof (adds_count isDisableSafe _ 0 l
                (adds_capture_default isDisableSafe h options
                   (fun _ => eq_refl) eq_refl (fun _ => eq_refl))) as HS.
  pose proof (adds_count isDisable _ 0 l
                (adds_capture_default isDisable h options
                   (fun _ => eq_refl) eq_refl (fun _ => eq_refl))) as HD.
  destruct (WindowsAudioCapture.captureSystemAudioWindows h options 3 500 l)
    as [[displayStream | e] l1].
  - pose proof (adds_count isDisableSafe _ 0 l1
                  (adds_stopAndRemove isDisableSafe (fun _ => eq_refl)
                     (getVideoTracks displayStream) displayStream)) as HS'.
    pose proof (adds_count isDisable _ 0 l1
                  (adds_stopAndRemove isDisable (fun _ => eq_refl)
                     (getVideoTracks displayStream) displayStream)) as HD'.
    destruct (WindowsAudioCapture.stopAndRemove (getVideoTracks displayStream) displayStream l1)
      as [[a | e] l2].
    + inversion H; subst. simpl in *. lia.
    + destruct (cleanupAndRethrow_throws h (Some displayStream) e l2) as [l3 E].
      rewrite E in H. discriminate H.
  - destruct (cleanupAndRethrow_throws h None e l1) as [l3 E].
    rewrite E in H. discriminate H.
Qed.

(** A run that throws from inside the [try] has called it exactly once,
    as its last act. *)
Lemma capture_failure_disables_once :
  forall h options l e l',
    WindowsAudioCapture.isWindows h = true ->
    WindowsAudioCapture.captureWindowsSystemAudio h options l = (Throw e, l') ->
    countOf isDisableSafe l' = S (countOf isDisableSafe l)
    /\ exists before,
         countOf isDisableSafe before = countOf isDisableSafe l
         /\ l' = match disableLoopbackAudio h with
                 | Some _ => DisableCall :: DisableSafeCall :: before
                 | None => DisableSafeCall :: before
                 end.
Proof.
  intros h options l e l' Hwin H.
  unfold WindowsAudioCapture.captureWindowsSystemAudio in H.
  rewrite Hwin in H. simpl in H. unfold tryAssignCatch, tryCatch in H.
  pose proof (adds_count isDisableSafe _ 0 l
                (adds_capture_default isDisableSafe h options
                   (fun _ => eq_refl) eq_refl (fun _ => eq_refl))) as HS.
  destruct (WindowsAudioCapture.captureSystemAudioWindows h options 3 500 l)
    as [[displayStream | e1] l1].
  - destruct (stopAndRemove_returns (getVideoTracks displayStream) displayStream l1)
      as [stream [l2 E]].
    rewrite E in H. discriminate H.
  - unfold WindowsAudioCapture.cleanupAndRethrow, bind, ret in H.
    rewrite disableLoopbackAudioSafe_run in H.
    unfold throw in H. inversion H; subst. simpl in HS.
    split.
    + destruct (disableLoopbackAudio h); unfold countOf in *; simpl; lia.
    + exists l1. split; [lia | reflexivity].
Qed.

(** C1 -- On the success path the code does not pair the enable with a
    disable: with every API present and the first capture succeeding,
    [captureWindowsSystemAudio] (also when entered through the renderer's
    [captureSystemAudio]) returns the stream after one enable call and no
    call of [disableLoopbackAudioSafe] or [disableLoopbackAudio]. *)
Theorem capture_success_never_disables_here :
  exists stream l,
    WindowsAudioCapture.captureWindowsSystemAudio workingWindows defaultOptions []
      = (Return stream, l)
    /\ MeetingsRenderer.captureSystemAudio workingWindows [] = (Return stream, l)
    /\ countOf isEnable l = 1%nat
    /\ countOf isDisableSafe l = 0%nat
    /\ countOf isDisable l = 0%nat.
Proof. do 2 eexists. repeat split; vm_compute; reflexivity. Qed.

(** Entered through the renderer, a failed capture is followed by two
    calls of [disableLoopbackAudioSafe]: the helper's catch block and the
    renderer's. *)
Example renderer_failure_disables_twice :
  countOf isDisableSafe
    (snd (MeetingsRenderer.captureSystemAudio
            (windowsFailingWith (mkJsError "NotAllowedError" "Permission denied")) []))
  = 2%nat.
Proof. vm_compute. reflexivity. Qed.

(** ** A missing enable function *)

(** C3, as the code has it -- When [enableLoopbackAudio] is undefined on a
    Windows renderer that has [getDisplayMedia], the capture call goes
    through all three outer attempts of two enable rounds each, waiting
    five times 500 ms, before it throws "Failed to capture system audio
    after 3 attempts: Failed to enable loopback audio after 2 attempts:
    Loopback audio API not available"; it calls neither [getDisplayMedia]
    nor the enable function, and [disableLoopbackAudioSafe] once. *)
Theorem missing_loopback_api_exhausts_retries :
  forall h gdm options,
    enableLoopbackAudio h = None ->
    WindowsAudioCapture.isWindows h = true ->
    getDisplayMedia h = Some gdm ->
    exists l,
      WindowsAudioCapture.captureWindowsSystemAudio h options []
        = (Throw (newError loopbackMissingMessage), l)
      /\ countOf isCapture l = 0%nat
      /\ countOf isEnable l = 0%nat
      /\ sleeps l = [500; 500; 500; 500; 500]
      /\ countOf isDisableSafe l = 1%nat.
Proof.
  intros h gdm options Hen Hwin Hgdm.
  unfold WindowsAudioCapture.captureWindowsSystemAudio.
  rewrite Hwin. simpl negb. cbv iota.
  destruct h as [plat en dis g loaded]. simpl in Hen, Hgdm. subst en g. clear Hwin.
  destruct dis as [reply |].
  - destruct (reply 0%nat) eqn:R; eexists; repeat split;
      try (vm_compute; rewrite ?R; reflexivity).
  - eexists; repeat split; vm_compute; reflexivity.
Qed.

Lemma missing_loopback_api_exhausts_retries_witness :
  exists l,
    WindowsAudioCapture.captureWindowsSystemAudio windowsWithoutLoopback defaultOptions []
      = (Throw (newError loopbackMissingMessage), l)
    /\ countOf isCapture l = 0%nat
    /\ countOf isEnable l = 0%nat
    /\ sleeps l = [500; 500; 500; 500; 500]
    /\ countOf isDisableSafe l = 1%nat.
Proof.
  apply (missing_loopback_api_exhausts_retries
           windowsWithoutLoopback (fun _ => inr screenAndSound) defaultOptions);
    reflexivity.
Defined.

(** The claim as written fails: without the enable function the call does
    not fail at once, it waits. *)
Lemma missing_loopback_api_is_retried :
  enableLoopbackAudio windowsWithoutLoopback = None
  /\ ~ failsAtOnce windowsWithoutLoopback defaultOptions.
Proof.
  split; [reflexivity |].
  intros [e [l [Hrun [_ Hsleeps]]]].
  vm_compute in Hrun. inversion Hrun; subst l. vm_compute in Hsleeps. discriminate Hsleeps.
Qed.

(** The renderer takes the Windows path exactly when the helper's own
    platform test says Windows. *)
Lemma detectPlatform_windows (h : Host) :
  MeetingsRenderer.detectPlatform h = "windows" <-> WindowsAudioCapture.isWindows h = true.
Proof.
  unfold MeetingsRenderer.detectPlatform, WindowsAudioCapture.isWindows.
  destruct (navigator_platform h) as [p |]; [| split; discriminate].
  destruct (String.eqb p ""); [split; discriminate |].
  destruct (includes "win" (toLowerCase p)); [split; reflexivity |].
  destruct (includes "mac" (toLowerCase p)); split; discriminate.
Qed.

(** On the macOS/Linux path the missing function is called unguarded: a
    TypeError at once, before any capture call or wait. *)
Example mac_without_loopback_throws_at_once :
  MeetingsRenderer.captureSystemAudio
    (mkHost (Some "MacIntel") None None (Some (fun _ => inr screenAndSound)) true) []
  = (Throw (newTypeError "window.electronAPI.enableLoopbackAudio is not a function"), []).
Proof. reflexivity. Qed.

(** ** Waits between capture attempts *)

(** C4, as the code has it -- While another attempt follows
    ([attempt < maxRetries]) the catch block waits [retryDelay] after a
    generic failure, whatever the attempt number; after a not-supported
    failure it waits [retryDelay * 2] in public/windowsAudioCapture.js and
    [attempt * 1000] in the earlier revision. *)
Theorem capture_backoff_per_class :
  forall (maxRetries retryDelay attempt : Z) (error : JsError) (l : Log),
    attempt < maxRetries ->
    WindowsAudioCapture.onCaptureError maxRetries retryDelay attempt error l
      = (Return tt,
         Sleep (if WindowsAudioCapture.isNotSupported error
                then retryDelay * 2 else retryDelay) :: l)
    /\ WindowsAudioCaptureEarlier.onCaptureError maxRetries retryDelay attempt error l
      = (Return tt,
         Sleep (if WindowsAudioCaptureEarlier.isNotSupported error
                then attempt * 1000 else retryDelay) :: l).
Proof.
  intros maxRetries retryDelay attempt error l Hlt.
  apply Z.ltb_lt in Hlt.
  unfold WindowsAudioCapture.onCaptureError, WindowsAudioCaptureEarlier.onCaptureError.
  rewrite Hlt.
  split.
  - now destruct (WindowsAudioCapture.isNotSupported error).
  - now destruct (WindowsAudioCaptureEarlier.isNotSupported error).
Qed.

Lemma capture_backoff_per_class_witness :
  WindowsAudioCapture.onCaptureError 3 500 2 (newError "Permission denied") []
    = (Return tt,
       [Sleep (if WindowsAudioCapture.isNotSupported (newError "Permission denied")
               then 500 * 2 else 500)])
  /\ WindowsAudioCaptureEarlier.onCaptureError 3 500 2 (newError "Permission denied") []
    = (Return tt,
       [Sleep (if WindowsAudioCaptureEarlier.isNotSupported (newError "Permission denied")
               then 2 * 1000 else 500)]).
Proof.
  apply (capture_backoff_per_class 3 500 2 (newError "Permission denied") []). lia.
Defined.

(** After the last attempt neither revision waits. *)
Lemma capture_backoff_none_after_last :
  forall (maxRetries retryDelay attempt : Z) (error : JsError) (l : Log),
    maxRetries <= attempt ->
    WindowsAudioCapture.onCaptureError maxRetries retryDelay attempt error l = (Return tt, l)
    /\ WindowsAudioCaptureEarlier.onCaptureError maxRetries retryDelay attempt error l
       = (Return tt, l).
Proof.
  intros maxRetries retryDelay attempt error l Hge.
  apply Z.ltb_ge in Hge.
  unfold WindowsAudioCapture.onCaptureError, WindowsAudioCaptureEarlier.onCaptureError.
  rewrite Hge.
  split.
  - now destruct (WindowsAudioCapture.isNotSupported error).
  - now destruct (WindowsAudioCaptureEarlier.isNotSupported error).
Qed.

(** The claim as written fails in both revisions: at attempt 2 of 3 with
    [retryDelay = 500] a generic failure is followed by 500 ms, not 1000. *)
Lemma capture_backoff_is_not_linear :
  ~ linearBackoff WindowsAudioCapture.isNotSupported WindowsAudioCapture.onCaptureError
  /\ ~ linearBackoff WindowsAudioCaptureEarlier.isNotSupported
         WindowsAudioCaptureEarlier.onCaptureError.
Proof.
  split; intro H;
    specialize (H 3 500 2 (newError "Permission denied") ltac:(lia));
    vm_compute in H; discriminate H.
Qed.

(** A whole run on a host whose capture always reports
    [NotSupportedError]: activation wait, capture, backoff, three times
    over without a backoff after the last. *)
Example not_supported_run_waits :
  sleeps (snd (WindowsAudioCapture.captureWindowsSystemAudio
                 (windowsFailingWith (mkJsError "NotSupportedError" "Not supported"))
                 defaultOptions []))
  = [500; 1000; 500; 1000; 500].
Proof. vm_compute. reflexivity. Qed.

Example generic_run_waits :
  sleeps (snd (WindowsAudioCapture.captureWindowsSystemAudio
                 (windowsFailingWith (mkJsError "NotAllowedError" "Permission denied"))
                 defaultOptions []))
  = [500; 500; 500; 500; 500].
Proof. vm_compute. reflexivity. Qed.

(** The two tests of the error class disagree on an error that only
    mentions "Not supported" in its message: it gets the longer wait and
    the generic final message. *)
Example message_only_not_supported :
  let error := newError "Not supported" in
  WindowsAudioCapture.isNotSupported error = true
  /\ WindowsAudioCapture.exhaustedMessage 3 (Some error)
     = "Failed to capture system audio after 3 attempts: Not supported".
Proof. split; vm_compute; reflexivity. Qed.

(** ** Video tracks of the returned stream *)

Lemma stopTrack_origin (id : nat) (ms : MediaStream) (t : Track) :
  In t (stopTrack id ms) ->
  exists t0, In t0 ms /\ track_id t0 = track_id t /\ kind t0 = kind t.
Proof.
  unfold stopTrack. rewrite in_map_iff. intros [t0 [E Hin]].
  exists t0. split; [exact Hin |].
  destruct (Nat.eqb (track_id t0) id); subst t; simpl; auto.
Qed.

(** What [stopAndRemove] hands back holds only tracks of the stream it was
    given, and none of those it was told to remove. *)
Lemma stopAndRemove_result (videoTracks : list Track) :
  forall displayStream l stream l',
    WindowsAudioCapture.stopAndRemove videoTracks displayStream l = (Return stream, l') ->
    forall t, In t stream ->
      (exists t0, In t0 displayStream /\ track_id t0 = track_id t /\ kind t0 = kind t)
      /\ ~ In (track_id t) (map track_id videoTracks).
Proof.
  induction videoTracks as [| v rest IH]; intros displayStream l stream l' H t Hin; simpl in H.
  - inversion H; subst. split; [exists t; auto | intros []].
  - unfold bind, emit, modify in H. simpl in H.
    destruct (IH _ _ _ _ H t Hin) as [[t1 [Hin1 [Eid Ekind]]] Hrest].
    unfold removeTrack in Hin1. apply filter_In in Hin1. destruct Hin1 as [Hin1 Hne].
    apply negb_true_iff, Nat.eqb_neq in Hne.
    destruct (stopTrack_origin _ _ _ Hin1) as [t0 [Hin0 [Eid0 Ekind0]]].
    split.
    + exists t0. repeat split; congruence.
    + simpl. intros [E | Hin']; [congruence | auto].
Qed.

(** The Windows path does what the claim says: the stream it returns has
    no video track. *)
Lemma windows_capture_returns_no_video :
  forall h options l stream l',
    WindowsAudioCapture.captureWindowsSystemAudio h options l = (Return stream, l') ->
    getVideoTracks stream = [].
Proof.
  intros h options l stream l' H.
  unfold WindowsAudioCapture.captureWindowsSystemAudio in H.
  destruct (negb (WindowsAudioCapture.isWindows h)); [discriminate H |].
  unfold tryAssignCatch, tryCatch in H.
  destruct (WindowsAudioCapture.captureSystemAudioWindows h options 3 500 l)
    as [[displayStream | e] l1].
  - destruct (WindowsAudioCapture.stopAndRemove (getVideoTracks displayStream) displayStream l1)
      as [[a | e] l2] eqn:SR.
    + inversion H; subst.
      unfold getVideoTracks in *.
      destruct (filter isVideo stream) as [| t ts] eqn:F; [reflexivity | exfalso].
      assert (Hin : In t (filter isVideo stream)) by (rewrite F; left; reflexivity).
      apply filter_In in Hin. destruct Hin as [Hin Hvideo].
      destruct (stopAndRemove_result _ _ _ _ _ SR t Hin) as [[t0 [Hin0 [Eid Ekind]]] Hnot].
      apply Hnot. rewrite <- Eid. apply in_map. apply filter_In. split; [exact Hin0 |].
      unfold isVideo in *. now rewrite Ekind.
    + destruct (cleanupAndRethrow_throws h (Some displayStream) e l2) as [l3 E].
      rewrite E in H. discriminate H.
  - destruct (cleanupAndRethrow_throws h None e l1) as [l3 E].
    rewrite E in H. discriminate H.
Qed.

Lemma stopTrack_kinds (id : nat) (ms : MediaStream) :
  map kind (stopTrack id ms) = map kind ms
  /\ map track_id (stopTrack id ms) = map track_id ms.
Proof.
  unfold stopTrack. rewrite !map_map.
  split; apply map_ext; intro t; now destruct (Nat.eqb (track_id t) id).
Qed.

(** The forEach of the macOS path stops tracks and removes none. *)
Lemma stopAndThenRemove_keeps (videoTracks : list Track) :
  forall displayStream l,
    exists stream l',
      MeetingsRenderer.stopAndThenRemove videoTracks displayStream l = (Return stream, l')
      /\ map kind stream = map kind displayStream
      /\ map track_id stream = map track_id displayStream.
Proof.
  induction videoTracks as [| v rest IH]; intros displayStream l; simpl.
  - now exists displayStream, l.
  - unfold bind, emit, modify. simpl.
    destruct (IH (stopTrack (track_id v) displayStream) (TrackStopped (track_id v) :: l))
      as [stream [l' [E [Hk Hi]]]].
    exists stream, l'. destruct (stopTrack_kinds (track_id v) displayStream) as [Hk' Hi'].
    repeat split; congruence.
Qed.

(** So every stream the macOS path returns has the kinds the capture
    produced, video included. *)
Lemma macos_capture_keeps_every_track :
  forall h gdm l stream l',
    getDisplayMedia h = Some gdm ->
    MeetingsRenderer.captureSystemAudioMacOS h l = (Return stream, l') ->
    exists displayStream,
      gdm (countOf isCapture l) = inr displayStream
      /\ map kind stream = map kind displayStream.
Proof.
  intros h gdm l stream l' Hgdm H.
  unfold MeetingsRenderer.captureSystemAudioMacOS in H. rewrite Hgdm in H.
  destruct (enableLoopbackAudio h) as [en |]; [| discriminate H].
  cbv [bind] in H. rewrite callEnable_run in H.
  destruct (en _); [| discriminate H].
  cbv [ret] in H. rewrite callGetDisplayMedia_run in H.
  change (countOf isCapture (EnableCall :: l)) with (countOf isCapture l) in H.
  destruct (gdm (countOf isCapture l)) as [e | displayStream]; [discriminate H |].
  exists displayStream. split; [reflexivity |].
  destruct (disableLoopbackAudio h) as [dis |]; [| discriminate H].
  rewrite callDisable_run in H.
  destruct (dis _); [| discriminate H].
  match type of H with
  | MeetingsRenderer.stopAndThenRemove ?v ?d ?l0 = _ =>
      destruct (stopAndThenRemove_keeps v d l0) as [s [l2 [E [Hk _]]]]
  end.
  rewrite E in H. inversion H; subst. exact Hk.
Qed.

(** C2 -- The macOS/Linux path returns the video track: [t.stop()] yields
    [undefined], so [t.stop() && displayStream.removeTrack(t)] never
    removes.  With a capture of one audio and one video track,
    [captureSystemAudio] on a Mac returns both, the video track ended but
    still in the stream. *)
Theorem macos_capture_returns_video_track :
  exists stream l,
    MeetingsRenderer.captureSystemAudio workingMac [] = (Return stream, l)
    /\ getVideoTracks stream = [mkTrack 2 VideoTrack Ended true]
    /\ List.length (getVideoTracks stream) = 1%nat
    /\ In (TrackStopped 2) l.
Proof.
  do 2 eexists. split; [vm_compute; reflexivity |].
  split; [reflexivity |]. split; [reflexivity |]. left. reflexivity.
Qed.

(** ** Sessions *)

Import MeetingsRenderer.

Lemma stopEvery_returns (tracks : list Track) :
  forall st, exists effs,
    Session.stopEvery tracks st = (Return tt, Session.mkState (Session.this st) effs).
Proof.
  induction tracks as [| t rest IH]; intro st; simpl.
  - exists (Session.effects st). now destruct st.
  - unfold bind, Session.effect, modify. simpl.
    destruct (IH (Session.mkState (Session.this st)
                    (Session.StreamTrackStopped (track_id t) :: Session.effects st)))
      as [effs E].
    exists effs. exact E.
Qed.

(** [stop()] returns from every state and leaves every handle null. *)
Lemma stop_clears (st : Session.State) :
  exists effs,
    Session.stop st
    = (Return tt,
       Session.mkState
         (Session.mkSession (Session.apiKey (Session.this st))
            (Session.streamType (Session.this st))
            (Session.useSessionToken (Session.this st)) None None None false)
         effs).
Proof.
  destruct st as [[key type token stream conn chan mu] effs].
  unfold Session.stop, bind, get, Session.update, Session.effect, modify, ret. simpl.
  destruct chan, conn, stream as [stream |]; simpl;
    try (match goal with
         | |- context [Session.stopEvery ?t ?s] =>
             destruct (stopEvery_returns t s) as [effs' E]; rewrite E
         end);
    simpl; eexists; reflexivity.
Qed.

Lemma mute_null_connection (flag : bool) (st : Session.State) :
  Session.pc (Session.this st) = None ->
  Session.mute flag st
  = (Throw (newTypeError "Cannot read properties of null (reading 'getSenders')"),
     Session.mkState (Session.set_muted flag (Session.this st)) (Session.effects st)).
Proof.
  intro H. unfold Session.mute, bind, Session.update, modify, get. simpl.
  now rewrite H.
Qed.

(** C8 -- [mute(flag)] throws a TypeError on a session that was never
    started and on a session after [stop()], because [this.pc] is null;
    [stop()] returns normally in both states. *)
Theorem mute_without_peer_connection_throws :
  forall flag : bool,
    (forall key label effs,
        fst (Session.mute flag (Session.mkState (Session.constructor key label) effs))
        = Throw (newTypeError "Cannot read properties of null (reading 'getSenders')"))
    /\ (forall st,
        fst (Session.mute flag (snd (Session.stop st)))
        = Throw (newTypeError "Cannot read properties of null (reading 'getSenders')"))
    /\ (forall key label effs,
        fst (Session.stop (Session.mkState (Session.constructor key label) effs)) = Return tt)
    /\ (forall st, fst (Session.stop (snd (Session.stop st))) = Return tt).
Proof.
  intro flag. split; [| split; [| split]].
  - intros. rewrite mute_null_connection; reflexivity.
  - intro st. destruct (stop_clears st) as [effs E]. rewrite E. reflexivity.
  - intros. destruct (stop_clears (Session.mkState (Session.constructor key label) effs))
      as [effs' E]. rewrite E. reflexivity.
  - intro st. destruct (stop_clears (snd (Session.stop st))) as [effs' E].
    rewrite E. reflexivity.
Qed.

(** The [try] body fails exactly when the signaling exchange fails or the
    remote answer cannot be applied. *)
Lemma negotiate_failure_cases rtc offer tokenEndpoint st e st2 :
  Session.negotiate rtc offer tokenEndpoint st = (Throw e, st2) <->
  Session.signal rtc offer tokenEndpoint st = (Throw e, st2)
  \/ exists answer,
       Session.signal rtc offer tokenEndpoint st = (Return answer, st2)
       /\ Session.setRemoteDescription rtc = Some e.
Proof.
  unfold Session.negotiate, bind, Session.failing.
  destruct (Session.signal rtc offer tokenEndpoint st) as [[answer | e1] st1].
  - destruct (Session.setRemoteDescription rtc) as [e2 |]; unfold throw, ret; split.
    + intro H. inversion H; subst. right. exists answer. split; reflexivity.
    + intros [H | [a [H1 H2]]]; [discriminate H |].
      inversion H1; inversion H2; reflexivity.
    + intro H. discriminate H.
    + intros [H | [a [H1 H2]]]; discriminate.
  - split.
    + intro H. inversion H; subst. left. reflexivity.
    + intros [H | [a [H1 H2]]]; [inversion H; reflexivity | discriminate H1].
Qed.

(** C6 -- When the statements before the [try] succeed and the signaling
    exchange or [setRemoteDescription] fails with [e], what [startInternal]
    (hence [start] and [startTranscription]) does next is the [onerror]
    callback applied to [e], and its outcome is the callback's: the failure
    itself is not thrown to the caller of start. *)
Theorem signaling_failure_goes_to_onerror :
  forall rtc callback stream tokenEndpoint st offer st1 e st2,
    Session.prepareOffer rtc stream st = (Return offer, st1) ->
    Session.negotiate rtc offer tokenEndpoint st1 = (Throw e, st2) ->
    Session.startInternal rtc (Some callback) stream tokenEndpoint st = callback e st2
    /\ (forall st3, callback e st2 = (Return tt, st3) ->
        Session.startInternal rtc (Some callback) stream tokenEndpoint st = (Return tt, st3)).
Proof.
  intros rtc callback stream tokenEndpoint st offer st1 e st2 Hprep Hneg.
  assert (E : Session.startInternal rtc (Some callback) stream tokenEndpoint st
              = callback e st2).
  { unfold Session.startInternal, bind at 1. rewrite Hprep.
    unfold tryCatch. now rewrite Hneg. }
  split; [exact E | intros st3 H; now rewrite E].
Qed.

Lemma signaling_failure_goes_to_onerror_witness :
  let st1 := snd (Session.prepareOffer tokenRefusedRtc screenAndSound freshMicrophone) in
  let st2 := snd (Session.negotiate tokenRefusedRtc "v=0 offer"
                    "/v1/realtime/transcription_sessions" st1) in
  let e := newError "Failed to request session token" in
  Session.startInternal tokenRefusedRtc (Some stopOnError) screenAndSound
    "/v1/realtime/transcription_sessions" freshMicrophone = stopOnError e st2
  /\ (forall st3, stopOnError e st2 = (Return tt, st3) ->
      Session.startInternal tokenRefusedRtc (Some stopOnError) screenAndSound
        "/v1/realtime/transcription_sessions" freshMicrophone = (Return tt, st3)).
Proof.
  intros st1 st2 e.
  apply (signaling_failure_goes_to_onerror tokenRefusedRtc stopOnError screenAndSound
           "/v1/realtime/transcription_sessions" freshMicrophone "v=0 offer" st1 e st2);
    reflexivity.
Defined.

(** Without a callback the failure is dropped: [this.onerror?.(e)]. *)
Lemma signaling_failure_without_callback :
  forall rtc stream tokenEndpoint st offer st1 e st2,
    Session.prepareOffer rtc stream st = (Return offer, st1) ->
    Session.negotiate rtc offer tokenEndpoint st1 = (Throw e, st2) ->
    Session.startInternal rtc None stream tokenEndpoint st = (Return tt, st2).
Proof.
  intros rtc stream tokenEndpoint st offer st1 e st2 Hprep Hneg.
  unfold Session.startInternal, bind at 1. rewrite Hprep.
  unfold tryCatch. now rewrite Hneg.
Qed.

Lemma prepareOffer_failure rtc stream e :
  failsBeforeSignaling rtc stream e ->
  forall st, exists st1, Session.prepareOffer rtc stream st = (Throw e, st1).
Proof.
  intros H st. unfold Session.prepareOffer.
  destruct H as [Hc | Hc Hs Ha | Hc Hs Ha Hd Ho | offer Hc Hs Ha Hd Ho Hl];
    rewrite Hc; try (destruct stream as [| t rest]; [congruence |]);
    try rewrite Ha; try rewrite Hd; try rewrite Ho; try rewrite Hl;
    unfold bind, Session.update, Session.failing, Session.awaiting, modify, throw, ret;
    simpl; eexists; reflexivity.
Qed.

(** C10 -- An error of the constructor, of [addTrack], of [createOffer]
    or of [setLocalDescription] comes out of [startInternal] (hence of
    [start]) as its rejection, in a state that does not depend on the
    [onerror] callback: the callback is not called. *)
Theorem presignaling_failure_rejects_start :
  forall rtc stream e,
    failsBeforeSignaling rtc stream e ->
    forall tokenEndpoint st,
    exists st1,
      Session.prepareOffer rtc stream st = (Throw e, st1)
      /\ forall onerror,
           Session.startInternal rtc onerror stream tokenEndpoint st = (Throw e, st1).
Proof.
  intros rtc stream e H tokenEndpoint st.
  destruct (prepareOffer_failure rtc stream e H st) as [st1 E].
  exists st1. split; [exact E |].
  intro onerror. unfold Session.startInternal, bind. now rewrite E.
Qed.

Lemma presignaling_failure_rejects_start_witness :
  exists st1,
    Session.prepareOffer offerFailsRtc screenAndSound freshMicrophone
      = (Throw (mkJsError "InvalidStateError" "closed"), st1)
    /\ forall onerror,
         Session.startInternal offerFailsRtc onerror screenAndSound
           "/v1/realtime/transcription_sessions" freshMicrophone
         = (Throw (mkJsError "InvalidStateError" "closed"), st1).
Proof.
  apply (presignaling_failure_rejects_start offerFailsRtc screenAndSound
           (mkJsError "InvalidStateError" "closed")).
  apply CreateOfferFails; [reflexivity | discriminate | reflexivity | reflexivity | reflexivity].
Defined.

Example working_session_starts :
  fst (Session.startTranscription workingRtc (Some stopOnError) screenAndSound freshMicrophone)
  = Return tt.
Proof. reflexivity. Qed.

(** ** Per-role baselines *)

Section Baselines.

Context {num : Type}.
Variable zero : num.
Variable sub : num -> num -> num.
Variable toFixed0 : num -> string.

Local Abbreviation G := (@Globals num).
Local Abbreviation micHandler := (handleMicrophoneMessage sub toFixed0).
Local Abbreviation sysHandler := (handleSystemAudioMessage sub toFixed0).
Local Abbreviation run := (deliverAll sub toFixed0).

Ltac handler_cases parsed :=
  unfold handleMicrophoneMessage, handleSystemAudioMessage,
    handleMicrophoneTranscript, handleSystemAudioTranscript;
  repeat match goal with
         | |- context [String.eqb (type parsed) ?s] => destruct (String.eqb (type parsed) s)
         end;
  unfold bind, get, modify, ret, throw; simpl;
  repeat match goal with
         | |- context [match ?x with _ => _ end] => destruct x; simpl
         end;
  try reflexivity.

(** A message for one role leaves what belongs to the other untouched. *)
Lemma systemAudio_message_keeps_microphoneView (now : num) (parsed : Message) (g : G) :
  microphoneView (snd (sysHandler now parsed g)) = microphoneView g.
Proof. destruct g. handler_cases parsed. Qed.

Lemma microphone_message_keeps_systemAudioView (now : num) (parsed : Message) (g : G) :
  systemAudioView (snd (micHandler now parsed g)) = systemAudioView g.
Proof. destruct g. handler_cases parsed. Qed.

(** What a message does to its own role depends only on what belongs to
    that role. *)
Lemma microphone_message_local (now : num) (parsed : Message) (g1 g2 : G) :
  microphoneView g1 = microphoneView g2 ->
  microphoneView (snd (micHandler now parsed g1))
  = microphoneView (snd (micHandler now parsed g2)).
Proof.
  destruct g1, g2. unfold microphoneView at 1 2. simpl. intro H. inversion H; subst.
  handler_cases parsed.
Qed.

Lemma systemAudio_message_local (now : num) (parsed : Message) (g1 g2 : G) :
  systemAudioView g1 = systemAudioView g2 ->
  systemAudioView (snd (sysHandler now parsed g1))
  = systemAudioView (snd (sysHandler now parsed g2)).
Proof.
  destruct g1, g2. unfold systemAudioView at 1 2. simpl. intro H. inversion H; subst.
  handler_cases parsed.
Qed.

Lemma microphoneView_filtered (evs : list Inbound) :
  forall g1 g2 : G,
    microphoneView g1 = microphoneView g2 ->
    microphoneView (run evs g1) = microphoneView (run (filter isMicrophone evs) g2).
Proof.
  unfold deliverAll.
  induction evs as [| ev evs IH]; intros g1 g2 H; simpl; [exact H |].
  unfold isMicrophone at 1.
  destruct (role ev) eqn:R; simpl; apply IH; unfold deliver, dispatch; rewrite R.
  - now apply microphone_message_local.
  - now rewrite systemAudio_message_keeps_microphoneView.
Qed.

Lemma systemAudioView_filtered (evs : list Inbound) :
  forall g1 g2 : G,
    systemAudioView g1 = systemAudioView g2 ->
    systemAudioView (run evs g1) = systemAudioView (run (filter isSystemAudio evs) g2).
Proof.
  unfold deliverAll.
  induction evs as [| ev evs IH]; intros g1 g2 H; simpl; [exact H |].
  unfold isSystemAudio at 1, isMicrophone at 1.
  destruct (role ev) eqn:R; simpl; apply IH; unfold deliver, dispatch; rewrite R.
  - now rewrite microphone_message_keeps_systemAudioView.
  - now apply systemAudio_message_local.
Qed.

Lemma deliver_vadTime (ev : Inbound) (g : G) (r : Role) :
  vadTimeOf r (deliver sub toFixed0 g ev)
  = if sameRole (role ev) r
       && String.eqb (type (payload ev)) "input_audio_buffer.speech_stopped"
    then match configOf r g with
         | Some config =>
             match turn_detection config with
             | Some td => sub (clock ev) (silence_duration_ms td)
             | None => vadTimeOf r g
             end
         | None => vadTimeOf r g
         end
    else vadTimeOf r g.
Proof.
  destruct ev as [r' now parsed]. unfold deliver, dispatch. cbn [role clock payload].
  destruct r', r; cbn [sameRole andb vadTimeOf configOf].
  - destruct g as [mc sc mv sv mr sr]. unfold handleMicrophoneMessage.
    destruct (String.eqb (type parsed) "transcription_session.created") eqn:E1.
    { apply String.eqb_eq in E1. rewrite E1. cbn [String.eqb Ascii.eqb Bool.eqb].
      unfold bind, modify, ret, throw. simpl. now destruct (session parsed). }
    destruct (String.eqb (type parsed) "input_audio_buffer.speech_started") eqn:E2.
    { apply String.eqb_eq in E2. rewrite E2. simpl.
      unfold handleMicrophoneTranscript, modify. simpl. reflexivity. }
    destruct (String.eqb (type parsed) "input_audio_buffer.speech_stopped") eqn:E3.
    { unfold handleMicrophoneTranscript, bind, get, modify, throw. simpl.
      destruct mc as [config |]; [| reflexivity].
      now destruct (turn_detection config). }
    destruct (String.eqb (type parsed) "conversation.item.input_audio_transcription.completed");
      [| reflexivity].
    unfold handleMicrophoneTranscript, bind, get, modify, ret. simpl.
    now destruct (hasText _).
  - generalize (microphone_message_keeps_systemAudioView now parsed g).
    unfold systemAudioView. intro H. now inversion H.
  - generalize (systemAudio_message_keeps_microphoneView now parsed g).
    unfold microphoneView. intro H. now inversion H.
  - destruct g as [mc sc mv sv mr sr]. unfold handleSystemAudioMessage.
    destruct (String.eqb (type parsed) "transcription_session.created") eqn:E1.
    { apply String.eqb_eq in E1. rewrite E1. cbn [String.eqb Ascii.eqb Bool.eqb].
      unfold bind, modify, ret, throw. simpl. now destruct (session parsed). }
    destruct (String.eqb (type parsed) "input_audio_buffer.speech_started") eqn:E2.
    { apply String.eqb_eq in E2. rewrite E2. simpl.
      unfold handleSystemAudioTranscript, modify. simpl. reflexivity. }
    destruct (String.eqb (type parsed) "input_audio_buffer.speech_stopped") eqn:E3.
    { unfold handleSystemAudioTranscript, bind, get, modify, throw. simpl.
      destruct sc as [config |]; [| reflexivity].
      now destruct (turn_detection config). }
    destruct (String.eqb (type parsed) "conversation.item.input_audio_transcription.completed");
      [| reflexivity].
    unfold handleSystemAudioTranscript, bind, get, modify, ret. simpl.
    now destruct (hasText _).
Qed.

Lemma sameRole_refl (r : Role) : sameRole r r = true.
Proof. now destruct r. Qed.

Lemma sameRole_eq (a b : Role) : sameRole a b = true -> a = b.
Proof. now destruct a, b. Qed.

(** Until the role's next [speech_stopped], its baseline stays. *)
Lemma run_keeps_vadTime (r : Role) (later : list Inbound) :
  (forall ev, In ev later -> role ev = r ->
              type (payload ev) <> "input_audio_buffer.speech_stopped") ->
  forall g : G, vadTimeOf r (run later g) = vadTimeOf r g.
Proof.
  unfold deliverAll.
  induction later as [| ev later IH]; intros Hno g; simpl; [reflexivity |].
  rewrite IH by (intros e He; apply Hno; now right).
  rewrite deliver_vadTime.
  destruct (sameRole (role ev) r) eqn:S; [| reflexivity].
  apply sameRole_eq in S.
  destruct (String.eqb (type (payload ev)) "input_audio_buffer.speech_stopped") eqn:E;
    [| reflexivity].
  apply String.eqb_eq in E. now destruct (Hno ev (or_introl eq_refl) S).
Qed.

Lemma completed_appends (r : Role) (t2 : num) (s2 : option SessionConfig) (text : string)
    (g : G) :
  text <> "" ->
  resultsOf r
    (deliver sub toFixed0 g
       (mkInbound r t2
          (mkMessage "conversation.item.input_audio_transcription.completed" s2 (Some text))))
  = mkTranscript (Some text) false (Some (toFixed0 (sub t2 (vadTimeOf r g))))
    :: resultsOf r g.
Proof.
  intro Htext. apply String.eqb_neq in Htext.
  destruct g as [mc sc mv sv mr sr].
  destruct r; unfold deliver, dispatch; cbn [role clock payload];
    unfold handleMicrophoneMessage, handleSystemAudioMessage,
      handleMicrophoneTranscript, handleSystemAudioTranscript, hasText, bind, get, modify, ret;
    simpl; rewrite Htext; reflexivity.
Qed.

(** C7 -- Whatever the interleaving of the two roles' messages, what a
    role's handler computes (its config, its speech-stopped baseline and
    the transcripts it hands on, latency included) is what it would compute
    from that role's messages alone, and a message of one role never
    changes the other role's baseline.  A role's baseline changes only on
    that role's own [speech_stopped] message, which (with a config that
    has a [turn_detection]) sets it to [performance.now()] minus
    [silence_duration_ms].  So after any messages [evs], a [speech_stopped]
    of role [r] at [t1], any later messages that hold no further
    [speech_stopped] of [r], and the final transcript of [r] at [t2], the
    latency put on that transcript is [t2 - (t1 - silence_duration_ms)]. *)
Theorem latency_uses_own_role_baseline :
  forall (evs : list Inbound) (g : G),
    microphoneView (run evs g) = microphoneView (run (filter isMicrophone evs) g)
    /\ systemAudioView (run evs g) = systemAudioView (run (filter isSystemAudio evs) g)
    /\ (forall now parsed,
          microphoneVadTime (snd (sysHandler now parsed g)) = microphoneVadTime g)
    /\ (forall now parsed,
          systemAudioVadTime (snd (micHandler now parsed g)) = systemAudioVadTime g)
    /\ (forall now config text,
          let final := mkTranscript text false
                         (Some (toFixed0 (sub now (microphoneVadTime g)))) in
          micResults
            (snd (micHandler now
                    (mkMessage "conversation.item.input_audio_transcription.completed"
                       config text) g))
          = if hasText final then final :: micResults g else micResults g)
    /\ (forall now config text,
          let final := mkTranscript text false
                         (Some (toFixed0 (sub now (systemAudioVadTime g)))) in
          speakerResults
            (snd (sysHandler now
                    (mkMessage "conversation.item.input_audio_transcription.completed"
                       config text) g))
          = if hasText final then final :: speakerResults g else speakerResults g)
    /\ (forall (ev : Inbound) (r : Role),
          vadTimeOf r (deliver sub toFixed0 g ev)
          = if sameRole (role ev) r
               && String.eqb (type (payload ev)) "input_audio_buffer.speech_stopped"
            then match configOf r g with
                 | Some config =>
                     match turn_detection config with
                     | Some td => sub (clock ev) (silence_duration_ms td)
                     | None => vadTimeOf r g
                     end
                 | None => vadTimeOf r g
                 end
            else vadTimeOf r g)
    /\ (forall (r : Role) (later : list Inbound) (t1 t2 : num)
               (s1 s2 : option SessionConfig) (x1 : option string) (text : string)
               (config : SessionConfig) (td : TurnDetection),
          configOf r (run evs g) = Some config ->
          turn_detection config = Some td ->
          (forall ev, In ev later -> role ev = r ->
                      type (payload ev) <> "input_audio_buffer.speech_stopped") ->
          text <> "" ->
          let stopped := mkInbound r t1 (mkMessage "input_audio_buffer.speech_stopped" s1 x1) in
          let final :=
            mkInbound r t2
              (mkMessage "conversation.item.input_audio_transcription.completed"
                 s2 (Some text)) in
          resultsOf r (run (evs ++ stopped :: later ++ [final])%list g)
          = mkTranscript (Some text) false
              (Some (toFixed0 (sub t2 (sub t1 (silence_duration_ms td)))))
            :: resultsOf r (run (evs ++ stopped :: later)%list g)).
Proof.
  intros evs g.
  split; [now apply microphoneView_filtered |].
  split; [now apply systemAudioView_filtered |].
  split.
  { intros now parsed.
    generalize (systemAudio_message_keeps_microphoneView now parsed g).
    unfold microphoneView. intro H. now inversion H. }
  split.
  { intros now parsed.
    generalize (microphone_message_keeps_systemAudioView now parsed g).
    unfold systemAudioView. intro H. now inversion H. }
  split.
  { intros now config text final; subst final.
    unfold handleMicrophoneMessage, handleMicrophoneTranscript, bind, get, modify, ret.
    simpl.
    match goal with |- context [hasText ?t] => destruct (hasText t) end; reflexivity. }
  split.
  { intros now config text final; subst final.
    unfold handleSystemAudioMessage, handleSystemAudioTranscript, bind, get, modify, ret.
    simpl.
    match goal with |- context [hasText ?t] => destruct (hasText t) end; reflexivity. }
  split; [intros ev r; apply deliver_vadTime |].
  intros r later t1 t2 s1 s2 x1 text config td Hconfig Htd Hno Htext stopped final.
  assert (Hsplit : run (evs ++ stopped :: later ++ [final])%list g
                   = deliver sub toFixed0 (run (evs ++ stopped :: later)%list g) final).
  { unfold deliverAll.
    replace (evs ++ stopped :: later ++ [final])%list
      with ((evs ++ stopped :: later) ++ [final])%list
      by (rewrite <- app_assoc; reflexivity).
    now rewrite fold_left_app. }
  rewrite Hsplit. subst final. rewrite completed_appends by exact Htext.
  do 3 f_equal.
  assert (Hrun : run (evs ++ stopped :: later)%list g
                 = run later (deliver sub toFixed0 (run evs g) stopped)).
  { unfold deliverAll. now rewrite fold_left_app. }
  rewrite Hrun, run_keeps_vadTime by exact Hno.
  rewrite deliver_vadTime. subst stopped. cbn [role clock payload type].
  rewrite sameRole_refl, Hconfig, Htd. reflexivity.
Qed.

Lemma microphone_config_stays_null (evs : list Inbound) :
  forall g : G,
    (forall e, In e evs -> role e = Microphone ->
               type (payload e) <> "transcription_session.created") ->
    microphoneSessionConfig (run evs g) = microphoneSessionConfig g.
Proof.
  unfold deliverAll.
  induction evs as [| ev evs IH]; intros g Hno; simpl; [reflexivity |].
  rewrite IH by (intros e Hin; apply Hno; now right).
  unfold deliver, dispatch.
  destruct (role ev) eqn:R.
  - assert (Hne := Hno ev (or_introl eq_refl) R).
    apply String.eqb_neq in Hne.
    destruct g. unfold handleMicrophoneMessage. rewrite Hne.
    handler_cases (payload ev).
  - generalize (systemAudio_message_keeps_microphoneView (clock ev) (payload ev) g).
    unfold microphoneView. intro H. now inversion H.
Qed.

Lemma systemAudio_config_stays_null (evs : list Inbound) :
  forall g : G,
    (forall e, In e evs -> role e = SystemAudio ->
               type (payload e) <> "transcription_session.created") ->
    systemAudioSessionConfig (run evs g) = systemAudioSessionConfig g.
Proof.
  unfold deliverAll.
  induction evs as [| ev evs IH]; intros g Hno; simpl; [reflexivity |].
  rewrite IH by (intros e Hin; apply Hno; now right).
  unfold deliver, dispatch.
  destruct (role ev) eqn:R.
  - generalize (microphone_message_keeps_systemAudioView (clock ev) (payload ev) g).
    unfold systemAudioView. intro H. now inversion H.
  - assert (Hne := Hno ev (or_introl eq_refl) R).
    apply String.eqb_neq in Hne.
    destruct g. unfold handleSystemAudioMessage. rewrite Hne.
    handler_cases (payload ev).
Qed.

(** C9 -- Starting from the renderer's initial globals, if no
    [transcription_session.created] message has been handled for a role,
    an [input_audio_buffer.speech_stopped] message for that role makes its
    handler throw the TypeError of reading [turn_detection] of null, and
    neither baseline is recorded. *)
Theorem speech_stopped_before_created_throws :
  forall (evs : list Inbound) (ev : Inbound),
    type (payload ev) = "input_audio_buffer.speech_stopped" ->
    (forall e, In e evs -> role e = role ev ->
               type (payload e) <> "transcription_session.created") ->
    let g := run evs (initialGlobals zero) in
    fst (dispatch sub toFixed0 ev g) = Throw nullTurnDetection
    /\ microphoneVadTime (deliver sub toFixed0 g ev) = microphoneVadTime g
    /\ systemAudioVadTime (deliver sub toFixed0 g ev) = systemAudioVadTime g.
Proof.
  intros evs ev Htype Hno g.
  unfold deliver, dispatch.
  destruct (role ev) eqn:R.
  - assert (Hnull : microphoneSessionConfig g = None)
      by (subst g; now rewrite microphone_config_stays_null).
    clearbody g. destruct g. simpl in Hnull. subst.
    unfold handleMicrophoneMessage. rewrite Htype. simpl.
    unfold handleMicrophoneTranscript, bind, get, modify, throw. simpl. auto.
  - assert (Hnull : systemAudioSessionConfig g = None)
      by (subst g; now rewrite systemAudio_config_stays_null).
    clearbody g. destruct g. simpl in Hnull. subst.
    unfold handleSystemAudioMessage. rewrite Htype. simpl.
    unfold handleSystemAudioTranscript, bind, get, modify, throw. simpl. auto.
Qed.

End Baselines.

Lemma latency_uses_own_role_baseline_witness :
  let evs := [created Microphone 0 "sess_mic"; created SystemAudio 1 "sess_sys"] in
  let later := [speechStopped SystemAudio 5000] in
  let stopped :=
    mkInbound Microphone 1000 (mkMessage "input_audio_buffer.speech_stopped" None None) in
  let final :=
    mkInbound Microphone 6000
      (mkMessage "conversation.item.input_audio_transcription.completed" None (Some "hello")) in
  resultsOf Microphone
    (deliverAll Z.sub showZ (evs ++ stopped :: later ++ [final])%list (initialGlobals 0))
  = mkTranscript (Some "hello") false (Some (showZ (6000 - (1000 - 10))))
    :: resultsOf Microphone
         (deliverAll Z.sub showZ (evs ++ stopped :: later)%list (initialGlobals 0)).
Proof.
  intros evs later stopped final.
  destruct (latency_uses_own_role_baseline Z.sub showZ evs (initialGlobals 0))
    as (_ & _ & _ & _ & _ & _ & _ & H).
  apply (H Microphone later 1000 6000 None None None "hello"
           (vadConfig "sess_mic") (mkTurnDetection 10)).
  - reflexivity.
  - reflexivity.
  - intros ev [<- | []] R; discriminate R.
  - discriminate.
Defined.

Lemma speech_stopped_before_created_throws_witness :
  let evs := [created SystemAudio 1 "sess_sys"; speechStarted Microphone 2] in
  let ev := speechStopped Microphone 3 in
  let g := deliverAll Z.sub showZ evs (initialGlobals 0) in
  fst (dispatch Z.sub showZ ev g) = Throw nullTurnDetection
  /\ microphoneVadTime (deliver Z.sub showZ g ev) = microphoneVadTime g
  /\ systemAudioVadTime (deliver Z.sub showZ g ev) = systemAudioVadTime g.
Proof.
  intros evs ev.
  apply (speech_stopped_before_created_throws 0 Z.sub showZ evs ev).
  - reflexivity.
  - intros e Hin R. simpl in Hin.
    destruct Hin as [<- | [<- | []]]; [discriminate R | simpl; discriminate].
Defined.

(** The scenario of the two roles' timers: the microphone stops speaking
    at 1000, system audio at 5000, the microphone's final transcript comes
    at 6000 and carries 6000 - (1000 - 10). *)
Example interleaved_latency :
  micResults
    (deliverAll Z.sub showZ
       [created Microphone 0 "sess_mic"; created SystemAudio 1 "sess_sys";
        speechStopped Microphone 1000; speechStopped SystemAudio 5000;
        completed Microphone 6000 "hello"]
       (initialGlobals 0))
  = [mkTranscript (Some "hello") false (Some "5010");
     mkTranscript (Some "...") true None].
Proof. reflexivity. Qed.

(** * Further properties of the capture helper *)

(** ** The enable sub-step, call by call *)

Lemma enableRound_run h reply (maxRetries retryDelay attempt : Z) (l : Log) :
  enableLoopbackAudio h = Some reply ->
  WindowsAudioCapture.enableRound h maxRetries retryDelay attempt l
  = match reply (countOf isEnable l) with
    | Resolves _ => (Return (Returned tt), Sleep retryDelay :: EnableCall :: l)
    | Rejects e =>
        (Return (NextRound e),
         if attempt <? maxRetries then Sleep retryDelay :: EnableCall :: l
         else EnableCall :: l)
    end.
Proof.
  intro H.
  unfold WindowsAudioCapture.enableRound, WindowsAudioCapture.validateLoopbackAudio.
  rewrite H.
  unfold callEnable, sleep, emit, modify, get, when, tryCatch, bind, ret, throw. simpl.
  destruct (reply (countOf isEnable l)) as [r | e]; [reflexivity |].
  destruct (attempt <? maxRetries); reflexivity.
Qed.

Lemma enableTrail_snoc (n : nat) (retryDelay : Z) (l : Log) :
  (enableTrail n retryDelay ++ Sleep retryDelay :: EnableCall :: l)%list
  = (enableTrail (S n) retryDelay ++ l)%list.
Proof.
  induction n as [| n IH]; simpl; [reflexivity |].
  simpl in IH. now rewrite IH.
Qed.

Lemma countOf_enable_round (retryDelay : Z) (l : Log) :
  countOf isEnable (Sleep retryDelay :: EnableCall :: l) = S (countOf isEnable l).
Proof. reflexivity. Qed.

(** The loop leaves at the first enable call that resolves. *)
Lemma enableRounds_first_resolve h reply (maxRetries retryDelay : Z) (j : nat) :
  enableLoopbackAudio h = Some reply ->
  forall rounds attempt lastError l,
    (j < rounds)%nat ->
    attempt + Z.of_nat rounds - 1 = maxRetries ->
    (forall i, (i < j)%nat -> exists e, reply (countOf isEnable l + i)%nat = Rejects e) ->
    (exists r, reply (countOf isEnable l + j)%nat = Resolves r) ->
    WindowsAudioCapture.enableRounds h maxRetries retryDelay rounds attempt lastError l
    = (Return (LoopReturned tt), (enableTrail (S j) retryDelay ++ l)%list).
Proof.
  intro Hen.
  induction j as [| j IH]; intros rounds attempt lastError l Hj Hmax Hrej [r Hres].
  - destruct rounds as [| rounds]; [lia |]. simpl.
    unfold bind. rewrite (enableRound_run h reply) by exact Hen.
    rewrite Nat.add_0_r in Hres. rewrite Hres. reflexivity.
  - destruct rounds as [| rounds]; [lia |]. simpl.
    unfold bind at 1. rewrite (enableRound_run h reply) by exact Hen.
    destruct (Hrej 0%nat) as [e He]; [lia |]. rewrite Nat.add_0_r in He. rewrite He.
    assert (Hlt : (attempt <? maxRetries) = true) by (apply Z.ltb_lt; lia).
    rewrite Hlt.
    rewrite (IH rounds (attempt + 1) (Some e) (Sleep retryDelay :: EnableCall :: l)).
    + now rewrite enableTrail_snoc.
    + lia.
    + lia.
    + intros i Hi. rewrite countOf_enable_round.
      destruct (Hrej (S i)) as [e' He']; [lia |]. exists e'.
      now replace (S (countOf isEnable l) + i)%nat with (countOf isEnable l + S i)%nat by lia.
    + exists r. rewrite countOf_enable_round.
      now replace (S (countOf isEnable l) + j)%nat with (countOf isEnable l + S j)%nat by lia.
Qed.

(** X1 -- [enableLoopbackAudioWithRetry] returns at the first enable call that
    resolves (whatever it resolves to): after [j] rejected calls and one
    resolved call it has called the API [j + 1] times and waited
    [retryDelay] after each call. *)
Theorem enable_returns_at_first_resolve :
  forall h reply (maxRetries retryDelay : Z) (l : Log) (j : nat),
    enableLoopbackAudio h = Some reply ->
    (j < Z.to_nat maxRetries)%nat ->
    (forall i, (i < j)%nat -> exists e, reply (countOf isEnable l + i)%nat = Rejects e) ->
    (exists r, reply (countOf isEnable l + j)%nat = Resolves r) ->
    WindowsAudioCapture.enableLoopbackAudioWithRetry h maxRetries retryDelay l
    = (Return tt, (enableTrail (S j) retryDelay ++ l)%list).
Proof.
  intros h reply maxRetries retryDelay l j Hen Hj Hrej Hres.
  unfold WindowsAudioCapture.enableLoopbackAudioWithRetry, bind.
  rewrite (enableRounds_first_resolve h reply maxRetries retryDelay j Hen); auto.
  lia.
Qed.

Lemma enable_returns_at_first_resolve_witness :
  WindowsAudioCapture.enableLoopbackAudioWithRetry enableSecondTime 3 500 []
  = (Return tt, (enableTrail 2 500 ++ [])%list).
Proof.
  apply (enable_returns_at_first_resolve enableSecondTime
           (fun n => if Nat.eqb n 0 then Rejects (newError "busy") else Resolves None)
           3 500 [] 1%nat).
  - reflexivity.
  - simpl. lia.
  - intros i Hi. assert (i = 0%nat) by lia. subst i. now exists (newError "busy").
  - now exists None.
Defined.

Lemma enableRounds_all_rejected h reply (maxRetries retryDelay : Z) (last : JsError) :
  enableLoopbackAudio h = Some reply ->
  forall rounds attempt lastError l,
    attempt + Z.of_nat (S rounds) - 1 = maxRetries ->
    (forall i, (i < rounds)%nat -> exists e, reply (countOf isEnable l + i)%nat = Rejects e) ->
    reply (countOf isEnable l + rounds)%nat = Rejects last ->
    WindowsAudioCapture.enableRounds h maxRetries retryDelay (S rounds) attempt lastError l
    = (Return (LoopExhausted (Some last)),
       EnableCall :: (enableTrail rounds retryDelay ++ l)%list).
Proof.
  intro Hen.
  induction rounds as [| rounds IH]; intros attempt lastError l Hmax Hrej Hlast.
  - simpl. unfold bind. rewrite (enableRound_run h reply) by exact Hen.
    rewrite Nat.add_0_r in Hlast. rewrite Hlast.
    assert (Hge : (attempt <? maxRetries) = false) by (apply Z.ltb_ge; lia).
    rewrite Hge. reflexivity.
  - change (WindowsAudioCapture.enableRounds h maxRetries retryDelay (S (S rounds))
              attempt lastError l)
      with (bind (WindowsAudioCapture.enableRound h maxRetries retryDelay attempt)
              (fun r => match r with
                        | Returned a => ret (LoopReturned a)
                        | NextRound error =>
                            WindowsAudioCapture.enableRounds h maxRetries retryDelay
                              (S rounds) (attempt + 1) (Some error)
                        end) l).
    unfold bind at 1. rewrite (enableRound_run h reply) by exact Hen.
    destruct (Hrej 0%nat) as [e He]; [lia |]. rewrite Nat.add_0_r in He. rewrite He.
    assert (Hlt : (attempt <? maxRetries) = true) by (apply Z.ltb_lt; lia).
    rewrite Hlt.
    rewrite (IH (attempt + 1) (Some e) (Sleep retryDelay :: EnableCall :: l)).
    + now rewrite enableTrail_snoc.
    + lia.
    + intros i Hi. rewrite countOf_enable_round.
      destruct (Hrej (S i)) as [e' He']; [lia |]. exists e'.
      now replace (S (countOf isEnable l) + i)%nat with (countOf isEnable l + S i)%nat by lia.
    + rewrite countOf_enable_round.
      now replace (S (countOf isEnable l) + rounds)%nat
        with (countOf isEnable l + S rounds)%nat by lia.
Qed.

(** X2 -- When every enable call is rejected, [enableLoopbackAudioWithRetry]
    calls the API exactly [maxRetries] times, waits between the calls but
    not after the last, and throws one [Error] that quotes the message of
    the last rejection. *)
Theorem enable_gives_up_after_max_retries :
  forall h reply (maxRetries retryDelay : Z) (l : Log) (rounds : nat) (last : JsError),
    enableLoopbackAudio h = Some reply ->
    maxRetries = Z.of_nat (S rounds) ->
    (forall i, (i < rounds)%nat -> exists e, reply (countOf isEnable l + i)%nat = Rejects e) ->
    reply (countOf isEnable l + rounds)%nat = Rejects last ->
    WindowsAudioCapture.enableLoopbackAudioWithRetry h maxRetries retryDelay l
    = (Throw (newError ("Failed to enable loopback audio after " ++ showZ maxRetries
                        ++ " attempts: " ++ messageOrUnknown (Some last))),
       EnableCall :: (enableTrail rounds retryDelay ++ l)%list).
Proof.
  intros h reply maxRetries retryDelay l rounds last Hen Hmax Hrej Hlast.
  unfold WindowsAudioCapture.enableLoopbackAudioWithRetry, bind.
  replace (Z.to_nat maxRetries) with (S rounds) by lia.
  rewrite (enableRounds_all_rejected h reply maxRetries retryDelay last Hen); auto.
  lia.
Qed.

Lemma enable_gives_up_after_max_retries_witness :
  WindowsAudioCapture.enableLoopbackAudioWithRetry
    (mkHost (Some "Win32") (Some (fun _ => Rejects (newError "No handler registered")))
            None None true) 2 500 []
  = (Throw (newError ("Failed to enable loopback audio after " ++ showZ 2
                      ++ " attempts: " ++ messageOrUnknown (Some (newError "No handler registered")))),
     EnableCall :: (enableTrail 1 500 ++ [])%list).
Proof.
  apply (enable_gives_up_after_max_retries
           (mkHost (Some "Win32") (Some (fun _ => Rejects (newError "No handler registered")))
                   None None true)
           (fun _ => Rejects (newError "No handler registered")) 2 500 [] 1%nat
           (newError "No handler registered")).
  - reflexivity.
  - reflexivity.
  - intros i Hi. now exists (newError "No handler registered").
  - reflexivity.
Defined.

(** ** The capture loop, attempt by attempt *)

Lemma enable_once h reply (retryDelay : Z) (l : Log) :
  enableLoopbackAudio h = Some reply ->
  (forall n, exists r, reply n = Resolves r) ->
  WindowsAudioCapture.enableLoopbackAudioWithRetry h 2 retryDelay l
  = (Return tt, Sleep retryDelay :: EnableCall :: l).
Proof.
  intros Hen Hres.
  unfold WindowsAudioCapture.enableLoopbackAudioWithRetry, bind.
  rewrite (enableRounds_first_resolve h reply 2 retryDelay 0 Hen); simpl; auto; try lia.
Qed.

Lemma captureRound_run h reply gdm options (maxRetries retryDelay attempt : Z) (l : Log) :
  enableLoopbackAudio h = Some reply ->
  (forall n, exists r, reply n = Resolves r) ->
  WindowsAudioCapture.captureRound h gdm options maxRetries retryDelay attempt l
  = match gdm (countOf isCapture l) with
    | inr stream =>
        (Return (Returned stream),
         GetDisplayMediaCall (WindowsAudioCapture.displayMediaOptions options)
           :: Sleep retryDelay :: EnableCall :: l)
    | inl e =>
        (Return (NextRound e),
         if attempt <? maxRetries
         then (failedRound (WindowsAudioCapture.displayMediaOptions options) retryDelay e
                 ++ l)%list
         else GetDisplayMediaCall (WindowsAudioCapture.displayMediaOptions options)
                :: Sleep retryDelay :: EnableCall :: l)
    end.
Proof.
  intros Hen Hres.
  unfold WindowsAudioCapture.captureRound, tryCatch, bind at 1.
  rewrite (enable_once h reply retryDelay l Hen Hres).
  unfold bind at 1. rewrite callGetDisplayMedia_run.
  change (countOf isCapture (Sleep retryDelay :: EnableCall :: l)) with (countOf isCapture l).
  destruct (gdm (countOf isCapture l)) as [e | stream]; [| reflexivity].
  unfold WindowsAudioCapture.onCaptureError, failedRound, bind, when, sleep, emit, modify, ret.
  destruct (WindowsAudioCapture.isNotSupported e), (attempt <? maxRetries); reflexivity.
Qed.

Lemma countOf_capture_failedRound opts (retryDelay : Z) (e : JsError) (l : Log) :
  countOf isCapture (failedRound opts retryDelay e ++ l)%list = S (countOf isCapture l).
Proof. reflexivity. Qed.

Lemma captureRounds_first_stream h reply gdm options (maxRetries retryDelay : Z)
    (stream : MediaStream) (errors : list JsError) :
  enableLoopbackAudio h = Some reply ->
  (forall n, exists r, reply n = Resolves r) ->
  forall rounds attempt lastError l,
    (List.length errors < rounds)%nat ->
    attempt + Z.of_nat rounds - 1 = maxRetries ->
    (forall i e, nth_error errors i = Some e -> gdm (countOf isCapture l + i)%nat = inl e) ->
    gdm (countOf isCapture l + List.length errors)%nat = inr stream ->
    WindowsAudioCapture.captureRounds h gdm options maxRetries retryDelay
      rounds attempt lastError l
    = (Return (LoopReturned stream),
       GetDisplayMediaCall (WindowsAudioCapture.displayMediaOptions options)
         :: Sleep retryDelay :: EnableCall
         :: (captureTrail (WindowsAudioCapture.displayMediaOptions options) retryDelay errors
               ++ l)%list).
Proof.
  intros Hen Hres.
  induction errors as [| error rest IH]; intros rounds attempt lastError l Hlen Hmax Herr Hok;
    (destruct rounds as [| rounds]; [simpl in Hlen; lia |]); simpl.
  - unfold bind. rewrite (captureRound_run h reply) by assumption.
    simpl in Hok. rewrite Nat.add_0_r in Hok. rewrite Hok. reflexivity.
  - unfold bind at 1. rewrite (captureRound_run h reply) by assumption.
    pose proof (Herr 0%nat error eq_refl) as H0. rewrite Nat.add_0_r in H0. rewrite H0.
    simpl in Hlen.
    assert (Hlt : (attempt <? maxRetries) = true) by (apply Z.ltb_lt; lia).
    rewrite Hlt.
    rewrite (IH rounds (attempt + 1) (Some error)).
    + now rewrite <- app_assoc.
    + lia.
    + lia.
    + intros i e Hi. rewrite countOf_capture_failedRound.
      replace (S (countOf isCapture l) + i)%nat with (countOf isCapture l + S i)%nat by lia.
      now apply Herr.
    + rewrite countOf_capture_failedRound. simpl in Hok.
      now replace (S (countOf isCapture l) + List.length rest)%nat
        with (countOf isCapture l + S (List.length rest))%nat by lia.
Qed.

(** X3 -- With an enable call that resolves every time, the capture loop
    returns the first stream [getDisplayMedia] yields: after the failures
    [errors] (fewer than [maxRetries]) it has made one capture call per
    failure plus one, each preceded by one enable call and the activation
    wait, each failure followed by its backoff, and nothing after the
    successful call. *)
Theorem capture_returns_first_stream :
  forall h reply gdm options (maxRetries retryDelay : Z) (l : Log)
         (errors : list JsError) (stream : MediaStream),
    enableLoopbackAudio h = Some reply ->
    (forall n, exists r, reply n = Resolves r) ->
    getDisplayMedia h = Some gdm ->
    (List.length errors < Z.to_nat maxRetries)%nat ->
    (forall i e, nth_error errors i = Some e -> gdm (countOf isCapture l + i)%nat = inl e) ->
    gdm (countOf isCapture l + List.length errors)%nat = inr stream ->
    WindowsAudioCapture.captureSystemAudioWindows h options maxRetries retryDelay l
    = (Return stream,
       GetDisplayMediaCall (WindowsAudioCapture.displayMediaOptions options)
         :: Sleep retryDelay :: EnableCall
         :: (captureTrail (WindowsAudioCapture.displayMediaOptions options) retryDelay errors
               ++ l)%list).
Proof.
  intros h reply gdm options maxRetries retryDelay l errors stream Hen Hres Hgdm Hlen Herr Hok.
  unfold WindowsAudioCapture.captureSystemAudioWindows. rewrite Hgdm. unfold bind.
  rewrite (captureRounds_first_stream h reply gdm options maxRetries retryDelay stream errors);
    auto.
  lia.
Qed.

Lemma capture_returns_first_stream_witness :
  WindowsAudioCapture.captureSystemAudioWindows thirdTimeLucky defaultOptions 3 500 []
  = (Return screenAndSound,
     GetDisplayMediaCall (WindowsAudioCapture.displayMediaOptions defaultOptions)
       :: Sleep 500 :: EnableCall
       :: (captureTrail (WindowsAudioCapture.displayMediaOptions defaultOptions) 500
             [notSupportedError; notSupportedError] ++ [])%list).
Proof.
  apply (capture_returns_first_stream thirdTimeLucky (fun _ => Resolves None)
           (fun n => if Nat.ltb n 2 then inl notSupportedError else inr screenAndSound)
           defaultOptions 3 500 [] [notSupportedError; notSupportedError] screenAndSound).
  - reflexivity.
  - intro n. now exists None.
  - reflexivity.
  - simpl. lia.
  - intros i e Hi. destruct i as [| [| i]]; simpl in Hi.
    + inversion Hi. reflexivity.
    + inversion Hi. reflexivity.
    + destruct i; discriminate Hi.
  - reflexivity.
Defined.

(** The waits of that scenario, in order: activation, long backoff,
    activation, long backoff, activation. *)
Example third_time_lucky_waits :
  sleeps (snd (WindowsAudioCapture.captureSystemAudioWindows thirdTimeLucky defaultOptions
                 3 500 []))
  = [500; 1000; 500; 1000; 500].
Proof. vm_compute. reflexivity. Qed.

(** ** Audio tracks of the returned stream *)

Lemma remove_after_stop (id : nat) (ms : MediaStream) :
  removeTrack id (stopTrack id ms) = removeTrack id ms.
Proof.
  unfold removeTrack, stopTrack.
  induction ms as [| t rest IH]; simpl; [reflexivity |].
  destruct (Nat.eqb (track_id t) id) eqn:E; simpl.
  - rewrite E. simpl. exact IH.
  - rewrite E. simpl. now rewrite IH.
Qed.

Lemma stopAndRemove_run (videoTracks : list Track) :
  forall displayStream l,
    fst (WindowsAudioCapture.stopAndRemove videoTracks displayStream l)
    = Return (filter (fun t => negb (existsb (fun v => Nat.eqb (track_id t) (track_id v))
                                       videoTracks))
                displayStream).
Proof.
  induction videoTracks as [| v rest IH]; intros displayStream l; simpl.
  - f_equal. induction displayStream as [| t ts IHt]; simpl; [reflexivity | now rewrite <- IHt].
  - unfold bind, emit, modify. simpl. rewrite IH. rewrite remove_after_stop.
    f_equal. unfold removeTrack.
    induction displayStream as [| t ts IHt]; simpl; [reflexivity |].
    destruct (Nat.eqb (track_id t) (track_id v)); simpl; [exact IHt |].
    destruct (existsb _ rest); simpl; [exact IHt | now rewrite IHt].
Qed.

Lemma video_ids_of_unique_stream (ms : MediaStream) :
  NoDup (map track_id ms) ->
  forall t, In t ms ->
    existsb (fun v => Nat.eqb (track_id t) (track_id v)) (filter isVideo ms) = isVideo t.
Proof.
  intros Hnd t Hin.
  destruct (existsb _ (filter isVideo ms)) eqn:E.
  - apply existsb_exists in E. destruct E as [v [Hv Heq]].
    apply filter_In in Hv. destruct Hv as [Hvin Hvideo].
    apply Nat.eqb_eq in Heq.
    assert (t = v); [| now subst].
    clear Hvideo. induction ms as [| x xs IH]; [destruct Hin |].
    simpl in Hnd. inversion Hnd as [| ? ? Hnotin Hnd']; subst.
    destruct Hin as [-> | Hin], Hvin as [-> | Hvin]; auto.
    + exfalso. apply Hnotin. rewrite Heq. now apply in_map.
    + exfalso. apply Hnotin. rewrite <- Heq. now apply in_map.
  - destruct (isVideo t) eqn:V; [| reflexivity].
    assert (Hex : existsb (fun v => Nat.eqb (track_id t) (track_id v)) (filter isVideo ms) = true).
    { apply existsb_exists. exists t. split; [now apply filter_In | apply Nat.eqb_refl]. }
    congruence.
Qed.

(** X4 -- When [captureSystemAudioWindows] hands over a stream whose tracks have
    distinct ids, [captureWindowsSystemAudio] returns exactly its audio
    tracks, in order and not stopped. *)
Theorem windows_capture_returns_the_audio_tracks :
  forall h options l displayStream l1,
    WindowsAudioCapture.isWindows h = true ->
    WindowsAudioCapture.captureSystemAudioWindows h options 3 500 l
      = (Return displayStream, l1) ->
    NoDup (map track_id displayStream) ->
    fst (WindowsAudioCapture.captureWindowsSystemAudio h options l)
    = Return (getAudioTracks displayStream).
Proof.
  intros h options l displayStream l1 Hwin C Hnd.
  unfold WindowsAudioCapture.captureWindowsSystemAudio.
  rewrite Hwin. change (negb true) with false. cbv iota.
  unfold tryAssignCatch, tryCatch. rewrite C.
  pose proof (stopAndRemove_run (getVideoTracks displayStream) displayStream l1) as R.
  destruct (WindowsAudioCapture.stopAndRemove (getVideoTracks displayStream) displayStream l1)
    as [[a | e] l2]; simpl in R; [| discriminate R].
  inversion R; subst. simpl. f_equal.
  unfold getAudioTracks, getVideoTracks.
  apply filter_ext_in. intros t Hin.
  rewrite (video_ids_of_unique_stream displayStream Hnd t Hin). reflexivity.
Qed.

Lemma windows_capture_returns_the_audio_tracks_witness :
  fst (WindowsAudioCapture.captureWindowsSystemAudio workingWindows defaultOptions [])
  = Return (getAudioTracks screenAndSound).
Proof.
  apply (windows_capture_returns_the_audio_tracks workingWindows defaultOptions []
           screenAndSound
           (snd (WindowsAudioCapture.captureSystemAudioWindows workingWindows defaultOptions
                   3 500 []))).
  - reflexivity.
  - reflexivity.
  - simpl. repeat constructor; simpl; intuition discriminate.
Defined.

(** ** The renderer's entry point *)

(** X5 -- [captureSystemAudio] takes the Windows path exactly when the helper's
    own [isWindows] holds, whatever [navigator.platform] is, so the
    helper's platform guard and the renderer's dispatch never disagree. *)
Theorem platform_dispatch_matches_helper_guard :
  forall h l,
    MeetingsRenderer.captureSystemAudio h l
    = if WindowsAudioCapture.isWindows h
      then MeetingsRenderer.captureSystemAudioWindows h l
      else MeetingsRenderer.captureSystemAudioMacOS h l.
Proof.
  intros h l. unfold MeetingsRenderer.captureSystemAudio.
  destruct (WindowsAudioCapture.isWindows h) eqn:W.
  - apply detectPlatform_windows in W. now rewrite W.
  - destruct (String.eqb (MeetingsRenderer.detectPlatform h) "windows") eqn:E; [| reflexivity].
    apply String.eqb_eq, detectPlatform_windows in E. congruence.
Qed.

(** X6 -- On Windows, an error of the capture loop comes out of
    [captureSystemAudio] unchanged, after [disableLoopbackAudioSafe] has
    run twice (once in the helper's catch block, once in the renderer's);
    a disable call that is rejected or missing does not replace it. *)
Theorem renderer_rethrows_capture_error :
  forall h l e l1,
    WindowsAudioCapture.isWindows h = true ->
    helperLoaded h = true ->
    WindowsAudioCapture.captureSystemAudioWindows h defaultOptions 3 500 l = (Throw e, l1) ->
    MeetingsRenderer.captureSystemAudio h l
    = (Throw e,
       match disableLoopbackAudio h with
       | Some _ => DisableCall :: DisableSafeCall :: DisableCall :: DisableSafeCall :: l1
       | None => DisableSafeCall :: DisableSafeCall :: l1
       end).
Proof.
  intros h l e l1 Hwin Hloaded C.
  unfold MeetingsRenderer.captureSystemAudio.
  apply detectPlatform_windows in Hwin as Hplat. rewrite Hplat.
  change (String.eqb "windows" "windows") with true. cbv iota.
  unfold MeetingsRenderer.captureSystemAudioWindows. rewrite Hloaded.
  change (negb true) with false. cbv iota.
  unfold tryCatch, WindowsAudioCapture.captureWindowsSystemAudio. rewrite Hwin.
  change (negb true) with false. cbv iota.
  unfold tryAssignCatch. unfold defaultOptions in C. rewrite C.
  unfold WindowsAudioCapture.cleanupAndRethrow, bind, ret, when, throw.
  rewrite !disableLoopbackAudioSafe_run.
  destruct (disableLoopbackAudio h); reflexivity.
Qed.

Lemma renderer_rethrows_capture_error_witness :
  MeetingsRenderer.captureSystemAudio (windowsFailingWith notSupportedError) []
  = (Throw (newError WindowsAudioCapture.notSupportedHelp),
     match disableLoopbackAudio (windowsFailingWith notSupportedError) with
     | Some _ =>
         DisableCall :: DisableSafeCall :: DisableCall :: DisableSafeCall
           :: snd (WindowsAudioCapture.captureSystemAudioWindows
                     (windowsFailingWith notSupportedError) defaultOptions 3 500 [])
     | None =>
         DisableSafeCall :: DisableSafeCall
           :: snd (WindowsAudioCapture.captureSystemAudioWindows
                     (windowsFailingWith notSupportedError) defaultOptions 3 500 [])
     end).
Proof.
  apply (renderer_rethrows_capture_error (windowsFailingWith notSupportedError) []
           (newError WindowsAudioCapture.notSupportedHelp)
           (snd (WindowsAudioCapture.captureSystemAudioWindows
                   (windowsFailingWith notSupportedError) defaultOptions 3 500 [])));
    reflexivity.
Defined.

(** ** The macOS and Linux path *)


(** X7 -- When [getDisplayMedia] rejects on the macOS/Linux path, the error
    propagates at once and [disableLoopbackAudio] is never called: the
    intercept enabled just before stays enabled. *)
Theorem macos_capture_failure_leaves_intercept_on :
  forall h reply gdm l e,
    enableLoopbackAudio h = Some reply ->
    (exists r, reply (countOf isEnable l) = Resolves r) ->
    getDisplayMedia h = Some gdm ->
    gdm (countOf isCapture l) = inl e ->
    MeetingsRenderer.captureSystemAudioMacOS h l
    = (Throw e, GetDisplayMediaCall macOptions :: EnableCall :: l).
Proof.
  intros h reply gdm l e Hen [r Hr] Hgdm He.
  unfold MeetingsRenderer.captureSystemAudioMacOS. rewrite Hen, Hgdm.
  unfold bind. rewrite callEnable_run, Hr. unfold ret.
  rewrite callGetDisplayMedia_run.
  change (countOf isCapture (EnableCall :: l)) with (countOf isCapture l).
  rewrite He. reflexivity.
Qed.

Lemma macos_capture_failure_leaves_intercept_on_witness :
  MeetingsRenderer.captureSystemAudioMacOS macCaptureRefused []
  = (Throw (mkJsError "NotAllowedError" "Permission denied"),
     [GetDisplayMediaCall macOptions; EnableCall]).
Proof.
  apply (macos_capture_failure_leaves_intercept_on macCaptureRefused
           (fun _ => Resolves None)
           (fun _ => inl (mkJsError "NotAllowedError" "Permission denied")) []
           (mkJsError "NotAllowedError" "Permission denied")).
  - reflexivity.
  - now exists None.
  - reflexivity.
  - reflexivity.
Defined.

Lemma stopAndThenRemove_log (videoTracks : list Track) :
  forall displayStream l,
    snd (MeetingsRenderer.stopAndThenRemove videoTracks displayStream l)
    = (rev (map (fun t => TrackStopped (track_id t)) videoTracks) ++ l)%list.
Proof.
  induction videoTracks as [| v rest IH]; intros displayStream l; simpl; [reflexivity |].
  unfold bind, emit, modify. simpl. rewrite IH. now rewrite <- app_assoc.
Qed.

(** X8 -- A successful run of the macOS/Linux path calls enable, capture and
    disable exactly once each, in that order, and then stops each video
    track of the captured stream once, in stream order. *)
Theorem macos_capture_brackets_the_call :
  forall h gdm l stream l',
    getDisplayMedia h = Some gdm ->
    MeetingsRenderer.captureSystemAudioMacOS h l = (Return stream, l') ->
    exists displayStream,
      gdm (countOf isCapture l) = inr displayStream
      /\ l' = (rev (map (fun t => TrackStopped (track_id t)) (getVideoTracks displayStream))
               ++ DisableCall :: GetDisplayMediaCall macOptions :: EnableCall :: l)%list.
Proof.
  intros h gdm l stream l' Hgdm H.
  unfold MeetingsRenderer.captureSystemAudioMacOS in H. rewrite Hgdm in H.
  destruct (enableLoopbackAudio h) as [en |]; [| discriminate H].
  cbv [bind] in H. rewrite callEnable_run in H.
  destruct (en _); [| discriminate H].
  cbv [ret] in H. rewrite callGetDisplayMedia_run in H.
  change (countOf isCapture (EnableCall :: l)) with (countOf isCapture l) in H.
  destruct (gdm (countOf isCapture l)) as [e | displayStream]; [discriminate H |].
  exists displayStream. split; [reflexivity |].
  destruct (disableLoopbackAudio h) as [dis |]; [| discriminate H].
  rewrite callDisable_run in H.
  destruct (dis _); [| discriminate H].
  match type of H with
  | MeetingsRenderer.stopAndThenRemove ?v ?d ?l0 = _ =>
      pose proof (stopAndThenRemove_log v d l0) as L
  end.
  rewrite H in L. simpl in L. exact L.
Qed.

Lemma macos_capture_brackets_the_call_witness :
  exists displayStream,
    (fun _ : nat => @inr JsError MediaStream screenAndSound) (countOf isCapture []) = inr displayStream
    /\ snd (MeetingsRenderer.captureSystemAudioMacOS workingMac [])
       = (rev (map (fun t => TrackStopped (track_id t)) (getVideoTracks displayStream))
            ++ DisableCall :: GetDisplayMediaCall macOptions :: EnableCall :: [])%list.
Proof.
  apply (macos_capture_brackets_the_call workingMac (fun _ => inr screenAndSound) []
           (fst (stopTrack 2 screenAndSound, tt))
           (snd (MeetingsRenderer.captureSystemAudioMacOS workingMac []))); reflexivity.
Defined.

(** * Further properties of the sessions *)

(** X9 -- A second [stop()] right after a first changes nothing and closes
    nothing. *)
Theorem stop_is_idempotent :
  forall st : Session.State,
    Session.stop (snd (Session.stop st)) = (Return tt, snd (Session.stop st)).
Proof.
  intro st. destruct (stop_clears st) as [effs E]. rewrite E. reflexivity.
Qed.

Lemma stopEvery_effects (tracks : list Track) :
  forall st,
    Session.stopEvery tracks st
    = (Return tt,
       Session.mkState (Session.this st)
         (rev (map (fun t => Session.StreamTrackStopped (track_id t)) tracks)
            ++ Session.effects st)%list).
Proof.
  induction tracks as [| t rest IH]; intro st; simpl.
  - now destruct st.
  - unfold bind, Session.effect, modify. simpl. rewrite IH. simpl.
    now rewrite <- app_assoc.
Qed.

Lemma stop_effects (st : Session.State) :
  Session.effects (snd (Session.stop st))
  = (match Session.ms (Session.this st) with
     | Some stream => rev (map (fun t => Session.StreamTrackStopped (track_id t)) stream)
     | None => []
     end
     ++ match Session.pc (Session.this st) with
        | Some _ => [Session.PeerConnectionClosed]
        | None => []
        end
     ++ match Session.dc (Session.this st) with
        | Some _ => [Session.DataChannelClosed]
        | None => []
        end
     ++ Session.effects st)%list.
Proof.
  destruct st as [[key label token stream conn chan mu] effs].
  unfold Session.stop, bind, get, Session.update, Session.effect, modify, ret.
  cbn -[Session.stopEvery].
  destruct chan, conn, stream as [stream |]; cbn -[Session.stopEvery];
    try rewrite stopEvery_effects; cbn -[Session.stopEvery]; reflexivity.
Qed.

Lemma prepareOffer_run rtc (t : Track) (rest : MediaStream) (offer : string)
    (st : Session.State) :
  Session.newRTCPeerConnection rtc = None ->
  Session.addTrack rtc = None ->
  Session.createDataChannel rtc = None ->
  snd (Session.prepareOffer rtc (t :: rest) st)
  = Session.mkState
      (Session.mkSession (Session.apiKey (Session.this st))
         (Session.streamType (Session.this st))
         (Session.useSessionToken (Session.this st))
         (Some (t :: rest)) (Some (Session.mkPeerConnection [track_id t])) (Some tt)
         (Session.muted (Session.this st)))
      (Session.effects st).
Proof.
  intros Hc Ha Hd. unfold Session.prepareOffer. rewrite Hc, Ha, Hd.
  unfold bind, Session.update, Session.failing, Session.awaiting, modify, ret, throw. simpl.
  destruct (Session.createOffer rtc) as [e | o]; [reflexivity |].
  destruct (Session.setLocalDescription rtc); reflexivity.
Qed.

(** X10 -- When the statements before the [try] succeed, the session holds the
    stream it was given, a connection carrying exactly the first track of
    that stream, and the data channel; no request has been sent yet. *)
Theorem start_attaches_the_first_track :
  forall rtc stream st offer st1,
    Session.prepareOffer rtc stream st = (Return offer, st1) ->
    exists t rest,
      stream = t :: rest
      /\ Session.ms (Session.this st1) = Some stream
      /\ Session.pc (Session.this st1) = Some (Session.mkPeerConnection [track_id t])
      /\ Session.dc (Session.this st1) = Some tt
      /\ Session.effects st1 = Session.effects st.
Proof.
  intros rtc stream st offer st1 H.
  assert (Hsnd : snd (Session.prepareOffer rtc stream st) = st1) by now rewrite H.
  unfold Session.prepareOffer in H.
  unfold bind, Session.update, Session.failing, Session.awaiting, modify, ret, throw in H.
  simpl in H.
  destruct (Session.newRTCPeerConnection rtc) eqn:Hc; [discriminate H |].
  destruct stream as [| t rest]; [discriminate H |].
  destruct (Session.addTrack rtc) eqn:Ha; [discriminate H |].
  destruct (Session.createDataChannel rtc) eqn:Hd; [discriminate H |].
  rewrite (prepareOffer_run rtc t rest offer st Hc Ha Hd) in Hsnd. subst st1.
  exists t, rest. repeat split; reflexivity.
Qed.

Lemma start_attaches_the_first_track_witness :
  exists t rest,
    screenAndSound = t :: rest
    /\ Session.ms (Session.this (snd (Session.prepareOffer workingRtc screenAndSound freshMicrophone)))
       = Some screenAndSound
    /\ Session.pc (Session.this (snd (Session.prepareOffer workingRtc screenAndSound freshMicrophone)))
       = Some (Session.mkPeerConnection [track_id t])
    /\ Session.dc (Session.this (snd (Session.prepareOffer workingRtc screenAndSound freshMicrophone)))
       = Some tt
    /\ Session.effects (snd (Session.prepareOffer workingRtc screenAndSound freshMicrophone))
       = Session.effects freshMicrophone.
Proof.
  apply (start_attaches_the_first_track workingRtc screenAndSound freshMicrophone "v=0 offer").
  reflexivity.
Defined.

(** X11 -- When [createOffer] or [setLocalDescription] rejects, [startInternal]
    rejects but the session keeps the stream, the connection and the data
    channel it had already set; a later [stop()] closes the channel, then
    the connection, and stops every track of the stream. *)
Theorem rejected_start_keeps_handles_until_stop :
  forall rtc (t : Track) (rest : MediaStream) e onerror tokenEndpoint st,
    Session.newRTCPeerConnection rtc = None ->
    Session.addTrack rtc = None ->
    Session.createDataChannel rtc = None ->
    (Session.createOffer rtc = inl e
     \/ exists offer, Session.createOffer rtc = inr offer
                      /\ Session.setLocalDescription rtc = Some e) ->
    let st1 := snd (Session.startInternal rtc onerror (t :: rest) tokenEndpoint st) in
    fst (Session.startInternal rtc onerror (t :: rest) tokenEndpoint st) = Throw e
    /\ Session.ms (Session.this st1) = Some (t :: rest)
    /\ Session.pc (Session.this st1) = Some (Session.mkPeerConnection [track_id t])
    /\ Session.dc (Session.this st1) = Some tt
    /\ Session.effects (snd (Session.stop st1))
       = (releaseEffects (t :: rest) ++ Session.effects st)%list.
Proof.
  intros rtc t rest e onerror tokenEndpoint st Hc Ha Hd Hfail st1.
  assert (F : failsBeforeSignaling rtc (t :: rest) e).
  { destruct Hfail as [Ho | [offer [Ho Hl]]].
    - apply CreateOfferFails; auto. discriminate.
    - apply (SetLocalDescriptionFails rtc (t :: rest) e offer); auto. discriminate. }
  destruct (prepareOffer_failure rtc (t :: rest) e F st) as [st' E].
  assert (Hst1 : st1 = snd (Session.prepareOffer rtc (t :: rest) st)).
  { subst st1. unfold Session.startInternal, bind. now rewrite E. }
  assert (Hfst : fst (Session.startInternal rtc onerror (t :: rest) tokenEndpoint st) = Throw e).
  { unfold Session.startInternal, bind. now rewrite E. }
  rewrite (prepareOffer_run rtc t rest "" st Hc Ha Hd) in Hst1.
  clearbody st1. subst st1.
  split; [exact Hfst |]. repeat split.
  rewrite stop_effects. simpl Session.ms. simpl Session.pc. simpl Session.dc.
  cbv iota. unfold releaseEffects. now rewrite <- !app_assoc.
Qed.

Lemma rejected_start_keeps_handles_until_stop_witness :
  let st1 := snd (Session.startInternal offerFailsRtc None screenAndSound
                    "/v1/realtime/transcription_sessions" freshMicrophone) in
  fst (Session.startInternal offerFailsRtc None screenAndSound
         "/v1/realtime/transcription_sessions" freshMicrophone)
  = Throw (mkJsError "InvalidStateError" "closed")
  /\ Session.ms (Session.this st1) = Some screenAndSound
  /\ Session.pc (Session.this st1) = Some (Session.mkPeerConnection [1%nat])
  /\ Session.dc (Session.this st1) = Some tt
  /\ Session.effects (snd (Session.stop st1))
     = (releaseEffects screenAndSound ++ Session.effects freshMicrophone)%list.
Proof.
  apply (rejected_start_keeps_handles_until_stop offerFailsRtc
           (mkTrack 1 AudioTrack Live true) [mkTrack 2 VideoTrack Live true]
           (mkJsError "InvalidStateError" "closed") None
           "/v1/realtime/transcription_sessions" freshMicrophone);
    try reflexivity.
  left. reflexivity.
Defined.

(** X12 -- [mute(flag)] never closes or releases anything, and it records the
    flag in [this.muted] even on the runs in which it then throws. *)
Theorem mute_only_touches_the_flag_and_the_tracks :
  forall (flag : bool) (st : Session.State),
    let st' := snd (Session.mute flag st) in
    Session.muted (Session.this st') = flag
    /\ Session.pc (Session.this st') = Session.pc (Session.this st)
    /\ Session.dc (Session.this st') = Session.dc (Session.this st)
    /\ Session.effects st' = Session.effects st
    /\ option_map (map track_id) (Session.ms (Session.this st'))
       = option_map (map track_id) (Session.ms (Session.this st)).
Proof.
  intros flag [[key label token stream conn chan mu] effs].
  unfold Session.mute, bind, get, Session.update, modify. simpl.
  destruct conn as [conn |]; simpl; repeat split.
  destruct stream as [stream |]; simpl; [| reflexivity].
  f_equal. unfold Session.setEnabled. rewrite map_map. apply map_ext.
  intro t. now destruct (existsb _ _).
Qed.

(** ** Signaling *)

(** X13 -- In the token-brokered mode the SDP endpoint is contacted only after
    the token request gave a usable token: otherwise [signal] throws after
    the one request to the token endpoint. *)
Theorem sdp_exchange_follows_usable_token :
  forall rtc offer tokenEndpoint st,
    Session.useSessionToken (Session.this st) = true ->
    Session.effects (snd (Session.signal rtc offer tokenEndpoint st))
    = (if tokenUsable rtc
       then Session.FetchCall Session.realtimeUrl
              :: Session.FetchCall (Session.urlRoot ++ tokenEndpoint) :: Session.effects st
       else Session.FetchCall (Session.urlRoot ++ tokenEndpoint) :: Session.effects st)
    /\ (tokenUsable rtc = false ->
        exists e, fst (Session.signal rtc offer tokenEndpoint st) = Throw e).
Proof.
  intros rtc offer tokenEndpoint [[key label token stream conn chan mu] effs] Htoken.
  simpl in Htoken. subst token.
  unfold Session.signal, tokenUsable.
  unfold bind, get, Session.effect, Session.awaiting, modify, ret, throw.
  cbn -[Session.urlRoot Session.realtimeUrl append].
  destruct (Session.fetchSession rtc) as [e | response]; simpl; [split; eauto |].
  destruct (Session.ok response); simpl; [| split; eauto].
  destruct (Session.json response) as [e | data]; simpl; [split; eauto |].
  destruct (Session.client_secret data); simpl; [| split; eauto].
  split; [| discriminate].
  destruct (Session.fetchRealtime rtc) as [e | sdpResponse]; simpl; [reflexivity |].
  destruct (Session.ok sdpResponse); simpl; [| reflexivity].
  destruct (Session.text sdpResponse); reflexivity.
Qed.

Lemma sdp_exchange_follows_usable_token_witness :
  Session.effects (snd (Session.signal tokenRefusedRtc "v=0 offer"
                          "/v1/realtime/transcription_sessions" freshMicrophone))
  = (if tokenUsable tokenRefusedRtc
     then Session.FetchCall Session.realtimeUrl
            :: Session.FetchCall (Session.urlRoot ++ "/v1/realtime/transcription_sessions")
            :: Session.effects freshMicrophone
     else Session.FetchCall (Session.urlRoot ++ "/v1/realtime/transcription_sessions")
            :: Session.effects freshMicrophone)
  /\ (tokenUsable tokenRefusedRtc = false ->
      exists e, fst (Session.signal tokenRefusedRtc "v=0 offer"
                       "/v1/realtime/transcription_sessions" freshMicrophone) = Throw e).
Proof.
  apply (sdp_exchange_follows_usable_token tokenRefusedRtc "v=0 offer"
           "/v1/realtime/transcription_sessions" freshMicrophone).
  reflexivity.
Defined.

(** X14 -- In either mode [signal] returns only [{type: "answer", sdp}] whose
    [sdp] is the body of an SDP response with [ok] set; its last request
    went to the realtime URL and the session's fields are untouched. *)
Theorem signal_answer_is_the_sdp_body :
  forall rtc offer tokenEndpoint st answer st',
    Session.signal rtc offer tokenEndpoint st = (Return answer, st') ->
    Session.answer_type answer = "answer"
    /\ (exists response,
          Session.fetchRealtime rtc = inr response
          /\ Session.ok response = true
          /\ Session.text response = inr (Session.sdp answer))
    /\ Session.this st' = Session.this st
    /\ exists earlier, Session.effects st' = Session.FetchCall Session.realtimeUrl :: earlier.
Proof.
  intros rtc offer tokenEndpoint [[key label token stream conn chan mu] effs] answer st' H.
  unfold Session.signal in H.
  unfold bind, get, Session.effect, Session.awaiting, modify, ret, throw in H.
  cbn -[Session.urlRoot Session.realtimeUrl append] in H.
  destruct token.
  - destruct (Session.fetchSession rtc) as [e | response]; [discriminate H |].
    destruct (Session.ok response); [| discriminate H]. cbn -[Session.urlRoot Session.realtimeUrl append] in H.
    destruct (Session.json response) as [e | data]; [discriminate H |].
    destruct (Session.client_secret data); [| discriminate H].
    cbn -[Session.urlRoot Session.realtimeUrl append] in H.
    destruct (Session.fetchRealtime rtc) as [e | sdpResponse]; [discriminate H |].
    destruct (Session.ok sdpResponse) eqn:Hok; [| discriminate H].
    cbn -[Session.urlRoot Session.realtimeUrl append] in H.
    destruct (Session.text sdpResponse) as [e | body] eqn:Htext; [discriminate H |].
    inversion H; subst. cbn [Session.answer_type Session.sdp Session.this Session.effects].
    split; [reflexivity |]. split; [exists sdpResponse; auto |].
    split; [reflexivity | eauto].
  - destruct (Session.fetchRealtime rtc) as [e | sdpResponse]; [discriminate H |].
    destruct (Session.ok sdpResponse) eqn:Hok; [| discriminate H].
    cbn -[Session.urlRoot Session.realtimeUrl append] in H.
    destruct (Session.text sdpResponse) as [e | body] eqn:Htext; [discriminate H |].
    inversion H; subst. cbn [Session.answer_type Session.sdp Session.this Session.effects].
    split; [reflexivity |]. split; [exists sdpResponse; auto |].
    split; [reflexivity | eauto].
Qed.

Lemma signal_answer_is_the_sdp_body_witness :
  Session.answer_type (Session.mkAnswer "answer" "v=0 answer") = "answer"
  /\ (exists response,
        Session.fetchRealtime workingRtc = inr response
        /\ Session.ok response = true
        /\ Session.text response = inr (Session.sdp (Session.mkAnswer "answer" "v=0 answer")))
  /\ Session.this (snd (Session.signal workingRtc "v=0 offer" "/v1/realtime/sessions"
                          directMicrophone))
     = Session.this directMicrophone
  /\ exists earlier,
       Session.effects (snd (Session.signal workingRtc "v=0 offer" "/v1/realtime/sessions"
                               directMicrophone))
       = Session.FetchCall Session.realtimeUrl :: earlier.
Proof.
  apply (signal_answer_is_the_sdp_body workingRtc "v=0 offer" "/v1/realtime/sessions"
           directMicrophone (Session.mkAnswer "answer" "v=0 answer")
           (snd (Session.signal workingRtc "v=0 offer" "/v1/realtime/sessions"
                   directMicrophone))).
  reflexivity.
Defined.

(** * Further properties of the message handlers *)

Section Handlers.

Context {num : Type}.
Variable zero : num.
Variable sub : num -> num -> num.
Variable toFixed0 : num -> string.

Local Abbreviation G := (@Globals num).
Local Abbreviation run := (deliverAll sub toFixed0).

Lemma handleMicrophoneTranscript_returns (t : Transcript) (g : G) :
  fst (handleMicrophoneTranscript t g) = Return tt.
Proof. unfold handleMicrophoneTranscript. now destruct (hasText t). Qed.

Lemma handleSystemAudioTranscript_returns (t : Transcript) (g : G) :
  fst (handleSystemAudioTranscript t g) = Return tt.
Proof. unfold handleSystemAudioTranscript. now destruct (hasText t). Qed.

(** X15 -- A handler throws only in two situations: a
    [transcription_session.created] message without a [session], and an
    [input_audio_buffer.speech_stopped] message while the role's config is
    null or has no [turn_detection].  Every other message is handled
    without an exception. *)
Theorem handlers_throw_only_without_config :
  forall (ev : Inbound) (g : G) (e : JsError),
    fst (dispatch sub toFixed0 ev g) = Throw e ->
    (type (payload ev) = "transcription_session.created" /\ session (payload ev) = None)
    \/ (type (payload ev) = "input_audio_buffer.speech_stopped"
        /\ (configOf (role ev) g = None
            \/ exists config, configOf (role ev) g = Some config
                              /\ turn_detection config = None)).
Proof.
  intros [r now parsed] [mc sc mv sv mr sr] e H.
  unfold dispatch in H. simpl in *.
  destruct r; simpl;
    unfold handleMicrophoneMessage, handleSystemAudioMessage in H;
    (destruct (String.eqb (type parsed) "transcription_session.created") eqn:E1;
     [apply String.eqb_eq in E1; left; split; [exact E1 |];
      unfold bind, modify, ret, throw in H; simpl in H;
      destruct (session parsed); [discriminate H | reflexivity] |]);
    (destruct (String.eqb (type parsed) "input_audio_buffer.speech_started") eqn:E2;
     [first [rewrite handleMicrophoneTranscript_returns in H
            | rewrite handleSystemAudioTranscript_returns in H]; discriminate H |]);
    (destruct (String.eqb (type parsed) "input_audio_buffer.speech_stopped") eqn:E3;
     [apply String.eqb_eq in E3; right; split; [exact E3 |] |]).
  - unfold bind, get, modify, throw, handleMicrophoneTranscript in H. simpl in H.
    destruct mc as [config |]; [| now left].
    right. exists config. split; [reflexivity |].
    destruct (turn_detection config); [discriminate H | reflexivity].
  - destruct (String.eqb (type parsed) "conversation.item.input_audio_transcription.completed").
    + unfold bind, get in H. simpl in H.
      rewrite handleMicrophoneTranscript_returns in H. discriminate H.
    + discriminate H.
  - unfold bind, get, modify, throw, handleSystemAudioTranscript in H. simpl in H.
    destruct sc as [config |]; [| now left].
    right. exists config. split; [reflexivity |].
    destruct (turn_detection config); [discriminate H | reflexivity].
  - destruct (String.eqb (type parsed) "conversation.item.input_audio_transcription.completed").
    + unfold bind, get in H. simpl in H.
      rewrite handleSystemAudioTranscript_returns in H. discriminate H.
    + discriminate H.
Qed.

(** X16 -- A message of any other type than the four the handlers know returns
    normally and leaves every global as it was. *)
Theorem unknown_message_types_are_ignored :
  forall (ev : Inbound) (g : G),
    handledType (type (payload ev)) = false ->
    dispatch sub toFixed0 ev g = (Return tt, g).
Proof.
  intros [r now parsed] g H. unfold handledType in H.
  apply orb_false_elim in H. destruct H as [H H4].
  apply orb_false_elim in H. destruct H as [H H3].
  apply orb_false_elim in H. destruct H as [H1 H2].
  unfold dispatch. simpl in *.
  destruct r; unfold handleMicrophoneMessage, handleSystemAudioMessage;
    rewrite H1, H2, H3, H4; reflexivity.
Qed.

Ltac results_step HT :=
  first
    [ exists []; split; [reflexivity | constructor]
    | eexists [_]; split;
      [ reflexivity
      | constructor; [| constructor];
        first
          [ split; [reflexivity | left; repeat split; reflexivity]
          | split; [exact HT | right; split; [reflexivity | discriminate]] ] ] ].

Lemma deliver_appends (ev : Inbound) (g : G) (r : Role) :
  exists added,
    resultsOf r (deliver sub toFixed0 g ev) = (added ++ resultsOf r g)%list
    /\ Forall placeholderOrFinal added.
Proof.
  destruct ev as [r' now parsed], g as [mc sc mv sv mr sr].
  unfold deliver, dispatch. simpl.
  destruct r'; unfold handleMicrophoneMessage, handleSystemAudioMessage;
    (destruct (String.eqb (type parsed) "transcription_session.created");
     [unfold bind, modify, ret, throw; simpl; destruct (session parsed), r; simpl;
      exists []; split; (reflexivity || constructor) |]);
    (destruct (String.eqb (type parsed) "input_audio_buffer.speech_started");
     [unfold handleMicrophoneTranscript, handleSystemAudioTranscript, modify; simpl;
      destruct r; simpl; results_step I |]);
    (destruct (String.eqb (type parsed) "input_audio_buffer.speech_stopped");
     [unfold handleMicrophoneTranscript, handleSystemAudioTranscript, bind, get, modify, throw;
      simpl;
      repeat match goal with
             | |- context [match ?x with _ => _ end] => destruct x; simpl
             end;
      destruct r; simpl; results_step I |]);
    (destruct (String.eqb (type parsed) "conversation.item.input_audio_transcription.completed");
     [| destruct r; simpl; exists []; split; (reflexivity || constructor)]);
    unfold handleMicrophoneTranscript, handleSystemAudioTranscript, bind, get, modify, ret;
    simpl;
    match goal with
    | |- context [hasText ?t] => destruct (hasText t) eqn:HT
    end; simpl; destruct r; simpl; results_step HT.
Qed.

(** X17 -- Whatever messages arrive, each role's rendered transcripts only grow
    at the front, and everything added is either the "..." placeholder
    without a latency or a final transcript with non-empty text and a
    latency. *)
Theorem results_are_append_only :
  forall (evs : list Inbound) (g : G) (r : Role),
    exists added,
      resultsOf r (run evs g) = (added ++ resultsOf r g)%list
      /\ Forall placeholderOrFinal added.
Proof.
  unfold deliverAll.
  induction evs as [| ev evs IH]; intros g r; simpl.
  - exists []. split; [reflexivity | constructor].
  - destruct (IH (deliver sub toFixed0 g ev) r) as [later [E1 F1]].
    destruct (deliver_appends ev g r) as [first [E2 F2]].
    exists (later ++ first)%list. split.
    + now rewrite E1, E2, app_assoc.
    + apply Forall_app. now split.
Qed.

Lemma filter_other_role (others : list (@Inbound num)) :
  (forall ev, In ev others -> role ev = SystemAudio) ->
  filter isMicrophone others = [].
Proof.
  induction others as [| ev rest IH]; intro H; simpl; [reflexivity |].
  unfold isMicrophone at 1. rewrite (H ev (or_introl eq_refl)).
  apply IH. intros e He. apply H. now right.
Qed.

Lemma filter_own_role (others : list (@Inbound num)) :
  (forall ev, In ev others -> role ev = Microphone) ->
  filter isSystemAudio others = [].
Proof.
  induction others as [| ev rest IH]; intro H; simpl; [reflexivity |].
  unfold isSystemAudio at 1, isMicrophone at 1. rewrite (H ev (or_introl eq_refl)). simpl.
  apply IH. intros e He. apply H. now right.
Qed.

(** X18 -- End to end, for either role: with the role's config holding a
    [turn_detection], a [speech_stopped] at [t1], then any messages of the
    other role, then the final transcript at [t2] yields the placeholder
    and the final text with latency [t2 - (t1 - silence_duration_ms)]. *)
Theorem latency_is_measured_from_end_of_speech :
  forall (r : Role) (g : G) (t1 t2 : num) (config : SessionConfig) (td : TurnDetection)
         (text : string) (s1 s2 : option SessionConfig) (x1 : option string)
         (others : list Inbound),
    text <> "" ->
    configOf r g = Some config ->
    turn_detection config = Some td ->
    (forall ev, In ev others -> role ev <> r) ->
    resultsOf r
      (run (mkInbound r t1 (mkMessage "input_audio_buffer.speech_stopped" s1 x1)
            :: others
            ++ [mkInbound r t2
                  (mkMessage "conversation.item.input_audio_transcription.completed"
                     s2 (Some text))])%list g)
    = mkTranscript (Some text) false
        (Some (toFixed0 (sub t2 (sub t1 (silence_duration_ms td)))))
      :: mkTranscript (Some "...") true None :: resultsOf r g.
Proof.
  intros r g t1 t2 config td text s1 s2 x1 others Htext Hconfig Htd Hothers.
  apply String.eqb_neq in Htext.
  destruct r; cbn [resultsOf]; cbn [configOf] in Hconfig.
  - assert (Hsys : forall ev, In ev others -> role ev = SystemAudio).
    { intros ev Hin. specialize (Hothers ev Hin). now destruct (role ev). }
    match goal with
    | |- micResults (run ?evs g) = _ =>
        pose proof (microphoneView_filtered sub toFixed0 evs g g eq_refl) as V
    end.
    cbn [filter] in V. unfold isMicrophone at 1 in V. cbn [role] in V.
    rewrite filter_app, (filter_other_role others Hsys) in V.
    cbn [filter app] in V. unfold isMicrophone at 1 in V. cbn [role] in V.
    unfold microphoneView in V. apply (f_equal snd) in V. cbn [snd] in V. rewrite V.
    destruct g as [mc sc mv sv mr sr]. simpl in Hconfig. subst mc.
    unfold deliverAll, deliver, dispatch, handleMicrophoneMessage,
      handleMicrophoneTranscript, hasText, bind, get, modify, ret. simpl.
    rewrite Htd. simpl. rewrite Htext. reflexivity.
  - assert (Hmic : forall ev, In ev others -> role ev = Microphone).
    { intros ev Hin. specialize (Hothers ev Hin). now destruct (role ev). }
    match goal with
    | |- speakerResults (run ?evs g) = _ =>
        pose proof (systemAudioView_filtered sub toFixed0 evs g g eq_refl) as V
    end.
    cbn [filter] in V. unfold isSystemAudio at 1, isMicrophone at 1 in V.
    cbn [role negb] in V.
    rewrite filter_app, (filter_own_role others Hmic) in V.
    cbn [filter app] in V. unfold isSystemAudio at 1, isMicrophone at 1 in V.
    cbn [role negb] in V.
    unfold systemAudioView in V. apply (f_equal snd) in V. cbn [snd] in V. rewrite V.
    destruct g as [mc sc mv sv mr sr]. simpl in Hconfig. subst sc.
    unfold deliverAll, deliver, dispatch, handleSystemAudioMessage,
      handleSystemAudioTranscript, hasText, bind, get, modify, ret. simpl.
    rewrite Htd. simpl. rewrite Htext. reflexivity.
Qed.

End Handlers.

Lemma handlers_throw_only_without_config_witness :
  (type (payload (speechStopped Microphone 3)) = "transcription_session.created"
   /\ session (payload (speechStopped Microphone 3)) = None)
  \/ (type (payload (speechStopped Microphone 3)) = "input_audio_buffer.speech_stopped"
      /\ (configOf (role (speechStopped Microphone 3)) (initialGlobals 0) = None
          \/ exists config,
               configOf (role (speechStopped Microphone 3)) (initialGlobals 0) = Some config
               /\ turn_detection config = None)).
Proof.
  apply (handlers_throw_only_without_config Z.sub showZ (speechStopped Microphone 3)
           (initialGlobals 0) nullTurnDetection).
  reflexivity.
Defined.

Lemma unknown_message_types_are_ignored_witness :
  dispatch Z.sub showZ
    (mkInbound SystemAudio 7 (mkMessage "rate_limits.updated" None None)) (initialGlobals 0)
  = (Return tt, initialGlobals 0).
Proof.
  apply (unknown_message_types_are_ignored Z.sub showZ
           (mkInbound SystemAudio 7 (mkMessage "rate_limits.updated" None None))
           (initialGlobals 0)).
  reflexivity.
Defined.

Lemma latency_is_measured_from_end_of_speech_witness :
  let g := deliverAll Z.sub showZ
             [created Microphone 0 "sess_mic"; created SystemAudio 1 "sess_sys"]
             (initialGlobals 0) in
  resultsOf Microphone
    (deliverAll Z.sub showZ
       (mkInbound Microphone 1000 (mkMessage "input_audio_buffer.speech_stopped" None None)
        :: [speechStopped SystemAudio 5000]
        ++ [mkInbound Microphone 6000
              (mkMessage "conversation.item.input_audio_transcription.completed"
                 None (Some "hello"))])%list g)
  = mkTranscript (Some "hello") false
      (Some (showZ (6000 - (1000 - silence_duration_ms (mkTurnDetection 10)))))
    :: mkTranscript (Some "...") true None :: resultsOf Microphone g.
Proof.
  intro g.
  apply (latency_is_measured_from_end_of_speech Z.sub showZ Microphone g 1000 6000
           (vadConfig "sess_mic") (mkTurnDetection 10) "hello" None None None
           [speechStopped SystemAudio 5000]).
  - discriminate.
  - reflexivity.
  - reflexivity.
  - intros ev [<- | []]. discriminate.
Defined.

(** * The WAV encoder *)

Import MeetingsRenderer.WavRecorder.

Lemma skipn_zeros (n k : nat) : skipn n (repeat 0 (n + k)) = repeat 0 k.
Proof. induction n as [| n IH]; simpl; [reflexivity | exact IH]. Qed.

(** A write right behind what has been written so far fits and extends
    the written part. *)
Lemma setBytes_next (offset : Z) (pre bytes : list Z) (k k' : nat) :
  offset = Z.of_nat (List.length pre) ->
  (List.length bytes + k' = k)%nat ->
  setBytes offset bytes (pre ++ repeat 0 k)%list
  = (Return tt, ((pre ++ bytes) ++ repeat 0 k')%list).
Proof.
  intros Hoff Hk. subst offset k. unfold setBytes.
  rewrite length_app, repeat_length.
  replace ((0 <=? Z.of_nat (List.length pre))
           && (Z.of_nat (List.length pre) + Z.of_nat (List.length bytes)
               <=? Z.of_nat (List.length pre + (List.length bytes + k'))))%bool with true
    by (symmetry; apply andb_true_intro; split; apply Z.leb_le; lia).
  rewrite Nat2Z.id.
  rewrite firstn_app, firstn_all, Nat.sub_diag. simpl firstn. rewrite app_nil_r.
  rewrite skipn_app, skipn_all2 by lia. simpl app.
  replace (List.length pre + List.length bytes - List.length pre)%nat
    with (List.length bytes) by lia.
  rewrite skipn_zeros. now rewrite <- app_assoc.
Qed.

Lemma writeString_next (s : string) :
  forall (offset : Z) (pre : list Z) (k k' : nat),
    offset = Z.of_nat (List.length pre) ->
    (String.length s + k' = k)%nat ->
    writeString offset s (pre ++ repeat 0 k)%list
    = (Return tt, ((pre ++ charCodes s) ++ repeat 0 k')%list).
Proof.
  induction s as [| c rest IH]; intros offset pre k k' Hoff Hk; simpl in *.
  - subst k. unfold charCodes, ret. simpl. now rewrite app_nil_r.
  - unfold bind, setUint8.
    rewrite (setBytes_next offset pre _ k (String.length rest + k'));
      [| assumption | exact Hk].
    rewrite (IH (offset + 1) _ _ k'); [| | reflexivity].
    + unfold charCodes. simpl. rewrite <- !app_assoc. reflexivity.
    + rewrite length_app. simpl. lia.
Qed.

Lemma writeChannels_next (buffer : AudioBuffer) (i : nat) (remaining : nat) :
  forall (channel : nat) (offset : Z) (pre : list Z) (k k' : nat),
    offset = Z.of_nat (List.length pre) ->
    (remaining * 2 + k' = k)%nat ->
    writeChannels buffer i channel remaining offset (pre ++ repeat 0 k)%list
    = (Return (Z.of_nat (List.length (pre ++ frameBytes buffer channel remaining i))),
       ((pre ++ frameBytes buffer channel remaining i) ++ repeat 0 k')%list).
Proof.
  induction remaining as [| remaining IH]; intros channel offset pre k k' Hoff Hk.
  - simpl in *. subst k offset. unfold frameBytes, ret. simpl. now rewrite !app_nil_r.
  - cbn [writeChannels]. unfold bind, setInt16.
    rewrite (setBytes_next offset pre _ k (remaining * 2 + k'));
      [| assumption | simpl in *; lia].
    rewrite (IH (S channel) (offset + 2) _ _ k'); [| | reflexivity].
    + unfold frameBytes. cbn [seq flat_map]. fold (quantize (sampleAt buffer channel i)).
      rewrite <- !app_assoc. reflexivity.
    + rewrite length_app. simpl. lia.
Qed.

Lemma writeFrames_next (buffer : AudioBuffer) (remaining : nat) :
  forall (i : nat) (offset : Z) (pre : list Z) (k k' : nat),
    offset = Z.of_nat (List.length pre) ->
    (remaining * (numberOfChannels buffer * 2) + k' = k)%nat ->
    exists offset',
      writeFrames buffer i remaining offset (pre ++ repeat 0 k)%list
      = (Return offset', ((pre ++ wavSamples buffer i remaining) ++ repeat 0 k')%list).
Proof.
  induction remaining as [| remaining IH]; intros i offset pre k k' Hoff Hk.
  - simpl in *. subst k. exists offset. unfold wavSamples, ret. simpl. now rewrite app_nil_r.
  - cbn [writeFrames]. unfold bind.
    rewrite (writeChannels_next buffer i (numberOfChannels buffer) 0 offset pre k
               (remaining * (numberOfChannels buffer * 2) + k'));
      [| assumption | simpl in Hk; lia].
    destruct (IH (S i) _ (pre ++ frameBytes buffer 0 (numberOfChannels buffer) i)%list
                 (remaining * (numberOfChannels buffer * 2) + k')%nat k' eq_refl eq_refl)
      as [offset' E].
    exists offset'. rewrite E. unfold wavSamples. cbn [seq flat_map].
    rewrite <- !app_assoc. reflexivity.
Qed.

Ltac write_string k' :=
  unfold bind at 1;
  erewrite (writeString_next _ _ _ _ k'); [cbv beta iota | reflexivity | reflexivity].

Ltac write_uint32 k' :=
  unfold bind at 1; unfold setUint32 at 1;
  erewrite (setBytes_next _ _ _ _ k'); [cbv beta iota | reflexivity | reflexivity].

Ltac write_uint16 k' :=
  unfold bind at 1; unfold setUint16 at 1;
  erewrite (setBytes_next _ _ _ _ k'); [cbv beta iota | reflexivity | reflexivity].

(** The writes at computed offsets fill the buffer front to back: the
    result is the header followed by the samples, frame after frame. *)
Lemma audioBufferToWav_bytes (buffer : AudioBuffer) :
  audioBufferToWav buffer
  = Return (wavHeader buffer ++ wavSamples buffer 0 (frames buffer))%list.
Proof.
  unfold audioBufferToWav. cbv zeta.
  set (n := (frames buffer * numberOfChannels buffer * 2)%nat).
  change (repeat 0 (44 + n)) with ([] ++ repeat 0 (44 + n))%list.
  write_string (40 + n)%nat.
  write_uint32 (36 + n)%nat.
  write_string (32 + n)%nat.
  write_string (28 + n)%nat.
  write_uint32 (24 + n)%nat.
  write_uint16 (22 + n)%nat.
  write_uint16 (20 + n)%nat.
  write_uint32 (16 + n)%nat.
  write_uint32 (12 + n)%nat.
  write_uint16 (10 + n)%nat.
  write_uint16 (8 + n)%nat.
  write_string (4 + n)%nat.
  write_uint32 n.
  match goal with
  | |- context [writeFrames buffer 0 (frames buffer) 44 (?pre ++ repeat 0 n)%list] =>
      destruct (writeFrames_next buffer (frames buffer) 0 44 pre n 0) as [offset' E];
      [reflexivity | subst n; lia |]
  end.
  rewrite E. simpl repeat. rewrite app_nil_r.
  unfold wavHeader. cbv zeta. rewrite <- !app_assoc. reflexivity.
Qed.

Lemma decode16 (v : Z) : v mod 256 + 256 * ((v / 256) mod 256) = v mod 65536.
Proof. Z.to_euclidean_division_equations. lia. Qed.

Lemma decode32 (v : Z) :
  (v mod 256 + 256 * ((v / 256) mod 256))
  + 65536 * ((v / 65536) mod 256 + 256 * ((v / 16777216) mod 256))
  = v mod 4294967296.
Proof. Z.to_euclidean_division_equations. lia. Qed.

Lemma signed16 (v : Z) :
  -32768 <= v < 32768 ->
  (if v mod 65536 <? 32768 then v mod 65536 else v mod 65536 - 65536) = v.
Proof.
  intro H.
  destruct (v mod 65536 <? 32768) eqn:E;
    [apply Z.ltb_lt in E | apply Z.ltb_ge in E];
    Z.to_euclidean_division_equations; lia.
Qed.

Lemma length_frameBytes (buffer : AudioBuffer) (count : nat) :
  forall channel i, List.length (frameBytes buffer channel count i) = (count * 2)%nat.
Proof.
  unfold frameBytes.
  induction count as [| count IH]; intros channel i; simpl; [reflexivity |].
  now rewrite IH.
Qed.

Lemma length_wavSamples (buffer : AudioBuffer) (count : nat) :
  forall i,
    List.length (wavSamples buffer i count) = (count * (numberOfChannels buffer * 2))%nat.
Proof.
  unfold wavSamples.
  induction count as [| count IH]; intro i; simpl; [reflexivity |].
  now rewrite length_app, length_frameBytes, IH.
Qed.

Lemma length_wavHeader (buffer : AudioBuffer) : List.length (wavHeader buffer) = 44%nat.
Proof. reflexivity. Qed.

Lemma isByte_mod (v : Z) : isByte (v mod 256).
Proof. unfold isByte. apply Z.mod_pos_bound. lia. Qed.

Lemma bytes_littleEndian16 (v : Z) : Forall isByte (littleEndian16 v).
Proof. repeat constructor; apply isByte_mod. Qed.

Lemma bytes_littleEndian32 (v : Z) : Forall isByte (littleEndian32 v).
Proof. repeat constructor; apply isByte_mod. Qed.

Lemma bytes_charCodes (s : string) : Forall isByte (charCodes s).
Proof.
  unfold charCodes. apply Forall_forall. intros b Hin.
  apply in_map_iff in Hin. destruct Hin as [c [<- _]]. apply isByte_mod.
Qed.

Lemma bytes_wavSamples (buffer : AudioBuffer) (i count : nat) :
  Forall isByte (wavSamples buffer i count).
Proof.
  unfold wavSamples, frameBytes. apply Forall_forall. intros b Hin.
  apply in_flat_map in Hin. destruct Hin as [frame [_ Hin]].
  apply in_flat_map in Hin. destruct Hin as [channel [_ Hin]].
  exact (proj1 (Forall_forall _ _) (bytes_littleEndian16 _) b Hin).
Qed.

(** X19 -- [audioBufferToWav] never runs past the buffer it allocated: for every
    AudioBuffer it returns a file of exactly
    [44 + length * numberOfChannels * 2] bytes, each between 0 and 255. *)
Theorem wav_file_has_the_allocated_size :
  forall buffer : AudioBuffer,
    exists view,
      audioBufferToWav buffer = Return view
      /\ List.length view = (44 + frames buffer * numberOfChannels buffer * 2)%nat
      /\ Forall isByte view.
Proof.
  intro buffer. eexists. split; [apply audioBufferToWav_bytes |]. split.
  - rewrite length_app, length_wavHeader, length_wavSamples. lia.
  - apply Forall_app. split; [| apply bytes_wavSamples].
    unfold wavHeader. cbv zeta.
    repeat (apply Forall_app; split);
      first [apply bytes_charCodes | apply bytes_littleEndian32 | apply bytes_littleEndian16].
Qed.

(** X20 -- Read back little-endian, the header holds the RIFF/WAVE/fmt/data
    tags, PCM format 1 with 16 bits per sample, and the channel count,
    sample rate, byte rate, block align and the two sizes, each reduced
    modulo the width of its field. *)
Theorem wav_header_reads_back :
  forall (buffer : AudioBuffer) (view : list Z),
    audioBufferToWav buffer = Return view ->
    let channels := Z.of_nat (numberOfChannels buffer) in
    let dataSize := Z.of_nat (frames buffer) * channels * 2 in
    firstn 4 view = charCodes "RIFF"
    /\ getUint32 view 4 = (36 + dataSize) mod 4294967296
    /\ firstn 8 (skipn 8 view) = charCodes "WAVEfmt "
    /\ getUint32 view 16 = 16
    /\ getUint16 view 20 = 1
    /\ getUint16 view 22 = channels mod 65536
    /\ getUint32 view 24 = sampleRate buffer mod 4294967296
    /\ getUint32 view 28 = (sampleRate buffer * channels * 2) mod 4294967296
    /\ getUint16 view 32 = (channels * 2) mod 65536
    /\ getUint16 view 34 = 16
    /\ firstn 4 (skipn 36 view) = charCodes "data"
    /\ getUint32 view 40 = dataSize mod 4294967296.
Proof.
  intros buffer view H channels dataSize.
  rewrite audioBufferToWav_bytes in H.
  assert (E : view = (wavHeader buffer ++ wavSamples buffer 0 (frames buffer))%list)
    by congruence.
  clear H. subst view.
  unfold wavHeader. cbv zeta. fold channels. fold dataSize.
  unfold getUint32, getUint16, getUint8, littleEndian32, littleEndian16.
  cbn [app nth firstn skipn Nat.add charCodes map list_ascii_of_string].
  repeat split; first [reflexivity | apply decode16 | apply decode32].
Qed.

Lemma wav_header_reads_back_witness :
  let view := [82; 73; 70; 70; 44; 0; 0; 0; 87; 65; 86; 69; 102; 109; 116; 32; 16;
               0; 0; 0; 1; 0; 2; 0; 128; 187; 0; 0; 0; 238; 2; 0; 4; 0; 16; 0;
               100; 97; 116; 97; 8; 0; 0; 0; 255; 127; 0; 0; 1; 192; 255; 127] in
  let channels := Z.of_nat (numberOfChannels twoFrames) in
  let dataSize := Z.of_nat (frames twoFrames) * channels * 2 in
  firstn 4 view = charCodes "RIFF"
  /\ getUint32 view 4 = (36 + dataSize) mod 4294967296
  /\ firstn 8 (skipn 8 view) = charCodes "WAVEfmt "
  /\ getUint32 view 16 = 16
  /\ getUint16 view 20 = 1
  /\ getUint16 view 22 = channels mod 65536
  /\ getUint32 view 24 = sampleRate twoFrames mod 4294967296
  /\ getUint32 view 28 = (sampleRate twoFrames * channels * 2) mod 4294967296
  /\ getUint16 view 32 = (channels * 2) mod 65536
  /\ getUint16 view 34 = 16
  /\ firstn 4 (skipn 36 view) = charCodes "data"
  /\ getUint32 view 40 = dataSize mod 4294967296.
Proof.
  intro view.
  apply (wav_header_reads_back twoFrames view).
  vm_compute. reflexivity.
Defined.

(** ** Samples *)

Lemma clamp_bounds (q : Q) :
  let c := (if Qle_bool (-1) (if Qle_bool q 1 then q else 1)
            then (if Qle_bool q 1 then q else 1) else -1)%Q in
  (-1 <= c)%Q /\ (c <= 1)%Q.
Proof.
  simpl.
  destruct (Qle_bool q 1) eqn:E1.
  - apply Qle_bool_iff in E1.
    destruct (Qle_bool (-1) q) eqn:E2.
    + apply Qle_bool_iff in E2. now split.
    + split; [apply Qle_refl | discriminate].
  - change (Qle_bool (-1) 1)%Q with true. cbv iota. split; [discriminate | apply Qle_refl].
Qed.

(** The stored sample never leaves [-32767, 32767]: the clamp keeps the
    16-bit conversion from wrapping, and -32768 is never produced. *)
Lemma quantize_range (x : Sample) : -32767 <= quantize x <= 32767.
Proof.
  unfold quantize.
  destruct x as [q | | |]; unfold min1, maxMinus1, times0x7FFF, toInteger;
    try (vm_compute; split; discriminate).
  destruct (clamp_bounds q) as [Hlo Hhi]. simpl in Hlo, Hhi.
  set (c := (if Qle_bool (-1) (if Qle_bool q 1 then q else 1)
             then (if Qle_bool q 1 then q else 1) else -1)%Q) in *.
  assert (Hup : (c * inject_Z 32767 <= inject_Z 32767)%Q).
  { setoid_replace (inject_Z 32767) with (1 * inject_Z 32767)%Q at 2 by ring.
    apply Qmult_le_compat_r; [exact Hhi | discriminate]. }
  assert (Hdown : (inject_Z (-32767) <= c * inject_Z 32767)%Q).
  { setoid_replace (inject_Z (-32767)) with ((-1) * inject_Z 32767)%Q by reflexivity.
    apply Qmult_le_compat_r; [exact Hlo | discriminate]. }
  destruct (Qle_bool 0 (c * inject_Z 32767))%Q eqn:E.
  - apply Qle_bool_iff in E. split.
    + apply Z.le_trans with (Qfloor 0); [discriminate | now apply Qfloor_resp_le].
    + rewrite <- (Qfloor_Z 32767). now apply Qfloor_resp_le.
  - split.
    + rewrite <- (Qceiling_Z (-32767)). now apply Qceiling_resp_le.
    + rewrite <- (Qceiling_Z 32767). now apply Qceiling_resp_le.
Qed.

Lemma nth_flat_map_fixed {A : Type} (f : A -> list Z) (w : nat) (dx : A) :
  (forall x, List.length (f x) = w) ->
  forall (l : list A) (j r : nat),
    (j < List.length l)%nat -> (r < w)%nat ->
    nth (j * w + r) (flat_map f l) 0 = nth r (f (nth j l dx)) 0.
Proof.
  intros Hw l. induction l as [| a l IH]; intros j r Hj Hr; simpl in Hj; [lia |].
  simpl flat_map. destruct j as [| j].
  - simpl. apply app_nth1. now rewrite Hw.
  - replace (S j * w + r)%nat with (List.length (f a) + (j * w + r))%nat
      by (rewrite Hw; simpl; lia).
    rewrite app_nth2_plus. simpl nth. apply IH; lia.
Qed.

Lemma sample_byte (buffer : AudioBuffer) (i channel r : nat) :
  (i < frames buffer)%nat -> (channel < numberOfChannels buffer)%nat -> (r < 2)%nat ->
  nth (44 + (2 * (i * numberOfChannels buffer + channel) + r))
      (wavHeader buffer ++ wavSamples buffer 0 (frames buffer)) 0
  = nth r (littleEndian16 (quantize (sampleAt buffer channel i))) 0.
Proof.
  intros Hi Hc Hr.
  rewrite <- (length_wavHeader buffer) at 1. rewrite app_nth2_plus.
  unfold wavSamples.
  replace (2 * (i * numberOfChannels buffer + channel) + r)%nat
    with (i * (numberOfChannels buffer * 2) + (channel * 2 + r))%nat by lia.
  rewrite (nth_flat_map_fixed _ (numberOfChannels buffer * 2) 0%nat).
  - rewrite seq_nth by exact Hi. simpl Nat.add. unfold frameBytes.
    rewrite (nth_flat_map_fixed _ 2 0%nat); [| reflexivity | now rewrite length_seq | exact Hr].
    now rewrite seq_nth by exact Hc.
  - intro x. apply length_frameBytes.
  - now rewrite length_seq.
  - lia.
Qed.

(** X21 -- Sample [i] of channel [channel] sits at byte
    [44 + 2 * (i * numberOfChannels + channel)]: read back as a signed
    little-endian 16-bit integer it is the clamped sample times [0x7FFF],
    truncated toward zero, and lies in [-32767, 32767]. *)
Theorem wav_samples_read_back :
  forall (buffer : AudioBuffer) (view : list Z) (i channel : nat),
    audioBufferToWav buffer = Return view ->
    (i < frames buffer)%nat ->
    (channel < numberOfChannels buffer)%nat ->
    getInt16 view (44 + 2 * (i * numberOfChannels buffer + channel))
    = quantize (sampleAt buffer channel i)
    /\ -32767 <= quantize (sampleAt buffer channel i) <= 32767.
Proof.
  intros buffer view i channel H Hi Hc.
  rewrite audioBufferToWav_bytes in H.
  assert (E : view = (wavHeader buffer ++ wavSamples buffer 0 (frames buffer))%list)
    by congruence.
  clear H. subst view.
  split; [| apply quantize_range].
  unfold getInt16, getUint16, getUint8.
  pose proof (sample_byte buffer i channel 0 Hi Hc) as B0.
  pose proof (sample_byte buffer i channel 1 Hi Hc) as B1.
  rewrite Nat.add_0_r in B0.
  replace (44 + 2 * (i * numberOfChannels buffer + channel) + 1)%nat
    with (44 + (2 * (i * numberOfChannels buffer + channel) + 1))%nat by lia.
  rewrite B0, B1 by lia.
  unfold littleEndian16. cbn [nth]. rewrite decode16.
  apply signed16. pose proof (quantize_range (sampleAt buffer channel i)). lia.
Qed.

Lemma wav_samples_read_back_witness :
  getInt16 [82; 73; 70; 70; 44; 0; 0; 0; 87; 65; 86; 69; 102; 109; 116; 32; 16;
            0; 0; 0; 1; 0; 2; 0; 128; 187; 0; 0; 0; 238; 2; 0; 4; 0; 16; 0;
            100; 97; 116; 97; 8; 0; 0; 0; 255; 127; 0; 0; 1; 192; 255; 127]
    (44 + 2 * (1 * numberOfChannels twoFrames + 0))
  = quantize (sampleAt twoFrames 0 1)
  /\ -32767 <= quantize (sampleAt twoFrames 0 1) <= 32767.
Proof.
  apply (wav_samples_read_back twoFrames _ 1%nat 0%nat).
  - vm_compute. reflexivity.
  - simpl. lia.
  - unfold numberOfChannels. simpl. lia.
Defined.

(** Full scale maps to 32767 and -32767, half scale truncates toward
    zero, NaN is stored as silence. *)
Example quantize_examples :
  quantize (Finite 1%Q) = 32767
  /\ quantize (Finite (-1)%Q) = -32767
  /\ quantize (Finite (3 # 2)%Q) = 32767
  /\ quantize (Finite (-1 # 2)%Q) = -16383
  /\ quantize NotANumber = 0
  /\ quantize MinusInfinity = -32767.
Proof. repeat split; vm_compute; reflexivity. Qed.
